(** * AstroStep focuser driver: protocol engine and motion state machine

    A shallow embedding of [indi_astrostep.cpp] / [indi_astrostep.h].

    - C integers are [Z] with the 32-bit wrap-around written out.
    - C strings are [string] (the bytes before the terminating NUL).
    - The driver object is a record [Driver]; its methods are state
      transformers in a small state monad.
    - The serial line is not part of the driver: every call of
      [sendCommand] consumes one [Exchange] of a transport script
      [tty : nat -> Exchange], which says how [tty_write_string] and the
      following read turn out for that call.
    - What the driver does towards the outside (bytes handed to
      [tty_write_string], log lines, [IDSetNumber] / [IDSetSwitch]
      notifications, timers, sleeps) is appended to a trace. *)

From Stdlib Require Import ZArith List String Ascii Bool Lia QArith Qabs.
From Stdlib Require Import Qround.
Import ListNotations.

Local Open Scope string_scope.
Local Open Scope list_scope.
Local Open Scope Z_scope.

(* ================================================================== *)
(** ** Machine integers *)

Module CInt.

Definition INT32_MIN : Z := - 2 ^ 31.
Definition INT32_MAX : Z := 2 ^ 31 - 1.
Definition UINT32_MOD : Z := 2 ^ 32.

Definition in_int32 (z : Z) : bool := (INT32_MIN <=? z) && (z <=? INT32_MAX).

(** Conversion of an integer to [uint32_t]: reduction modulo 2^32. *)
Definition to_uint32 (z : Z) : Z := z mod UINT32_MOD.

(** Conversion of an integer to [int32_t] / [int]: two's complement. *)
Definition to_int32 (z : Z) : Z :=
  let u := z mod UINT32_MOD in
  if u <=? INT32_MAX then u else u - UINT32_MOD.

(** [static_cast<int32_t>(d)] for a double [d] that holds an integer: the
    value itself when it is representable.  Outside the range the C++
    conversion is undefined; the model takes the result of the x86
    conversion instruction, which is [INT32_MIN]. *)
Definition double_to_int32 (z : Z) : Z :=
  if in_int32 z then z else INT32_MIN.

(** [static_cast<uint32_t>(d)] for a double [d] that holds an integer.
    Exact on [0, 2^32); outside it the C++ conversion is undefined and
    the model reduces modulo 2^32. *)
Definition double_to_uint32 (z : Z) : Z := to_uint32 z.

(** [float(i)] for an [int] [i], the result read back as an integer:
    round to nearest, ties to even, on a 24-bit significand. *)
Definition float_of_int (z : Z) : Z :=
  let a := Z.abs z in
  let e := Z.log2 a - 23 in
  if e <=? 0 then z
  else
    let q := a / 2 ^ e in
    let r := a mod 2 ^ e in
    let h := 2 ^ (e - 1) in
    let q' := if (h <? r) || ((r =? h) && Z.odd q) then q + 1 else q in
    Z.sgn z * (q' * 2 ^ e).

(** C integer division truncates toward zero. *)
Definition idiv (a b : Z) : Z := Z.quot a b.

End CInt.

(* ================================================================== *)
(** ** The C library functions the driver calls on strings *)

Module CStr.

Import CInt.

Definition code (c : ascii) : Z := Z.of_nat (nat_of_ascii c).

(** [isspace] in the C locale. *)
Definition isspace (c : ascii) : bool :=
  (code c =? 32) || ((9 <=? code c) && (code c <=? 13)).

(** Value of [c] as a digit in base up to 16, if it is one. *)
Definition digit_val (c : ascii) : option Z :=
  let n := code c in
  if (48 <=? n) && (n <=? 57) then Some (n - 48)
  else if (97 <=? n) && (n <=? 102) then Some (n - 87)
  else if (65 <=? n) && (n <=? 70) then Some (n - 55)
  else None.

Definition digit_in (base : Z) (c : ascii) : option Z :=
  match digit_val c with
  | Some d => if d <? base then Some d else None
  | None => None
  end.

Definition digit_char (d : Z) : ascii := ascii_of_nat (Z.to_nat (48 + d)).

(** *** [strstr] *)

Fixpoint starts_with (needle hay : string) : bool :=
  match needle, hay with
  | EmptyString, _ => true
  | String a n', String b h' => Ascii.eqb a b && starts_with n' h'
  | String _ _, EmptyString => false
  end.

(** [strstr(hay, needle)]: the suffix of [hay] at the first occurrence
    of [needle], or [None] for the null pointer. *)
Fixpoint strstr (hay needle : string) : option string :=
  if starts_with needle hay then Some hay
  else match hay with
       | EmptyString => None
       | String _ h' => strstr h' needle
       end.

(** *** [snprintf] conversions *)

Fixpoint decimal_aux (fuel : nat) (n : Z) (acc : string) : string :=
  match fuel with
  | O => acc
  | S fuel' =>
      let acc' := String (digit_char (n mod 10)) acc in
      if n / 10 =? 0 then acc' else decimal_aux fuel' (n / 10) acc'
  end.

(** The decimal digits of [n >= 0], most significant first.  A number
    has no more decimal digits than binary ones, which bounds the
    recursion. *)
Definition decimal (n : Z) : string :=
  decimal_aux (S (Z.to_nat (Z.log2 n))) n "".

Fixpoint zeros (n : nat) : string :=
  match n with
  | O => ""
  | S k => String "0" (zeros k)
  end.

Definition pad0 (w : nat) (s : string) : string :=
  (zeros (w - String.length s) ++ s)%string.

(** ["%u"] on a [uint32_t]. *)
Definition fmt_u (v : Z) : string := decimal (to_uint32 v).

(** ["%d"] / ["%i"] on an [int]; an unsigned argument is read as the
    [int] with the same bits. *)
Definition fmt_d (v : Z) : string :=
  let i := to_int32 v in
  if i <? 0 then String "-" (decimal (- i)) else decimal i.

(** ["%09i"]: minimum field width 9, padded with zeros after the sign. *)
Definition fmt_09i (v : Z) : string :=
  let i := to_int32 v in
  if i <? 0 then String "-" (pad0 8 (decimal (- i))) else pad0 9 (decimal i).

(** [snprintf(buf, size, ...)] keeps at most [size - 1] characters. *)
Definition snprintf (size : nat) (s : string) : string :=
  substring 0 (size - 1) s.

(** *** [sscanf] conversions

    The conversions are those of the GNU C library where [long] has 64
    bits, which is what the driver runs on. *)

Fixpoint skip_space (s : string) : string :=
  match s with
  | String c t => if isspace c then skip_space t else s
  | EmptyString => s
  end.

(** The longest run of digits of [base] at the head of [s], accumulated
    onto [acc]. *)
Fixpoint scan_digits (base acc : Z) (s : string) : Z * string :=
  match s with
  | String c t =>
      match digit_in base c with
      | Some d => scan_digits base (acc * base + d) t
      | None => (acc, s)
      end
  | EmptyString => (acc, s)
  end.

Definition starts_digit (base : Z) (s : string) : bool :=
  match s with
  | String c _ => match digit_in base c with Some _ => true | None => false end
  | EmptyString => false
  end.

Definition scan_sign (s : string) : bool * string :=
  match s with
  | String "-" t => (true, t)
  | String "+" t => (false, t)
  | _ => (false, s)
  end.

Inductive Conv : Type :=
| ConvOk (v : Z) (rest : string)
| ConvFail
| ConvEOF.

(** The magnitude of a number in a fixed [base] (["%d"], ["%u"]). *)
Definition scan_magnitude (base : Z) (s : string) : option (Z * string) :=
  if starts_digit base s then Some (scan_digits base 0 s) else None.

(** The magnitude of a ["%i"] number: [0x] / [0X] announces base 16, a
    leading [0] base 8, anything else base 10.  After [0x] the GNU C
    library has already taken the [0] as a digit: with no hex digit
    behind the [x] the number read is that 0, and the [x] is used up. *)
Definition scan_magnitude_i (s : string) : option (Z * string) :=
  match s with
  | String "0" (String x t) =>
      if Ascii.eqb x "x" || Ascii.eqb x "X"
      then Some (scan_digits 16 0 t)
      else scan_magnitude 8 s
  | _ => scan_magnitude 10 s
  end.

(** The limits of [long] and [unsigned long], 64 bits wide. *)
Definition LONG_MIN : Z := - 2 ^ 63.
Definition LONG_MAX : Z := 2 ^ 63 - 1.
Definition ULONG_MAX : Z := 2 ^ 64 - 1.

(** [strtol] on a sign and digits that denote [z]: the result stays
    within [long]. *)
Definition strtol (z : Z) : Z := Z.max LONG_MIN (Z.min LONG_MAX z).

(** [strtoul] on a sign and digits that denote [z]: [ULONG_MAX] when
    the digits exceed it, and otherwise the number, negated modulo 2^64
    behind a minus sign. *)
Definition strtoul (z : Z) : Z :=
  if ULONG_MAX <? Z.abs z then ULONG_MAX else z mod (ULONG_MAX + 1).

(** One numeric conversion: skip white space, read an optional sign and
    the digits.  The number goes through [strtol] or [strtoul], as in
    the GNU C library, and what comes out is stored into a 32-bit
    object, keeping its low 32 bits. *)
Definition scan_conv (mag : string -> option (Z * string))
    (store : Z -> Z) (s : string) : Conv :=
  match skip_space s with
  | EmptyString => ConvEOF
  | s1 =>
      let (neg, s2) := scan_sign s1 in
      match mag s2 with
      | Some (v, rest) => ConvOk (store (if neg then - v else v)) rest
      | None => ConvFail
      end
  end.

Definition scan_d : string -> Conv :=
  scan_conv (scan_magnitude 10) (fun z => to_int32 (strtol z)).
Definition scan_u : string -> Conv :=
  scan_conv (scan_magnitude 10) (fun z => to_uint32 (strtoul z)).
Definition scan_i : string -> Conv :=
  scan_conv scan_magnitude_i (fun z => to_int32 (strtol z)).

(** [sscanf(res, "<conv>#", &x)] with [x] holding [x0] before the call:
    the return value and [x] afterwards.  The trailing [#] of the format
    comes after the last conversion and cannot change either. *)
Definition sscanf1 (conv : string -> Conv) (x0 : Z) (res : string) : Z * Z :=
  match conv res with
  | ConvOk v _ => (1, v)
  | ConvFail => (0, x0)
  | ConvEOF => (-1, x0)
  end.

(** [sscanf(res, "%d.%d#", &a, &b)] with [a], [b] holding [a0], [b0]. *)
Definition sscanf_d_dot_d (a0 b0 : Z) (res : string) : Z * Z * Z :=
  match scan_d res with
  | ConvOk a rest =>
      match rest with
      | String "." rest' =>
          match scan_d rest' with
          | ConvOk b _ => (2, a, b)
          | _ => (1, a, b0)
          end
      | _ => (1, a, b0)
      end
  | ConvFail => (0, a0, b0)
  | ConvEOF => (-1, a0, b0)
  end.

(** *** Reading digit strings, for stating what a command carries *)

Definition is_decimal (c : ascii) : bool := (48 <=? code c) && (code c <=? 57).

Fixpoint all_digits (s : string) : bool :=
  match s with
  | String c t => is_decimal c && all_digits t
  | EmptyString => true
  end.

Fixpoint digits_value_from (acc : Z) (s : string) : Z :=
  match s with
  | String c t => digits_value_from (acc * 10 + (code c - 48)) t
  | EmptyString => acc
  end.

(** The number a string of decimal digits denotes. *)
Definition digits_value (s : string) : Z := digits_value_from 0 s.

(** [needle] occurs somewhere in [hay]. *)
Definition occurs_in (needle hay : string) : Prop :=
  exists pre post, hay = (pre ++ needle ++ post)%string.

(** *** Octal digit strings, as ["%i"] reads them after a leading zero *)

Definition is_octal (c : ascii) : bool := (48 <=? code c) && (code c <=? 55).

Fixpoint all_octal (s : string) : bool :=
  match s with
  | String c t => is_octal c && all_octal t
  | EmptyString => true
  end.

Fixpoint octal_value_from (acc : Z) (s : string) : Z :=
  match s with
  | String c t => octal_value_from (acc * 8 + (code c - 48)) t
  | EmptyString => acc
  end.

(** The number a string of octal digits denotes in base 8. *)
Definition octal_value (s : string) : Z := octal_value_from 0 s.

End CStr.

(* ================================================================== *)
(** ** The driver object *)

Module AstroStep.

Import CInt CStr.

Inductive IPState : Type := IPS_IDLE | IPS_OK | IPS_BUSY | IPS_ALERT.
Inductive ISState : Type := ISS_OFF | ISS_ON.
Inductive FocusDirection : Type := FOCUS_INWARD | FOCUS_OUTWARD.

(** [enum CoilPower] and the framework's [INDI_ENABLED] / [INDI_DISABLED],
    as the array indices they are used for. *)
Definition COIL_POWER_OFF : Z := 0.
Definition COIL_POWER_ON : Z := 1.
Definition INDI_ENABLED : Z := 0.
Definition INDI_DISABLED : Z := 1.

(** The property vectors whose status field [.s] the driver touches. *)
Inductive Vector : Type :=
| FocusAbsPosNP | FocusRelPosNP | FocusTimerNP | FocusSpeedNP
| TemperatureNP | TemperatureSettingNP | TemperatureCompensateSP
| GotoHomeSP | CoilPowerSP | FocusReverseSP.

(** The numbers [X[0].value] that only ever hold integers. *)
Inductive Number : Type :=
| FocusAbsPosN | FocusRelPosN | FocusTimerN | FocusSpeedN | FocusMaxPosN
| TemperatureN.

(** The switches [X[i].s]. *)
Inductive Switch : Type :=
| TemperatureCompensateS (i : Z)      (* 0: Enable, 1: Disable *)
| GotoHomeS (i : Z)
| CoilPowerS (i : Z)
| FocusReverseS (i : Z).

Definition Vector_eqb (a b : Vector) : bool :=
  match a, b with
  | FocusAbsPosNP, FocusAbsPosNP | FocusRelPosNP, FocusRelPosNP
  | FocusTimerNP, FocusTimerNP | FocusSpeedNP, FocusSpeedNP
  | TemperatureNP, TemperatureNP
  | TemperatureSettingNP, TemperatureSettingNP
  | TemperatureCompensateSP, TemperatureCompensateSP
  | GotoHomeSP, GotoHomeSP | CoilPowerSP, CoilPowerSP
  | FocusReverseSP, FocusReverseSP => true
  | _, _ => false
  end.

Definition Number_eqb (a b : Number) : bool :=
  match a, b with
  | FocusAbsPosN, FocusAbsPosN | FocusRelPosN, FocusRelPosN
  | FocusTimerN, FocusTimerN | FocusSpeedN, FocusSpeedN
  | FocusMaxPosN, FocusMaxPosN | TemperatureN, TemperatureN => true
  | _, _ => false
  end.

Definition Switch_eqb (a b : Switch) : bool :=
  match a, b with
  | TemperatureCompensateS i, TemperatureCompensateS j
  | GotoHomeS i, GotoHomeS j
  | CoilPowerS i, CoilPowerS j
  | FocusReverseS i, FocusReverseS j => i =? j
  | _, _ => false
  end.

Definition IPState_eqb (a b : IPState) : bool :=
  match a, b with
  | IPS_IDLE, IPS_IDLE | IPS_OK, IPS_OK | IPS_BUSY, IPS_BUSY
  | IPS_ALERT, IPS_ALERT => true
  | _, _ => false
  end.

Inductive LogLevel : Type := LOG_ERROR | LOG_INFO | LOG_DEBUG.

(** What the driver does towards the outside, in the order it does it. *)
Inductive Event : Type :=
| TtyWrite (cmd : string)            (* tty_write_string(PortFD, cmd, ..) *)
| Log (lvl : LogLevel) (msg : string)
| IDSet (v : Vector) (s : IPState)   (* IDSetNumber / IDSetSwitch(&v, ..),
                                        with [v.s] as it is sent *)
| IEAddTimer (ms : Z)                (* one-shot timer for timedMoveHelper *)
| SetTimer                           (* next poll *)
| Sleep (seconds : Z).

Record Driver : Type := mkDriver {
  connected : bool;                  (* isConnected() *)
  targetPos : Z;
  lastPos : Z;
  lastTemperature : Z;
  value : Number -> Z;
  FocusAbsPosN_min : Z;
  FocusAbsPosN_max : Z;
  TemperatureSettingN : Q * Q;       (* Calibration, Coefficient *)
  status : Vector -> IPState;
  switch : Switch -> ISState;
  exchanges : nat;                   (* calls of sendCommand so far *)
  trace : list Event
}.

Definition set_targetPos (x : Z) (d : Driver) : Driver :=
  mkDriver (connected d) x (lastPos d) (lastTemperature d) (value d)
    (FocusAbsPosN_min d) (FocusAbsPosN_max d) (TemperatureSettingN d)
    (status d) (switch d) (exchanges d) (trace d).

Definition set_lastPos (x : Z) (d : Driver) : Driver :=
  mkDriver (connected d) (targetPos d) x (lastTemperature d) (value d)
    (FocusAbsPosN_min d) (FocusAbsPosN_max d) (TemperatureSettingN d)
    (status d) (switch d) (exchanges d) (trace d).

Definition set_lastTemperature (x : Z) (d : Driver) : Driver :=
  mkDriver (connected d) (targetPos d) (lastPos d) x (value d)
    (FocusAbsPosN_min d) (FocusAbsPosN_max d) (TemperatureSettingN d)
    (status d) (switch d) (exchanges d) (trace d).

Definition set_value (n : Number) (x : Z) (d : Driver) : Driver :=
  mkDriver (connected d) (targetPos d) (lastPos d) (lastTemperature d)
    (fun m => if Number_eqb m n then x else value d m)
    (FocusAbsPosN_min d) (FocusAbsPosN_max d) (TemperatureSettingN d)
    (status d) (switch d) (exchanges d) (trace d).

Definition set_TemperatureSettingN (x : Q * Q) (d : Driver) : Driver :=
  mkDriver (connected d) (targetPos d) (lastPos d) (lastTemperature d)
    (value d) (FocusAbsPosN_min d) (FocusAbsPosN_max d) x
    (status d) (switch d) (exchanges d) (trace d).

Definition set_status (v : Vector) (x : IPState) (d : Driver) : Driver :=
  mkDriver (connected d) (targetPos d) (lastPos d) (lastTemperature d)
    (value d) (FocusAbsPosN_min d) (FocusAbsPosN_max d)
    (TemperatureSettingN d)
    (fun w => if Vector_eqb w v then x else status d w)
    (switch d) (exchanges d) (trace d).

Definition set_switch (k : Switch) (x : ISState) (d : Driver) : Driver :=
  mkDriver (connected d) (targetPos d) (lastPos d) (lastTemperature d)
    (value d) (FocusAbsPosN_min d) (FocusAbsPosN_max d)
    (TemperatureSettingN d) (status d)
    (fun j => if Switch_eqb j k then x else switch d j)
    (exchanges d) (trace d).

Definition add_event (e : Event) (d : Driver) : Driver :=
  mkDriver (connected d) (targetPos d) (lastPos d) (lastTemperature d)
    (value d) (FocusAbsPosN_min d) (FocusAbsPosN_max d)
    (TemperatureSettingN d) (status d) (switch d) (exchanges d)
    (trace d ++ [e]).

Definition count_exchange (d : Driver) : Driver :=
  mkDriver (connected d) (targetPos d) (lastPos d) (lastTemperature d)
    (value d) (FocusAbsPosN_min d) (FocusAbsPosN_max d)
    (TemperatureSettingN d) (status d) (switch d) (S (exchanges d))
    (trace d).

(** *** State monad over the driver object *)

Definition M (A : Type) : Type := Driver -> A * Driver.

Definition ret {A} (a : A) : M A := fun d => (a, d).

Definition bind {A B} (m : M A) (k : A -> M B) : M B :=
  fun d => let (a, d') := m d in k a d'.

Definition gets {A} (f : Driver -> A) : M A := fun d => (f d, d).

Definition modify (f : Driver -> Driver) : M unit := fun d => (tt, f d).

Definition when (b : bool) (m : M unit) : M unit := if b then m else ret tt.

Declare Scope driver_scope.
Delimit Scope driver_scope with driver.
Bind Scope driver_scope with M.

Notation "x <- m ;; k" := (bind m (fun x => k))
  (at level 61, m at next level, right associativity) : driver_scope.
Notation "m ;; k" := (bind m (fun _ => k))
  (at level 61, right associativity) : driver_scope.

Local Open Scope driver_scope.

Definition emit (e : Event) : M unit := modify (add_event e).
Definition LOG (lvl : LogLevel) (msg : string) : M unit := emit (Log lvl msg).

(** [IDSetNumber(&v, nullptr)] / [IDSetSwitch(&v, nullptr)]. *)
Definition IDSet_ (v : Vector) : M unit :=
  s <- gets (fun d => status d v) ;; emit (IDSet v s).

(** String concatenation, for the [printf]-style formats. *)
Definition cat (l : list string) : string := String.concat "" l.

Arguments cat l : simpl never.

(** Run a method for its final state or its result. *)
Definition exec {A} (m : M A) (d : Driver) : Driver := snd (m d).
Definition eval {A} (m : M A) (d : Driver) : A := fst (m d).

(** The events a run of [m] from [d] appends to the trace. *)
Definition emitted {A} (m : M A) (d : Driver) : list Event :=
  skipn (List.length (trace d)) (trace (exec m d)).

(** The commands written to the line among some events. *)
Fixpoint written (es : list Event) : list string :=
  match es with
  | TtyWrite cmd :: es' => cmd :: written es'
  | _ :: es' => written es'
  | [] => []
  end.

(** The error messages among some events. *)
Fixpoint errors (es : list Event) : list string :=
  match es with
  | Log LOG_ERROR msg :: es' => msg :: errors es'
  | _ :: es' => errors es'
  | [] => []
  end.

(** The property notifications among some events. *)
Fixpoint notified (es : list Event) : list (Vector * IPState) :=
  match es with
  | IDSet v s :: es' => (v, s) :: notified es'
  | _ :: es' => notified es'
  | [] => []
  end.

(** The one-shot timers armed among some events. *)
Fixpoint timers (es : list Event) : list Z :=
  match es with
  | IEAddTimer ms :: es' => ms :: timers es'
  | _ :: es' => timers es'
  | [] => []
  end.

(* ================================================================== *)
(** ** The protocol engine and the driver's methods *)

(** How [tty_write_string] turns out for one call of [sendCommand]. *)
Inductive WriteOutcome : Type :=
| WriteOk
| WriteErr (errstr : string).         (* rc != TTY_OK, and its message *)

(** How the read that follows turns out, when there is one. *)
Inductive ReadOutcome : Type :=
| ReadOk (res : string)               (* the buffer, up to its NUL *)
| ReadErr (errstr : string).

Record Exchange : Type := mkExchange {
  on_write : WriteOutcome;
  on_read : ReadOutcome
}.

(** The script of the line: the outcome of the [n]-th call of
    [sendCommand] since the driver was created. *)
Definition Transport : Type := nat -> Exchange.

Definition ML_RES : nat := 32.

Section Methods.

Variable tty : Transport.

(** [sendCommand(cmd, res, silent, nret)].  [res] says whether a buffer
    is passed; the result is [None] for [false] and the buffer for
    [true] (empty when none was passed).  [tty_nread_section] (for
    [nret == 0]) and [tty_read] both get their outcome from the script;
    [tcflush] and [tcdrain] leave no trace. *)
Definition sendCommand (cmd : string) (res silent : bool) (nret : Z)
  : M (option string) :=
  x <- gets (fun d => tty (exchanges d)) ;;
  modify count_exchange ;;
  LOG LOG_DEBUG (cat ["CMD <"; cmd; ">"]) ;;
  emit (TtyWrite cmd) ;;
  match on_write x with
  | WriteErr errstr =>
      when (negb silent)
        (LOG LOG_ERROR (cat ["Serial write error: "; errstr; "."])) ;;
      ret None
  | WriteOk =>
      if negb res then ret (Some "")
      else
        match on_read x with
        | ReadErr errstr =>
            when (negb silent)
              (LOG LOG_ERROR (cat [cmd; " Serial read error: "; errstr; "."])) ;;
            ret None
        | ReadOk buf =>
            LOG LOG_DEBUG (cat ["RES <"; buf; ">"]) ;;
            ret (Some buf)
        end
  end.

(** Whether a call returned [true]. *)
Definition succeeded {A} (r : option A) : bool :=
  match r with Some _ => true | None => false end.

(** A command with no read back: [sendCommand(cmd)]. *)
Definition sendCommand_ (cmd : string) : M bool :=
  r <- sendCommand cmd false false 0 ;; ret (succeeded r).

Definition AbortFocuser : M bool := sendCommand_ ":FQ#".

Definition readVersion : M bool :=
  r <- sendCommand ":GV#" true true 0 ;;
  match r with
  | None => ret false
  | Some res =>
      LOG LOG_INFO (cat ["Detected firmware version "; res]) ;;
      ret true
  end.

(** The [for (int i = 0; i < 3; i++)] loop of [Ack], [n] iterations
    still to go. *)
Fixpoint Ack_loop (n : nat) : M bool :=
  match n with
  | O => ret false
  | S n' =>
      ok <- readVersion ;;
      if ok then ret true
      else emit (Sleep 1) ;; Ack_loop n'
  end.

Definition Ack : M bool := Ack_loop 3.

Definition Handshake : M bool :=
  ok <- Ack ;;
  if ok then
    LOG LOG_INFO "AstroStep is online. Getting focus parameters..." ;;
    ret true
  else
    LOG LOG_INFO "Error retrieving data from AstroStep, please ensure AstroStep controller is powered and the port is correct." ;;
    ret false.

Definition readCoilPowerState : M bool :=
  r <- sendCommand ":GE#" true false 0 ;;
  match r with
  | None => ret false
  | Some res =>
      let (rc, temp) := sscanf1 scan_u 0 res in
      if 0 <? rc then
        if temp =? 0 then
          modify (set_switch (CoilPowerS COIL_POWER_OFF) ISS_ON) ;; ret true
        else if temp =? 1 then
          modify (set_switch (CoilPowerS COIL_POWER_ON) ISS_ON) ;; ret true
        else
          LOG LOG_ERROR
            (cat ["Invalid Response: focuser Coil Power value ("; res; ")"]) ;;
          ret false
      else
        LOG LOG_ERROR
          (cat ["Unknown error: focuser Coil Power value ("; res; ")"]) ;;
        ret false
  end.

Definition readReverseDirection : M bool :=
  r <- sendCommand ":GR#" true false 0 ;;
  match r with
  | None => ret false
  | Some res =>
      let (rc, temp) := sscanf1 scan_d 0 res in
      if 0 <? rc then
        if temp =? 0 then
          modify (set_switch (FocusReverseS INDI_DISABLED) ISS_ON) ;; ret true
        else if temp =? 1 then
          modify (set_switch (FocusReverseS INDI_ENABLED) ISS_ON) ;; ret true
        else
          LOG LOG_ERROR
            (cat ["Invalid Response: focuser Reverse direction value (";
                  res; ")"]) ;;
          ret false
      else
        LOG LOG_ERROR
          (cat ["Unknown error: focuser Reverse direction value ("; res; ")"]) ;;
        ret false
  end.

(** [float(wholepart + fractpart / 10)] on the two [int]s read by
    ["%d.%d#"]: integer division, a 32-bit sum, then the conversion. *)
Definition fixed_point (wholepart fractpart : Z) : Z :=
  float_of_int (to_int32 (wholepart + idiv fractpart 10)).

(** The common body of [readTemperature], [readTemperatureCoefficient]
    and [readTemperatureCalibration]: they differ in the command and in
    where the value goes. *)
Definition read_fixed_point (cmd : string) (store : Z -> Driver -> Driver)
  : M bool :=
  r <- sendCommand cmd true false 0 ;;
  match r with
  | None => ret false
  | Some res =>
      let '(rc, wholepart, fractpart) := sscanf_d_dot_d 0 0 res in
      if 0 <? rc then
        modify (store (fixed_point wholepart fractpart)) ;; ret true
      else
        LOG LOG_ERROR
          (cat ["Unknown error: focuser temperature value ("; res; ")"]) ;;
        ret false
  end.

Definition readTemperature : M bool :=
  read_fixed_point ":GT#" (set_value TemperatureN).

Definition readTemperatureCoefficient : M bool :=
  read_fixed_point ":GC#"
    (fun v d => set_TemperatureSettingN
                  (fst (TemperatureSettingN d), inject_Z v) d).

Definition readTemperatureCalibration : M bool :=
  read_fixed_point ":GO#"
    (fun v d => set_TemperatureSettingN
                  (inject_Z v, snd (TemperatureSettingN d)) d).

Definition readPosition : M bool :=
  r <- sendCommand ":GP#" true false 0 ;;
  match r with
  | None => ret false
  | Some res =>
      let (rc, pos) := sscanf1 scan_i 0 res in
      if 0 <? rc then modify (set_value FocusAbsPosN pos) ;; ret true
      else
        LOG LOG_ERROR
          (cat ["Unknown error: focuser position value ("; res; ")"]) ;;
        ret false
  end.

Definition readSpeed : M bool :=
  r <- sendCommand ":GD#" true false 0 ;;
  match r with
  | None => ret false
  | Some res =>
      let (rc, speed) := sscanf1 scan_i 0 res in
      if 0 <? rc then modify (set_value FocusSpeedN speed) ;; ret true
      else
        LOG LOG_ERROR
          (cat ["Unknown error: focuser speed value ("; res; ")"]) ;;
        ret false
  end.

Definition isMoving : M bool :=
  r <- sendCommand ":GI#" true false 0 ;;
  match r with
  | None => ret false
  | Some res =>
      if succeeded (strstr res "1#") then ret true
      else if succeeded (strstr res "0#") then ret false
      else
        LOG LOG_ERROR (cat ["Unknown error: isMoving value ("; res; ")"]) ;;
        ret false
  end.

Definition setTemperatureCalibration (calibration : Z) : M bool :=
  sendCommand_ (snprintf ML_RES (cat [":SO"; fmt_u calibration; "#"])).

Definition setTemperatureCoefficient (compensation : Z) : M bool :=
  sendCommand_ (snprintf ML_RES (cat [":SC"; fmt_d compensation; "#"])).

Definition SyncFocuser (ticks : Z) : M bool :=
  sendCommand_ (snprintf ML_RES (cat [":SP"; fmt_09i ticks; "#"])).

(** [MoveFocuser(uint32_t position)]. *)
Definition MoveFocuser (position : Z) : M bool :=
  (* Set Position First *)
  ok <- sendCommand_ (snprintf ML_RES (cat [":SN"; fmt_09i position; "#"])) ;;
  if negb ok then ret false
  else
    (* Now start motion toward position *)
    ok <- sendCommand_ ":FG#" ;;
    if negb ok then ret false else ret true.

Definition setCoilPowerState (enable : Z) : M bool :=
  sendCommand_ (snprintf ML_RES (cat [":SE"; fmt_d enable; "#"])).

Definition ReverseFocuser (enable : bool) : M bool :=
  sendCommand_
    (snprintf ML_RES (cat [":SR"; fmt_d (if enable then 1 else 0); "#"])).

Definition setGotoHome : M bool :=
  moving <- isMoving ;;
  when moving (AbortFocuser ;; ret tt) ;;
  sendCommand_ (snprintf ML_RES ":HO#").

Definition setSpeed (speed : Z) : M bool :=
  sendCommand_ (snprintf ML_RES (cat [":SD"; fmt_d speed; "#"])).

Definition setTemperatureCompensation (enable : bool) : M bool :=
  sendCommand_ (snprintf ML_RES (cat [":"; if enable then "+" else "-"; "#"])).

(** *** Framework helpers on switch and number vectors

    [IUFindOnSwitchIndex], [IUResetSwitch], [IUUpdateSwitch] and
    [IUUpdateNumber] belong to the INDI library.  They are modelled on
    the two-member vectors of this driver: an update stores the client's
    values when the vector's rule (one of many; the number's range)
    allows them and leaves the vector alone otherwise. *)

Definition ISState_eqb (a b : ISState) : bool :=
  match a, b with
  | ISS_OFF, ISS_OFF | ISS_ON, ISS_ON => true
  | _, _ => false
  end.

Definition IUFindOnSwitchIndex (sw : Z -> Switch) : M Z :=
  a <- gets (fun d => switch d (sw 0)) ;;
  b <- gets (fun d => switch d (sw 1)) ;;
  ret (if ISState_eqb a ISS_ON then 0
       else if ISState_eqb b ISS_ON then 1 else -1).

Definition IUResetSwitch (sw : Z -> Switch) (n : Z) : M unit :=
  modify (set_switch (sw 0) ISS_OFF) ;;
  when (1 <? n) (modify (set_switch (sw 1) ISS_OFF)).

Definition IUUpdateSwitch (sw : Z -> Switch) (states : ISState * ISState)
  : M unit :=
  when (negb (ISState_eqb (fst states) (snd states)))
    (modify (set_switch (sw 0) (fst states)) ;;
     modify (set_switch (sw 1) (snd states))).

(** [sw[i].s = ISS_ON]; an index outside the array is not modelled as a
    write. *)
Definition switch_on (sw : Z -> Switch) (i : Z) : M unit :=
  when ((0 <=? i) && (i <? 2)) (modify (set_switch (sw i) ISS_ON)).

Definition in_range (lo hi x : Q) : bool := Qle_bool lo x && Qle_bool x hi.

Definition IUUpdateNumber (values : Q * Q) : M unit :=
  when (in_range (-100 # 1) (100 # 1) (fst values)
        && in_range (-100 # 1) (100 # 1) (snd values))
    (modify (set_TemperatureSettingN values)).

(** Implicit conversion of a double to [uint32_t]: truncation, modulo
    2^32 where C++ leaves it undefined. *)
Definition Q_to_uint32 (q : Q) : Z :=
  to_uint32 (Z.quot (Qnum q) (Zpos (Qden q))).

(** *** Client requests *)

(** [ISNewSwitch] for a request on [name] carrying the states of the
    vector's members in index order.  [dev] says whether the request
    names this device.  [None]: the request goes to
    [INDI::Focuser::ISNewSwitch]. *)
Definition ISNewSwitch (dev : bool) (name : string)
    (states : ISState * ISState) : M (option bool) :=
  if negb dev then ret None
  else if String.eqb "T. Compensate" name then
    (* Temperature Compensation Mode *)
    last_index <- IUFindOnSwitchIndex TemperatureCompensateS ;;
    IUUpdateSwitch TemperatureCompensateS states ;;
    en <- gets (fun d => switch d (TemperatureCompensateS 0)) ;;
    rc <- setTemperatureCompensation (ISState_eqb en ISS_ON) ;;
    if negb rc then
      modify (set_status TemperatureCompensateSP IPS_ALERT) ;;
      IUResetSwitch TemperatureCompensateS 2 ;;
      switch_on TemperatureCompensateS last_index ;;
      IDSet_ TemperatureCompensateSP ;;
      ret (Some false)
    else
      modify (set_status TemperatureCompensateSP IPS_OK) ;;
      IDSet_ TemperatureCompensateSP ;;
      ret (Some true)
  else if String.eqb "FOCUS_HOME" name then
    rc <- setGotoHome ;;
    if negb rc then
      IUResetSwitch GotoHomeS 1 ;;
      modify (set_status CoilPowerSP IPS_ALERT) ;;
      IDSet_ GotoHomeSP ;;
      ret (Some false)
    else
      modify (set_status GotoHomeSP IPS_OK) ;;
      IDSet_ GotoHomeSP ;;
      ret (Some true)
  else if String.eqb "FOCUS_COIL_POWER" name then
    (* Coil Power Mode *)
    current_mode <- IUFindOnSwitchIndex CoilPowerS ;;
    IUUpdateSwitch CoilPowerS states ;;
    target_mode <- IUFindOnSwitchIndex CoilPowerS ;;
    when (current_mode =? target_mode)
      (modify (set_status CoilPowerSP IPS_OK) ;; IDSet_ CoilPowerSP) ;;
    rc <- setCoilPowerState target_mode ;;
    if negb rc then
      IUResetSwitch CoilPowerS 2 ;;
      switch_on CoilPowerS current_mode ;;
      modify (set_status CoilPowerSP IPS_ALERT) ;;
      IDSet_ CoilPowerSP ;;
      ret (Some false)
    else
      modify (set_status CoilPowerSP IPS_OK) ;;
      IDSet_ CoilPowerSP ;;
      ret (Some true)
  else ret None.

(** [ISNewNumber]; [None]: the request goes to
    [INDI::Focuser::ISNewNumber]. *)
Definition ISNewNumber (dev : bool) (name : string) (values : Q * Q)
  : M (option bool) :=
  if negb dev then ret None
  else if String.eqb name "T. Settings" then
    (* Temperature Settings *)
    IUUpdateNumber values ;;
    cal <- gets (fun d => fst (TemperatureSettingN d)) ;;
    ok1 <- setTemperatureCalibration (Q_to_uint32 cal) ;;
    ok <- (if negb ok1 then ret false
           else
             coef <- gets (fun d => snd (TemperatureSettingN d)) ;;
             setTemperatureCoefficient (Q_to_uint32 coef)) ;;
    if negb ok then
      modify (set_status TemperatureSettingNP IPS_ALERT) ;;
      IDSet_ TemperatureSettingNP ;;
      ret (Some false)
    else
      modify (set_status TemperatureSettingNP IPS_OK) ;;
      IDSet_ TemperatureSettingNP ;;
      ret (Some true)
  else ret None.

Definition GetFocusParams : M unit :=
  ok <- readPosition ;; when ok (IDSet_ FocusAbsPosNP) ;;
  ok <- readTemperature ;; when ok (IDSet_ TemperatureNP) ;;
  ok <- readSpeed ;; when ok (IDSet_ FocusSpeedNP) ;;
  ok <- readCoilPowerState ;; when ok (IDSet_ CoilPowerSP) ;;
  ok <- readTemperatureCalibration ;; when ok (IDSet_ TemperatureSettingNP) ;;
  ok <- readTemperatureCoefficient ;; when ok (IDSet_ TemperatureSettingNP) ;;
  readReverseDirection ;;
  ret tt.

(** [updateProperties]; defining and deleting properties is the
    framework's business and leaves no trace. *)
Definition updateProperties : M bool :=
  c <- gets connected ;;
  when c
    (GetFocusParams ;;
     LOG LOG_INFO "AstroStep parameters updated, focuser ready for use.") ;;
  ret true.

Definition SetFocuserSpeed (speed : Z) : M bool := setSpeed (to_uint32 speed).

(** *** Motion *)

(** [MoveFocuser(FocusDirection dir, int speed, uint16_t duration)]. *)
Definition MoveFocuser_timed (dir : FocusDirection) (speed duration : Z)
  : M IPState :=
  last <- gets (fun d => value d FocusSpeedN) ;;
  speed_set <- (if negb (speed =? double_to_int32 last)
                then setSpeed (to_uint32 speed) else ret true) ;;
  if negb speed_set then ret IPS_ALERT
  else
    (* either go all the way in or all the way out
       then use timer to stop *)
    match dir with
    | FOCUS_INWARD => MoveFocuser 0
    | FOCUS_OUTWARD =>
        max <- gets (fun d => value d FocusMaxPosN) ;;
        MoveFocuser (double_to_uint32 max)
    end ;;
    emit (IEAddTimer duration) ;;
    ret IPS_BUSY.

Definition timedMoveCallback : M unit :=
  AbortFocuser ;;
  modify (set_status FocusAbsPosNP IPS_IDLE) ;;
  modify (set_status FocusRelPosNP IPS_IDLE) ;;
  modify (set_status FocusTimerNP IPS_IDLE) ;;
  modify (set_value FocusTimerN 0) ;;
  IDSet_ FocusAbsPosNP ;;
  IDSet_ FocusRelPosNP ;;
  IDSet_ FocusTimerNP.

Definition MoveAbsFocuser (targetTicks : Z) : M IPState :=
  modify (set_targetPos targetTicks) ;;
  t <- gets targetPos ;;
  ok <- MoveFocuser t ;;
  if negb ok then ret IPS_ALERT else ret IPS_BUSY.

Definition MoveRelFocuser (dir : FocusDirection) (ticks : Z) : M IPState :=
  (* Clamp *)
  let offset :=
    to_int32 ((match dir with FOCUS_INWARD => -1 | FOCUS_OUTWARD => 1 end)
              * to_int32 ticks) in
  cur <- gets (fun d => value d FocusAbsPosN) ;;
  lo <- gets FocusAbsPosN_min ;;
  hi <- gets FocusAbsPosN_max ;;
  let newPosition := double_to_int32 (cur + offset) in
  let newPosition :=
    Z.max (double_to_int32 lo) (Z.min (double_to_int32 hi) newPosition) in
  ok <- MoveFocuser (to_uint32 newPosition) ;;
  if negb ok then ret IPS_ALERT
  else
    modify (set_value FocusRelPosN ticks) ;;
    modify (set_status FocusRelPosNP IPS_BUSY) ;;
    ret IPS_BUSY.

(** [fabs(last - v) > 5] on integers held in doubles. *)
Definition position_moved (last v : Z) : bool := 5 <? Z.abs (last - v).

(** [fabs(last - v) >= 0.5], likewise. *)
Definition temperature_moved (last v : Z) : bool :=
  Qle_bool (1 # 2) (Qabs (inject_Z (last - v))).

Definition TimerHit : M unit :=
  c <- gets connected ;;
  if negb c then ret tt
  else
    rc <- readPosition ;;
    when rc
      (last <- gets lastPos ;;
       v <- gets (fun d => value d FocusAbsPosN) ;;
       when (position_moved last v)
         (IDSet_ FocusAbsPosNP ;;
          modify (set_lastPos (double_to_uint32 v)))) ;;
    rc <- readTemperature ;;
    when rc
      (last <- gets lastTemperature ;;
       v <- gets (fun d => value d TemperatureN) ;;
       when (temperature_moved last v)
         (IDSet_ TemperatureNP ;;
          modify (set_lastTemperature (double_to_uint32 v)))) ;;
    a <- gets (fun d => status d FocusAbsPosNP) ;;
    r <- gets (fun d => status d FocusRelPosNP) ;;
    when (IPState_eqb a IPS_BUSY || IPState_eqb r IPS_BUSY)
      (moving <- isMoving ;;
       when (negb moving)
         (modify (set_status FocusAbsPosNP IPS_OK) ;;
          modify (set_status FocusRelPosNP IPS_OK) ;;
          IDSet_ FocusAbsPosNP ;;
          IDSet_ FocusRelPosNP ;;
          v <- gets (fun d => value d FocusAbsPosN) ;;
          modify (set_lastPos (double_to_uint32 v)) ;;
          LOG LOG_INFO "Focuser reached requested position.")) ;;
    emit SetTimer.

End Methods.

Arguments sendCommand tty cmd res silent nret : simpl never.
Arguments sendCommand_ tty cmd : simpl never.
Arguments readPosition tty : simpl never.
Arguments readTemperature tty : simpl never.
Arguments isMoving tty : simpl never.
Arguments MoveFocuser tty position : simpl never.
Arguments setGotoHome tty : simpl never.

(* ================================================================== *)
(** ** Vocabulary for the statements *)

(** Whether the write of an exchange goes through. *)
Definition write_ok (x : Exchange) : bool :=
  match on_write x with WriteOk => true | WriteErr _ => false end.

(** The buffer a command with read back gets from an exchange, if both
    the write and the read go through. *)
Definition reply_of (x : Exchange) : option string :=
  match on_write x, on_read x with
  | WriteOk, ReadOk res => Some res
  | _, _ => None
  end.

(** The events of one call of [sendCommand], given the outcome [x] the
    script holds for it. *)
Definition sendCommand_events (x : Exchange) (cmd : string)
    (res silent : bool) : list Event :=
  [Log LOG_DEBUG (cat ["CMD <"; cmd; ">"]); TtyWrite cmd] ++
  match on_write x with
  | WriteErr errstr =>
      if silent then []
      else [Log LOG_ERROR (cat ["Serial write error: "; errstr; "."])]
  | WriteOk =>
      if negb res then []
      else match on_read x with
           | ReadErr errstr =>
               if silent then []
               else [Log LOG_ERROR
                       (cat [cmd; " Serial read error: "; errstr; "."])]
           | ReadOk buf => [Log LOG_DEBUG (cat ["RES <"; buf; ">"])]
           end
  end.

Arguments sendCommand_events x cmd res silent : simpl never.

(** Its result. *)
Definition sendCommand_result (x : Exchange) (res : bool) : option string :=
  if negb res then (if write_ok x then Some "" else None) else reply_of x.

(** The driver [n] exchanges and the events [es] later, everything else
    as it was. *)
Definition advance (n : nat) (es : list Event) (d : Driver) : Driver :=
  mkDriver (connected d) (targetPos d) (lastPos d) (lastTemperature d)
    (value d) (FocusAbsPosN_min d) (FocusAbsPosN_max d)
    (TemperatureSettingN d) (status d) (switch d) (n + exchanges d)
    (trace d ++ es).

(** [clamp(x, lo, hi)]. *)
Definition clamp (x lo hi : Z) : Z := Z.max lo (Z.min hi x).

Definition sign (dir : FocusDirection) : Z :=
  match dir with FOCUS_INWARD => -1 | FOCUS_OUTWARD => 1 end.

(** The answer of the device to [:GI#] as [isMoving] reads it. *)
Definition moving_flag (x : Exchange) : bool :=
  match reply_of x with
  | Some res => succeeded (strstr res "1#")
  | None => false
  end.

(** What [isMoving] logs about that answer. *)
Definition isMoving_events (x : Exchange) : list Event :=
  match reply_of x with
  | Some res =>
      if succeeded (strstr res "1#") then []
      else if succeeded (strstr res "0#") then []
      else [Log LOG_ERROR (cat ["Unknown error: isMoving value ("; res; ")"])]
  | None => []
  end.

(** Whether a version query gets a reply. *)
Definition version_ok (x : Exchange) : bool := succeeded (reply_of x).

(** How many version queries [Ack] makes when it has [n] attempts left
    and the line stands at exchange [start]; and whether one of them
    gets a reply. *)
Fixpoint attempts (tty : Transport) (start n : nat) : nat :=
  match n with
  | O => O
  | S n' => if version_ok (tty start) then 1%nat
            else S (attempts tty (S start) n')
  end.

Fixpoint any_ok (tty : Transport) (start n : nat) : bool :=
  match n with
  | O => false
  | S n' => version_ok (tty start) || any_ok tty (S start) n'
  end.

(** The position a reply to [:GP#] carries, if [readPosition] accepts
    it. *)
Definition position_of (x : Exchange) : option Z :=
  match reply_of x with
  | Some res => let (rc, pos) := sscanf1 scan_i 0 res in
                if 0 <? rc then Some pos else None
  | None => None
  end.

(** The temperature a reply to [:GT#] carries, if [readTemperature]
    accepts it. *)
Definition temperature_of (x : Exchange) : option Z :=
  match reply_of x with
  | Some res => let '(rc, w, f) := sscanf_d_dot_d 0 0 res in
                if 0 <? rc then Some (fixed_point w f) else None
  | None => None
  end.

(** *** Operations and the commands they may write *)

(** Every method of the driver that talks to the line, apart from the
    handshake ([Ack], and [Handshake] which only calls it). *)
Inductive Operation : Type :=
| op_readCoilPowerState
| op_readReverseDirection
| op_readVersion
| op_readTemperature
| op_readTemperatureCoefficient
| op_readTemperatureCalibration
| op_readPosition
| op_readSpeed
| op_isMoving
| op_setTemperatureCalibration (calibration : Z)
| op_setTemperatureCoefficient (compensation : Z)
| op_SyncFocuser (ticks : Z)
| op_MoveFocuser (position : Z)
| op_setCoilPowerState (enable : Z)
| op_ReverseFocuser (enable : bool)
| op_setGotoHome
| op_setSpeed (speed : Z)
| op_setTemperatureCompensation (enable : bool)
| op_ISNewSwitch (dev : bool) (name : string) (states : ISState * ISState)
| op_ISNewNumber (dev : bool) (name : string) (values : Q * Q)
| op_GetFocusParams
| op_updateProperties
| op_SetFocuserSpeed (speed : Z)
| op_MoveFocuser_timed (dir : FocusDirection) (speed duration : Z)
| op_timedMoveCallback
| op_MoveAbsFocuser (targetTicks : Z)
| op_MoveRelFocuser (dir : FocusDirection) (ticks : Z)
| op_TimerHit
| op_AbortFocuser.

(** Running a method for its effects. *)
Definition run {A} (m : M A) : M unit := bind m (fun _ => ret tt).

Definition call (tty : Transport) (op : Operation) : M unit :=
  match op with
  | op_readCoilPowerState => run (readCoilPowerState tty)
  | op_readReverseDirection => run (readReverseDirection tty)
  | op_readVersion => run (readVersion tty)
  | op_readTemperature => run (readTemperature tty)
  | op_readTemperatureCoefficient => run (readTemperatureCoefficient tty)
  | op_readTemperatureCalibration => run (readTemperatureCalibration tty)
  | op_readPosition => run (readPosition tty)
  | op_readSpeed => run (readSpeed tty)
  | op_isMoving => run (isMoving tty)
  | op_setTemperatureCalibration c => run (setTemperatureCalibration tty c)
  | op_setTemperatureCoefficient c => run (setTemperatureCoefficient tty c)
  | op_SyncFocuser t => run (SyncFocuser tty t)
  | op_MoveFocuser p => run (MoveFocuser tty p)
  | op_setCoilPowerState e => run (setCoilPowerState tty e)
  | op_ReverseFocuser e => run (ReverseFocuser tty e)
  | op_setGotoHome => run (setGotoHome tty)
  | op_setSpeed s => run (setSpeed tty s)
  | op_setTemperatureCompensation e => run (setTemperatureCompensation tty e)
  | op_ISNewSwitch dev name states => run (ISNewSwitch tty dev name states)
  | op_ISNewNumber dev name values => run (ISNewNumber tty dev name values)
  | op_GetFocusParams => run (GetFocusParams tty)
  | op_updateProperties => run (updateProperties tty)
  | op_SetFocuserSpeed s => run (SetFocuserSpeed tty s)
  | op_MoveFocuser_timed dir s t => run (MoveFocuser_timed tty dir s t)
  | op_timedMoveCallback => run (timedMoveCallback tty)
  | op_MoveAbsFocuser t => run (MoveAbsFocuser tty t)
  | op_MoveRelFocuser dir t => run (MoveRelFocuser tty dir t)
  | op_TimerHit => run (TimerHit tty)
  | op_AbortFocuser => run (AbortFocuser tty)
  end.

(** The two characters after the colon: what tells the commands of the
    protocol apart. *)
Definition opcode (cmd : string) : string := substring 1 2 cmd.

(** [l] is [l'] with some elements left out. *)
Inductive subseq {A : Type} : list A -> list A -> Prop :=
| subseq_nil : subseq [] []
| subseq_cons x l l' : subseq l l' -> subseq (x :: l) (x :: l')
| subseq_skip x l l' : subseq l l' -> subseq l (x :: l').

(** From every state, [m] only appends to the trace, and the opcodes of
    the commands it writes are some of [ops], in that order, each at
    most once. *)
Definition writes {A} (m : M A) (ops : list string) : Prop :=
  forall d, exists es,
    trace (exec m d) = trace d ++ es
    /\ subseq (map opcode (written es)) ops.

(** The opcodes an operation may write. *)
Definition opcodes_of (op : Operation) : list string :=
  match op with
  | op_readCoilPowerState => ["GE"]
  | op_readReverseDirection => ["GR"]
  | op_readVersion => ["GV"]
  | op_readTemperature => ["GT"]
  | op_readTemperatureCoefficient => ["GC"]
  | op_readTemperatureCalibration => ["GO"]
  | op_readPosition => ["GP"]
  | op_readSpeed => ["GD"]
  | op_isMoving => ["GI"]
  | op_setTemperatureCalibration _ => ["SO"]
  | op_setTemperatureCoefficient _ => ["SC"]
  | op_SyncFocuser _ => ["SP"]
  | op_MoveFocuser _ => ["SN"; "FG"]
  | op_setCoilPowerState _ => ["SE"]
  | op_ReverseFocuser _ => ["SR"]
  | op_setGotoHome => ["GI"; "FQ"; "HO"]
  | op_setSpeed _ => ["SD"]
  | op_setTemperatureCompensation _ => ["+#"; "-#"]
  | op_ISNewSwitch _ _ _ => ["+#"; "-#"; "GI"; "FQ"; "HO"; "SE"]
  | op_ISNewNumber _ _ _ => ["SO"; "SC"]
  | op_GetFocusParams => ["GP"; "GT"; "GD"; "GE"; "GO"; "GC"; "GR"]
  | op_updateProperties => ["GP"; "GT"; "GD"; "GE"; "GO"; "GC"; "GR"]
  | op_SetFocuserSpeed _ => ["SD"]
  | op_MoveFocuser_timed _ _ _ => ["SD"; "SN"; "FG"]
  | op_timedMoveCallback => ["FQ"]
  | op_MoveAbsFocuser _ => ["SN"; "FG"]
  | op_MoveRelFocuser _ _ => ["SN"; "FG"]
  | op_TimerHit => ["GP"; "GT"; "GI"]
  | op_AbortFocuser => ["FQ"]
  end.

(** *** Sample lines and a sample driver *)

Definition no_answer : Exchange := mkExchange WriteOk (ReadErr "Timeout error").
Definition answer (res : string) : Exchange := mkExchange WriteOk (ReadOk res).
Definition broken : Exchange :=
  mkExchange (WriteErr "Write Error") (ReadErr "Timeout error").

(** A line that follows [l] and then behaves like [x] for ever. *)
Definition script (l : list Exchange) (x : Exchange) : Transport :=
  fun n => nth n l x.

(** The driver after the constructor and [initProperties], connected,
    with the framework's maximum position at 1000000. *)
Definition fresh : Driver :=
  mkDriver true 0 0 0
    (fun n => match n with
              | FocusSpeedN => 200000
              | FocusMaxPosN => 1000000
              | _ => 0
              end)
    0 1000000 (0 # 1, 0 # 1)%Q
    (fun _ => IPS_IDLE)
    (fun k => match k with
              | TemperatureCompensateS i => if i =? 1 then ISS_ON else ISS_OFF
              | CoilPowerS i => if i =? COIL_POWER_ON then ISS_ON else ISS_OFF
              | _ => ISS_OFF
              end)
    0 [].

(* ================================================================== *)
(** ** Vocabulary for the properties of the remaining methods *)

(** The pauses among some events, in seconds. *)
Fixpoint sleeps (es : list Event) : list Z :=
  match es with
  | Sleep s :: es' => s :: sleeps es'
  | _ :: es' => sleeps es'
  | [] => []
  end.

(** How often the next poll is requested among some events. *)
Fixpoint polls (es : list Event) : nat :=
  match es with
  | SetTimer :: es' => S (polls es')
  | _ :: es' => polls es'
  | [] => O
  end.

(** Events that only concern the line and the log: no notification, no
    timer, no pause, no request for the next poll. *)
Definition line_only (es : list Event) : Prop :=
  notified es = [] /\ timers es = [] /\ sleeps es = [] /\ polls es = O.

(** [d'] has the properties and the private fields of [d]: only the
    position in the script and the trace may differ. *)
Definition same_properties (d d' : Driver) : Prop :=
  connected d' = connected d
  /\ targetPos d' = targetPos d
  /\ lastPos d' = lastPos d
  /\ lastTemperature d' = lastTemperature d
  /\ (forall n, value d' n = value d n)
  /\ FocusAbsPosN_min d' = FocusAbsPosN_min d
  /\ FocusAbsPosN_max d' = FocusAbsPosN_max d
  /\ TemperatureSettingN d' = TemperatureSettingN d
  /\ (forall v, status d' v = status d v)
  /\ (forall k, switch d' k = switch d k).

(** A command as the protocol frames it: a colon, a body and [#], short
    enough for the buffer of [ML_RES] bytes. *)
Definition framed (cmd : string) : Prop :=
  (String.length cmd < ML_RES)%nat
  /\ exists body, cmd = String ":" (body ++ "#")%string.

(** From every state, [m] only appends to the trace, and every command
    it writes satisfies [P]. *)
Definition sends {A} (m : M A) (P : string -> Prop) : Prop :=
  forall d, exists es,
    trace (exec m d) = trace d ++ es /\ Forall P (written es).

(** From every state, [m] writes exactly the commands [cmds], one
    exchange each, changes no status and sends no notification of the
    reverse-direction vector. *)
Definition queries {A} (m : M A) (cmds : list string) : Prop :=
  forall d, exists es,
    trace (exec m d) = trace d ++ es
    /\ written es = cmds
    /\ exchanges (exec m d) = (List.length cmds + exchanges d)%nat
    /\ (forall v, status (exec m d) v = status d v)
    /\ Forall (fun p => fst p <> FocusReverseSP) (notified es).

(** The speed a reply to [:GD#] carries, if [readSpeed] accepts it. *)
Definition speed_of (x : Exchange) : option Z :=
  match reply_of x with
  | Some res => let (rc, speed) := sscanf1 scan_i 0 res in
                if 0 <? rc then Some speed else None
  | None => None
  end.

(** The number a reply to [:GE#] carries, if ["%u#"] finds one. *)
Definition coil_reply_of (x : Exchange) : option Z :=
  match reply_of x with
  | Some res => let (rc, temp) := sscanf1 scan_u 0 res in
                if 0 <? rc then Some temp else None
  | None => None
  end.

(** The number a reply to [:GR#] carries, if ["%d#"] finds one. *)
Definition reverse_reply_of (x : Exchange) : option Z :=
  match reply_of x with
  | Some res => let (rc, temp) := sscanf1 scan_d 0 res in
                if 0 <? rc then Some temp else None
  | None => None
  end.

(** How many of the version queries of a handshake starting at exchange
    [start] fail, out of [n] attempts. *)
Fixpoint failed_attempts (tty : Transport) (start n : nat) : nat :=
  match n with
  | O => O
  | S n' => if version_ok (tty start) then O
            else S (failed_attempts tty (S start) n')
  end.

End AstroStep.

(* ================================================================== *)
(** * Facts *)

Import CInt CStr AstroStep.

(** ** Machine integers *)

Section CIntFacts.

Lemma to_int32_id z : INT32_MIN <= z <= INT32_MAX -> to_int32 z = z.
Proof.
  unfold to_int32, INT32_MIN, INT32_MAX, UINT32_MOD. intros H.
  destruct (Z_lt_le_dec z 0) as [Hn | Hp].
  - replace (z mod 2 ^ 32) with (z + 2 ^ 32).
    + destruct (Z.leb_spec (z + 2 ^ 32) (2 ^ 31 - 1)); lia.
    + apply Z.mod_unique with (q := -1); lia.
  - rewrite Z.mod_small by lia.
    destruct (Z.leb_spec z (2 ^ 31 - 1)); lia.
Qed.

Lemma to_int32_of_uint32 z : to_int32 (to_uint32 z) = to_int32 z.
Proof.
  unfold to_int32, to_uint32. rewrite Z.mod_mod; [reflexivity|].
  unfold UINT32_MOD. lia.
Qed.

Lemma to_uint32_id z : 0 <= z < UINT32_MOD -> to_uint32 z = z.
Proof. intros H. unfold to_uint32. now apply Z.mod_small. Qed.

Lemma double_to_int32_id z :
  INT32_MIN <= z <= INT32_MAX -> double_to_int32 z = z.
Proof.
  intros H. unfold double_to_int32, in_int32.
  destruct (Z.leb_spec INT32_MIN z); destruct (Z.leb_spec z INT32_MAX);
    simpl; lia.
Qed.

Lemma float_of_int_exact z : Z.abs z < 2 ^ 24 -> float_of_int z = z.
Proof.
  intros H. unfold float_of_int.
  destruct (Z.leb_spec (Z.log2 (Z.abs z) - 23) 0) as [|Hl]; [reflexivity|].
  exfalso.
  assert (Hpos : 0 < Z.abs z).
  { destruct (Z.eq_dec (Z.abs z) 0) as [E|]; [|lia].
    rewrite E in Hl. simpl in Hl. lia. }
  assert (Hlog : Z.log2 (Z.abs z) < 24) by (apply Z.log2_lt_pow2; lia).
  lia.
Qed.

Lemma to_uint32_of_int32 z : 0 <= z < UINT32_MOD -> to_uint32 (to_int32 z) = z.
Proof.
  intros H. unfold to_uint32, to_int32.
  rewrite (Z.mod_small z) by exact H.
  destruct (Z.leb_spec z INT32_MAX).
  - now apply Z.mod_small.
  - unfold UINT32_MOD, INT32_MAX in *.
    symmetry. apply Z.mod_unique with (q := -1); lia.
Qed.

Lemma to_uint32_to_int32 z : to_uint32 (to_int32 z) = to_uint32 z.
Proof.
  unfold to_uint32, to_int32.
  assert (Hm : UINT32_MOD <> 0) by (unfold UINT32_MOD; lia).
  destruct (Z.leb_spec (z mod UINT32_MOD) INT32_MAX).
  - now apply Z.mod_mod.
  - replace (z mod UINT32_MOD - UINT32_MOD)
      with (z mod UINT32_MOD + (-1) * UINT32_MOD) by lia.
    rewrite Z.mod_add by exact Hm. now apply Z.mod_mod.
Qed.

Lemma to_int32_range z : INT32_MIN <= to_int32 z <= INT32_MAX.
Proof.
  unfold to_int32, INT32_MIN, INT32_MAX, UINT32_MOD.
  pose proof (Z.mod_pos_bound z (2 ^ 32) ltac:(lia)).
  destruct (Z.leb_spec (z mod 2 ^ 32) (2 ^ 31 - 1)); lia.
Qed.

End CIntFacts.

(** ** Strings *)

Section CStrFacts.

Local Open Scope string_scope.

Lemma append_nil_r (s : string) : (s ++ "")%string = s.
Proof. induction s as [|c s IH]; simpl; [reflexivity | now rewrite IH]. Qed.

Lemma append_assoc (a b c : string) :
  ((a ++ b) ++ c)%string = (a ++ (b ++ c))%string.
Proof. induction a as [|x a IH]; simpl; [reflexivity | now rewrite IH]. Qed.

Lemma length_append (a b : string) :
  String.length (a ++ b) = (String.length a + String.length b)%nat.
Proof. induction a as [|x a IH]; simpl; [reflexivity | now rewrite IH]. Qed.

Lemma substring_all (n : nat) (s : string) :
  (String.length s <= n)%nat -> substring 0 n s = s.
Proof.
  revert n. induction s as [|c s IH]; intros [|n] H; simpl in *;
    try reflexivity; try lia.
  rewrite IH by lia. reflexivity.
Qed.

Lemma snprintf_fits (size : nat) (s : string) :
  (String.length s < size)%nat -> snprintf size s = s.
Proof. intros H. unfold snprintf. apply substring_all. lia. Qed.

(** *** [strstr] finds exactly the occurrences *)

Lemma starts_with_spec needle hay :
  starts_with needle hay = true <-> exists post, hay = (needle ++ post)%string.
Proof.
  revert hay. induction needle as [|a n IH]; intros hay; simpl.
  - split; [intros _; now exists hay | reflexivity].
  - destruct hay as [|b h].
    + split; [discriminate | intros [post H]; discriminate].
    + rewrite andb_true_iff, Ascii.eqb_eq, IH. split.
      * intros [-> [post ->]]. now exists post.
      * intros [post H]. injection H as -> ->. split; [reflexivity|].
        now exists post.
Qed.

Lemma strstr_spec hay needle :
  succeeded (strstr hay needle) = true <-> occurs_in needle hay.
Proof.
  unfold occurs_in. induction hay as [|c h IH]; simpl.
  - destruct (starts_with needle "") eqn:E; simpl.
    + split; [intros _ | reflexivity].
      apply starts_with_spec in E. destruct E as [post E].
      now exists "", post.
    + split; [discriminate|]. intros (pre & post & H).
      destruct pre; simpl in H.
      * assert (starts_with needle "" = true)
          by (apply starts_with_spec; now exists post).
        congruence.
      * discriminate.
  - destruct (starts_with needle (String c h)) eqn:E; simpl.
    + split; [intros _ | reflexivity].
      apply starts_with_spec in E. destruct E as [post E].
      now exists "", post.
    + rewrite IH. split.
      * intros (pre & post & ->). now exists (String c pre), post.
      * intros (pre & post & H). destruct pre as [|x pre]; simpl in H.
        -- assert (starts_with needle (String c h) = true)
             by (apply starts_with_spec; now exists post).
           congruence.
        -- injection H as _ ->. now exists pre, post.
Qed.

(** *** Digits *)

Lemma code_digit_char d : 0 <= d < 10 -> code (digit_char d) = 48 + d.
Proof.
  intros H. unfold code, digit_char.
  rewrite nat_ascii_embedding by lia. lia.
Qed.

Lemma is_decimal_digit_char d : 0 <= d < 10 -> is_decimal (digit_char d) = true.
Proof.
  intros H. unfold is_decimal. rewrite code_digit_char by exact H.
  apply andb_true_iff. split; apply Z.leb_le; lia.
Qed.

Lemma all_digits_append a b :
  all_digits (a ++ b) = all_digits a && all_digits b.
Proof.
  induction a as [|c a IH]; simpl; [reflexivity|].
  now rewrite IH, andb_assoc.
Qed.

Lemma digits_value_from_append acc a b :
  digits_value_from acc (a ++ b) =
  digits_value_from (digits_value_from acc a) b.
Proof. revert acc. induction a as [|c a IH]; intros acc; simpl; auto. Qed.

Lemma all_digits_zeros n : all_digits (zeros n) = true.
Proof. induction n; simpl; auto. Qed.

Lemma length_zeros n : String.length (zeros n) = n.
Proof. induction n; simpl; auto. Qed.

Lemma digits_value_from_zeros n : digits_value_from 0 (zeros n) = 0.
Proof. induction n; simpl; auto. Qed.

(** [decimal_aux] writes the digits of [n] in front of [acc], as few as
    [n] needs. *)
Lemma decimal_aux_spec (fuel : nat) :
  forall n acc, (1 <= fuel)%nat -> 0 <= n < 10 ^ Z.of_nat fuel ->
  exists s, decimal_aux fuel n acc = (s ++ acc)%string
            /\ all_digits s = true
            /\ digits_value s = n
            /\ (1 <= String.length s)%nat
            /\ forall k, (1 <= k)%nat -> n < 10 ^ Z.of_nat k ->
                         (String.length s <= k)%nat.
Proof.
  induction fuel as [|fuel IH]; intros n acc Hf Hn; [lia|].
  simpl decimal_aux.
  assert (Hd : 0 <= n mod 10 < 10) by (apply Z.mod_pos_bound; lia).
  assert (Hq : n = 10 * (n / 10) + n mod 10) by (apply Z.div_mod; lia).
  destruct (Z.eqb_spec (n / 10) 0) as [E | E].
  - exists (String (digit_char (n mod 10)) ""). simpl.
    rewrite is_decimal_digit_char by exact Hd.
    unfold digits_value. simpl. rewrite code_digit_char by exact Hd.
    repeat split; lia.
  - assert (Hq0 : 0 < n / 10).
    { assert (0 <= n / 10) by (apply Z.div_pos; lia). lia. }
    assert (Hfuel : (1 <= fuel)%nat).
    { destruct fuel; [|lia]. simpl in Hn. lia. }
    assert (Hn' : 0 <= n / 10 < 10 ^ Z.of_nat fuel).
    { split; [lia|]. apply Z.div_lt_upper_bound; [lia|].
      rewrite <- Z.pow_succ_r by lia. rewrite <- Nat2Z.inj_succ. lia. }
    destruct (IH (n / 10) (String (digit_char (n mod 10)) acc) Hfuel Hn')
      as (s & Es & Hs & Hv & Hl & Hk).
    exists (s ++ String (digit_char (n mod 10)) "")%string.
    rewrite Es, append_assoc. simpl.
    rewrite all_digits_append, Hs. simpl.
    rewrite is_decimal_digit_char by exact Hd.
    unfold digits_value in *. rewrite digits_value_from_append, Hv. simpl.
    rewrite code_digit_char by exact Hd.
    rewrite length_append. simpl String.length.
    split; [reflexivity|]. split; [reflexivity|]. split; [lia|].
    split; [lia|].
    intros k Hk1 Hnk. destruct k as [|k]; [lia|].
    destruct k as [|k]; [simpl in Hnk; lia|].
    assert (String.length s <= S k)%nat; [|lia].
    apply Hk; [lia|]. apply Z.div_lt_upper_bound; [lia|].
    rewrite <- Z.pow_succ_r by lia. rewrite <- Nat2Z.inj_succ. lia.
Qed.

Lemma decimal_spec n :
  0 <= n ->
  all_digits (decimal n) = true
  /\ digits_value (decimal n) = n
  /\ (1 <= String.length (decimal n))%nat
  /\ forall k, (1 <= k)%nat -> n < 10 ^ Z.of_nat k ->
               (String.length (decimal n) <= k)%nat.
Proof.
  intros Hn. unfold decimal.
  assert (Hfuel : 0 <= n < 10 ^ Z.of_nat (S (Z.to_nat (Z.log2 n)))).
  { split; [exact Hn|].
    rewrite Nat2Z.inj_succ, Z2Nat.id by apply Z.log2_nonneg.
    destruct (Z.eq_dec n 0) as [-> | Hnz]; [reflexivity|].
    apply Z.lt_le_trans with (2 ^ Z.succ (Z.log2 n)).
    - apply Z.log2_spec. lia.
    - apply Z.pow_le_mono_l. pose proof (Z.log2_nonneg n). lia. }
  destruct (decimal_aux_spec (S (Z.to_nat (Z.log2 n))) n ""
              (le_n_S _ _ (Nat.le_0_l _)) Hfuel)
    as (s & Es & Hs & Hv & Hl & Hk).
  rewrite Es, append_nil_r. auto.
Qed.

Lemma pad0_spec w s :
  all_digits s = true ->
  all_digits (pad0 w s) = true
  /\ digits_value (pad0 w s) = digits_value s
  /\ String.length (pad0 w s) = Nat.max w (String.length s).
Proof.
  intros Hs. unfold pad0.
  rewrite all_digits_append, all_digits_zeros, Hs.
  unfold digits_value.
  rewrite digits_value_from_append, digits_value_from_zeros.
  rewrite length_append, length_zeros.
  repeat split. lia.
Qed.

End CStrFacts.

Section ScanFacts.

Local Open Scope string_scope.

Lemma digit_in_decimal c :
  is_decimal c = true -> digit_in 10 c = Some (code c - 48).
Proof.
  unfold is_decimal, digit_in, digit_val. intros H. rewrite H.
  apply andb_true_iff in H. destruct H as [H1 H2].
  apply Z.leb_le in H1. apply Z.leb_le in H2.
  destruct (Z.ltb_spec (code c - 48) 10); [reflexivity | lia].
Qed.

Lemma isspace_decimal c : is_decimal c = true -> isspace c = false.
Proof.
  unfold is_decimal, isspace. intros H.
  apply andb_true_iff in H. destruct H as [H1 H2].
  apply Z.leb_le in H1. apply Z.leb_le in H2.
  destruct (Z.eqb_spec (code c) 32); [lia|].
  destruct (Z.leb_spec 9 (code c)); destruct (Z.leb_spec (code c) 13);
    simpl; try reflexivity; lia.
Qed.

Lemma scan_sign_decimal c t :
  is_decimal c = true -> scan_sign (String c t) = (false, String c t).
Proof.
  destruct c as [[] [] [] [] [] [] [] []]; try reflexivity;
    intros H; vm_compute in H; discriminate.
Qed.

Lemma scan_digits_digits s :
  forall acc rest,
    all_digits s = true -> starts_digit 10 rest = false ->
    scan_digits 10 acc (s ++ rest) = (digits_value_from acc s, rest).
Proof.
  induction s as [|c s IH]; intros acc rest Hs Hr; simpl.
  - destruct rest as [|r rest]; [reflexivity|]. simpl in *.
    destruct (digit_in 10 r); [discriminate | reflexivity].
  - simpl in Hs. apply andb_true_iff in Hs. destruct Hs as [Hc Hs].
    rewrite (digit_in_decimal c Hc). now apply IH.
Qed.

Lemma scan_magnitude_digits s rest :
  all_digits s = true -> s <> "" -> starts_digit 10 rest = false ->
  scan_magnitude 10 (s ++ rest) = Some (digits_value s, rest).
Proof.
  intros Hs Hne Hr. unfold scan_magnitude.
  rewrite scan_digits_digits by assumption.
  destruct s as [|c s]; [congruence|]. simpl in *.
  apply andb_true_iff in Hs. destruct Hs as [Hc _].
  now rewrite (digit_in_decimal c Hc).
Qed.

(** Within [long], [strtol] gives the number itself. *)
Lemma strtol_id z : LONG_MIN <= z <= LONG_MAX -> strtol z = z.
Proof. unfold strtol, LONG_MIN, LONG_MAX. lia. Qed.

Lemma to_int32_strtol z :
  INT32_MIN <= z <= INT32_MAX -> to_int32 (strtol z) = z.
Proof.
  intros H. unfold INT32_MIN, INT32_MAX in H.
  rewrite strtol_id by (unfold LONG_MIN, LONG_MAX; lia).
  apply to_int32_id. unfold INT32_MIN, INT32_MAX. lia.
Qed.

(** ["%d"] on an unsigned digit string reads all of it. *)
Lemma scan_d_digits s rest :
  all_digits s = true -> s <> "" -> starts_digit 10 rest = false ->
  scan_d (s ++ rest) = ConvOk (to_int32 (strtol (digits_value s))) rest.
Proof.
  intros Hs Hne Hr. unfold scan_d, scan_conv.
  pose proof (scan_magnitude_digits s rest Hs Hne Hr) as Hm.
  destruct s as [|c s]; [congruence|].
  simpl in Hs. apply andb_true_iff in Hs. destruct Hs as [Hc Hs].
  change (String c s ++ rest) with (String c (s ++ rest)) in *.
  simpl skip_space. rewrite (isspace_decimal c Hc).
  rewrite (scan_sign_decimal c _ Hc). now rewrite Hm.
Qed.

(** ["%d"] on a minus sign and a digit string. *)
Lemma scan_d_minus_digits s rest :
  all_digits s = true -> s <> "" -> starts_digit 10 rest = false ->
  scan_d (String "-" (s ++ rest))
  = ConvOk (to_int32 (strtol (- digits_value s))) rest.
Proof.
  intros Hs Hne Hr. unfold scan_d, scan_conv. simpl.
  now rewrite (scan_magnitude_digits s rest Hs Hne Hr).
Qed.

Lemma pow10_9_lt : 10 ^ 9 < 2 ^ 31.
Proof. reflexivity. Qed.

(** ["%09i"] on a position below 10^9: nine digits that denote it. *)
Lemma fmt_09i_nine_digits p :
  0 <= p < 10 ^ 9 ->
  String.length (fmt_09i p) = 9%nat
  /\ all_digits (fmt_09i p) = true
  /\ digits_value (fmt_09i p) = p.
Proof.
  intros Hp. unfold fmt_09i. pose proof pow10_9_lt.
  rewrite to_int32_id by (unfold INT32_MIN, INT32_MAX; lia).
  destruct (Z.ltb_spec p 0); [lia|].
  destruct (decimal_spec p ltac:(lia)) as (Hd & Hv & Hl & Hk).
  destruct (pad0_spec 9 (decimal p) Hd) as (Hpd & Hpv & Hpl).
  specialize (Hk 9%nat ltac:(lia)).
  assert (String.length (decimal p) <= 9)%nat by (apply Hk; simpl; lia).
  repeat split; [lia | assumption | congruence].
Qed.

(** ["%09i"] on a number an [int] can hold without a sign: digits only,
    and they denote it. *)
Lemma fmt_09i_digits t :
  0 <= t <= INT32_MAX ->
  all_digits (fmt_09i t) = true /\ digits_value (fmt_09i t) = t.
Proof.
  intros Ht. unfold fmt_09i.
  rewrite to_int32_id by (unfold INT32_MIN, INT32_MAX in *; lia).
  destruct (Z.ltb_spec t 0); [lia|].
  destruct (decimal_spec t ltac:(lia)) as (Hd & Hv & _).
  destruct (pad0_spec 9 (decimal t) Hd) as (Hpd & Hpv & _).
  split; [assumption | congruence].
Qed.

(** ["%09i"] never needs more than eleven characters, and ["%d"] reads
    back the [int] it was given. *)
Lemma fmt_09i_roundtrip t rest :
  starts_digit 10 rest = false ->
  (String.length (fmt_09i t) <= 11)%nat
  /\ scan_d (fmt_09i t ++ rest) = ConvOk (to_int32 t) rest.
Proof.
  intros Hr. unfold fmt_09i.
  pose proof (to_int32_range t) as Hi. unfold INT32_MIN, INT32_MAX in Hi.
  set (i := to_int32 t) in *.
  assert (H10 : 2 ^ 31 < 10 ^ Z.of_nat 10) by reflexivity.
  destruct (Z.ltb_spec i 0) as [Hneg | Hpos].
  - destruct (decimal_spec (- i) ltac:(lia)) as (Hd & Hv & Hl & Hk).
    destruct (pad0_spec 8 (decimal (- i)) Hd) as (Hpd & Hpv & Hpl).
    assert (String.length (decimal (- i)) <= 10)%nat by (apply Hk; lia).
    split; [simpl; lia|].
    change (String "-" (pad0 8 (decimal (- i))) ++ rest)
      with (String "-" (pad0 8 (decimal (- i)) ++ rest)).
    rewrite scan_d_minus_digits; try assumption.
    + rewrite Hpv, Hv. f_equal. rewrite Z.opp_involutive.
      apply to_int32_strtol. unfold INT32_MIN, INT32_MAX. lia.
    + intros E. apply (f_equal String.length) in E. rewrite Hpl in E.
      change (String.length "") with 0%nat in E. lia.
  - destruct (decimal_spec i ltac:(lia)) as (Hd & Hv & Hl & Hk).
    destruct (pad0_spec 9 (decimal i) Hd) as (Hpd & Hpv & Hpl).
    assert (String.length (decimal i) <= 10)%nat by (apply Hk; lia).
    split; [lia|].
    rewrite scan_d_digits; try assumption.
    + rewrite Hpv, Hv. f_equal.
      apply to_int32_strtol. unfold INT32_MIN, INT32_MAX. lia.
    + intros E. apply (f_equal String.length) in E. rewrite Hpl in E.
      change (String.length "") with 0%nat in E. lia.
Qed.

End ScanFacts.

(* ================================================================== *)
(** ** Running the methods *)

Section RunFacts.

Variable tty : Transport.

Lemma skipn_exact {A} (l r : list A) : skipn (List.length l) (l ++ r) = r.
Proof. induction l as [|a l IH]; [reflexivity | exact IH]. Qed.

Lemma emitted_of {A} (m : M A) (d : Driver) (es : list Event) :
  trace (exec m d) = trace d ++ es -> emitted m d = es.
Proof. intros H. unfold emitted. rewrite H. apply skipn_exact. Qed.

Lemma written_app es fs : written (es ++ fs) = written es ++ written fs.
Proof.
  induction es as [|e es IH]; [reflexivity|].
  destruct e; simpl; rewrite ?IH; reflexivity.
Qed.

Lemma notified_app es fs : notified (es ++ fs) = notified es ++ notified fs.
Proof.
  induction es as [|e es IH]; [reflexivity|].
  destruct e; simpl; rewrite ?IH; reflexivity.
Qed.

Lemma errors_app es fs : errors (es ++ fs) = errors es ++ errors fs.
Proof.
  induction es as [|e es IH]; [reflexivity|].
  destruct e as [| [] | | | |]; simpl; rewrite ?IH; reflexivity.
Qed.

Lemma timers_app es fs : timers (es ++ fs) = timers es ++ timers fs.
Proof.
  induction es as [|e es IH]; [reflexivity|].
  destruct e; simpl; rewrite ?IH; reflexivity.
Qed.

Lemma sendCommand_run cmd res silent nret d :
  sendCommand tty cmd res silent nret d =
  (sendCommand_result (tty (exchanges d)) res,
   advance 1 (sendCommand_events (tty (exchanges d)) cmd res silent) d).
Proof.
  unfold sendCommand, sendCommand_result, sendCommand_events, advance,
    write_ok, reply_of, bind, gets, modify, LOG, emit, when, ret, add_event,
    count_exchange.
  simpl.
  destruct (on_write (tty (exchanges d))); simpl.
  - destruct res; simpl; [|rewrite <- !app_assoc; reflexivity].
    destruct (on_read (tty (exchanges d))); simpl.
    + rewrite <- !app_assoc. reflexivity.
    + destruct silent; simpl; rewrite <- !app_assoc; reflexivity.
  - destruct silent, res; simpl; rewrite <- !app_assoc; reflexivity.
Qed.

Lemma sendCommand__run cmd d :
  sendCommand_ tty cmd d =
  (write_ok (tty (exchanges d)),
   advance 1 (sendCommand_events (tty (exchanges d)) cmd false false) d).
Proof.
  unfold sendCommand_, bind. rewrite sendCommand_run.
  unfold sendCommand_result, ret. simpl.
  destruct (write_ok (tty (exchanges d))); reflexivity.
Qed.

Lemma written_sendCommand_events x cmd res silent :
  written (sendCommand_events x cmd res silent) = [cmd].
Proof.
  unfold sendCommand_events.
  destruct (on_write x), res, (on_read x), silent; reflexivity.
Qed.

Lemma notified_sendCommand_events x cmd res silent :
  notified (sendCommand_events x cmd res silent) = [].
Proof.
  unfold sendCommand_events.
  destruct (on_write x), res, (on_read x), silent; reflexivity.
Qed.

Lemma timers_sendCommand_events x cmd res silent :
  timers (sendCommand_events x cmd res silent) = [].
Proof.
  unfold sendCommand_events.
  destruct (on_write x), res, (on_read x), silent; reflexivity.
Qed.

Lemma advance_advance n m es fs d :
  advance n es (advance m fs d) = advance (n + m) (fs ++ es) d.
Proof.
  unfold advance. simpl. rewrite <- app_assoc, Nat.add_assoc. reflexivity.
Qed.

Lemma MoveFocuser_run position d :
  let x0 := tty (exchanges d) in
  let x1 := tty (S (exchanges d)) in
  let set_position :=
    sendCommand_events x0
      (snprintf ML_RES (cat [":SN"; fmt_09i position; "#"])) false false in
  MoveFocuser tty position d =
  if write_ok x0
  then (write_ok x1,
        advance 2 (set_position ++ sendCommand_events x1 ":FG#" false false) d)
  else (false, advance 1 set_position d).
Proof.
  intros x0 x1 set_position. unfold MoveFocuser, bind.
  rewrite sendCommand__run. fold x0. fold set_position.
  destruct (write_ok x0); simpl; [|reflexivity].
  rewrite sendCommand__run, advance_advance.
  change (tty (exchanges (advance 1 set_position d))) with x1.
  destruct (write_ok x1); reflexivity.
Qed.

End RunFacts.

Create Rewrite HintDb events.

#[local] Hint Rewrite written_app notified_app errors_app timers_app
  written_sendCommand_events notified_sendCommand_events
  timers_sendCommand_events : events.

(* ================================================================== *)
(** ** The timed-move timer *)

(** C1.  When the one-shot timer fires, [timedMoveCallback] writes the
    Abort command [:FQ#] exactly once, whatever the state of the driver
    and whatever the line does, and only then notifies the absolute
    position, relative position and timer vectors, each with status
    Idle; afterwards the three statuses are Idle and the timer value is
    zero. *)
Theorem timedMoveCallback_aborts_then_idles (tty : Transport) (d : Driver) :
  let d' := exec (timedMoveCallback tty) d in
  (exists pre,
      emitted (timedMoveCallback tty) d =
        pre ++ [IDSet FocusAbsPosNP IPS_IDLE; IDSet FocusRelPosNP IPS_IDLE;
                IDSet FocusTimerNP IPS_IDLE]
      /\ written pre = [":FQ#"] /\ notified pre = [])
  /\ written (emitted (timedMoveCallback tty) d) = [":FQ#"]
  /\ status d' FocusAbsPosNP = IPS_IDLE
  /\ status d' FocusRelPosNP = IPS_IDLE
  /\ status d' FocusTimerNP = IPS_IDLE
  /\ value d' FocusTimerN = 0.
Proof.
  assert (E : timedMoveCallback tty d =
              (tt, add_event (IDSet FocusTimerNP IPS_IDLE)
                     (add_event (IDSet FocusRelPosNP IPS_IDLE)
                        (add_event (IDSet FocusAbsPosNP IPS_IDLE)
                           (set_value FocusTimerN 0
                              (set_status FocusTimerNP IPS_IDLE
                                 (set_status FocusRelPosNP IPS_IDLE
                                    (set_status FocusAbsPosNP IPS_IDLE
                                       (advance 1
                                          (sendCommand_events
                                             (tty (exchanges d)) ":FQ#"
                                             false false) d))))))))).
  { unfold timedMoveCallback, AbortFocuser, bind.
    rewrite sendCommand__run. reflexivity. }
  cbv zeta. unfold emitted, exec. rewrite E. simpl.
  rewrite <- !app_assoc, skipn_exact.
  repeat split.
  - eexists. split; [reflexivity|]. now autorewrite with events.
  - now autorewrite with events.
Qed.

(** C10.  A timed move answers Alert, and arms no timer, exactly when
    the requested speed differs from the last known one and the
    set-speed command cannot be written.  In every other case it arms
    the one-shot timer with the requested duration and answers Busy,
    whatever becomes of the two commands of the full-travel move. *)
Theorem MoveFocuser_timed_ignores_move_result
    (tty : Transport) (d : Driver) (dir : FocusDirection)
    (speed duration : Z) :
  let differs := negb (speed =? double_to_int32 (value d FocusSpeedN)) in
  let speed_fails := differs && negb (write_ok (tty (exchanges d))) in
  eval (MoveFocuser_timed tty dir speed duration) d
    = (if speed_fails then IPS_ALERT else IPS_BUSY)
  /\ timers (emitted (MoveFocuser_timed tty dir speed duration) d)
    = (if speed_fails then [] else [duration]).
Proof.
  cbv zeta. unfold eval, emitted, exec, MoveFocuser_timed, setSpeed, bind, gets.
  destruct (negb (speed =? double_to_int32 (value d FocusSpeedN))).
  - rewrite sendCommand__run.
    destruct (write_ok (tty (exchanges d))) eqn:W; cbn.
    + destruct dir; rewrite MoveFocuser_run; cbv zeta;
        match goal with |- context [if write_ok ?x then _ else _] =>
          destruct (write_ok x) end;
        cbn; rewrite <- ?app_assoc, skipn_exact;
        autorewrite with events; auto.
    + rewrite skipn_exact. now autorewrite with events.
  - cbn.
    destruct dir; rewrite MoveFocuser_run; cbv zeta;
      match goal with |- context [if write_ok ?x then _ else _] =>
        destruct (write_ok x) end;
      cbn; rewrite <- ?app_assoc, skipn_exact;
      autorewrite with events; auto.
Qed.

(* ================================================================== *)
(** ** Absolute moves *)

(** C7, as the code has it.  For every target [t] up to 2^31 - 1,
    [MoveAbsFocuser] writes the set-position command [:SN], digits that
    denote [t] itself, and [#], whatever the limits of the position
    property are.  The start-motion command [:FG#] follows when the
    first write went through.  The answer is Busy when both writes went
    through and Alert when either failed. *)
Theorem MoveAbsFocuser_sends_target_unclamped
    (tty : Transport) (d : Driver) (t : Z) :
  0 <= t <= INT32_MAX ->
  let x0 := tty (exchanges d) in
  let x1 := tty (S (exchanges d)) in
  exists digits,
    all_digits digits = true
    /\ digits_value digits = t
    /\ written (emitted (MoveAbsFocuser tty t) d)
       = (":SN" ++ digits ++ "#")%string
         :: (if write_ok x0 then [":FG#"] else [])
    /\ eval (MoveAbsFocuser tty t) d
       = (if write_ok x0 && write_ok x1 then IPS_BUSY else IPS_ALERT).
Proof.
  intros Ht. cbv zeta.
  destruct (fmt_09i_digits t Ht) as [Hd Hv].
  exists (fmt_09i t). split; [exact Hd|]. split; [exact Hv|].
  assert (Hcmd : snprintf ML_RES (cat [":SN"; fmt_09i t; "#"])
                 = (":SN" ++ fmt_09i t ++ "#")%string).
  { apply snprintf_fits.
    destruct (fmt_09i_roundtrip t "#" eq_refl) as [Hlen _].
    change (cat [":SN"; fmt_09i t; "#"])
      with (String ":" (String "S" (String "N" (fmt_09i t ++ "#"))))%string.
    simpl String.length. rewrite length_append. simpl. unfold ML_RES. lia. }
  unfold emitted, eval, exec, MoveAbsFocuser, bind, gets, modify.
  change (targetPos (set_targetPos t d)) with t.
  rewrite MoveFocuser_run. cbv zeta. rewrite Hcmd.
  change (exchanges (set_targetPos t d)) with (exchanges d).
  destruct (write_ok (tty (exchanges d)));
    [destruct (write_ok (tty (S (exchanges d))))|];
    cbn -[append]; rewrite <- ?app_assoc, skipn_exact;
    autorewrite with events; split; reflexivity.
Qed.

(** A target of 2000000, beyond the property's maximum of 1000000, goes
    out as it is. *)
Lemma MoveAbsFocuser_sends_target_witness :
  FocusAbsPosN_max fresh = 1000000
  /\ written (emitted (MoveAbsFocuser (script [] no_answer) 2000000) fresh)
     = [":SN002000000#"; ":FG#"]
  /\ eval (MoveAbsFocuser (script [] no_answer) 2000000) fresh = IPS_BUSY.
Proof.
  destruct (MoveAbsFocuser_sends_target_unclamped
              (script [] no_answer) fresh 2000000
              ltac:(unfold INT32_MAX; lia))
    as (digits & _ & _ & _ & Hans).
  split; [reflexivity|]. split; [reflexivity | exact Hans].
Defined.

(** The claim as worded fails for targets from 2^31 on, which ["%09i"]
    prints as the negative [int] with the same bits: the command for
    target 4294967295 is [:SN-00000001#], and no digits that denote the
    target stand in it. *)
Lemma MoveAbsFocuser_large_target_goes_negative :
  ~ (forall (tty : Transport) (d : Driver) (t : Z),
        0 <= t < 2 ^ 32 ->
        exists digits,
          all_digits digits = true
          /\ digits_value digits = t
          /\ hd_error (written (emitted (MoveAbsFocuser tty t) d))
             = Some (":SN" ++ digits ++ "#")%string).
Proof.
  intros H.
  destruct (H (script [] no_answer) fresh 4294967295 ltac:(lia))
    as (digits & Hd & _ & Hw).
  vm_compute in Hw.
  destruct digits as [|c digits]; [discriminate Hw|].
  injection Hw as Hc _. subst c. discriminate Hd.
Qed.

(* ================================================================== *)
(** ** Homing *)

Section Homing.

Variable tty : Transport.

Lemma isMoving_run d :
  let x := tty (exchanges d) in
  isMoving tty d =
  (moving_flag x,
   advance 1 (sendCommand_events x ":GI#" true false ++ isMoving_events x) d).
Proof.
  cbv zeta. unfold isMoving, bind, moving_flag, isMoving_events.
  rewrite sendCommand_run. unfold sendCommand_result. cbn [negb].
  destruct (reply_of (tty (exchanges d))) as [res|].
  - destruct (succeeded (strstr res "1#")); cbn.
    + now rewrite app_nil_r.
    + destruct (succeeded (strstr res "0#")); cbn.
      * now rewrite app_nil_r.
      * unfold LOG, emit, modify, ret, bind, advance, add_event. cbn.
        now rewrite <- app_assoc.
  - cbn. now rewrite app_nil_r.
Qed.

Lemma written_isMoving_events x : written (isMoving_events x) = [].
Proof.
  unfold isMoving_events. destruct (reply_of x) as [res|]; [|reflexivity].
  destruct (succeeded (strstr res "1#")); [reflexivity|].
  destruct (succeeded (strstr res "0#")); reflexivity.
Qed.

Lemma notified_isMoving_events x : notified (isMoving_events x) = [].
Proof.
  unfold isMoving_events. destruct (reply_of x) as [res|]; [|reflexivity].
  destruct (succeeded (strstr res "1#")); [reflexivity|].
  destruct (succeeded (strstr res "0#")); reflexivity.
Qed.

Lemma setGotoHome_run d :
  let n := exchanges d in
  let asked := sendCommand_events (tty n) ":GI#" true false
               ++ isMoving_events (tty n) in
  setGotoHome tty d =
  if moving_flag (tty n)
  then (write_ok (tty (S (S n))),
        advance 3
          (asked ++ sendCommand_events (tty (S n)) ":FQ#" false false
                 ++ sendCommand_events (tty (S (S n))) ":HO#" false false) d)
  else (write_ok (tty (S n)),
        advance 2
          (asked ++ sendCommand_events (tty (S n)) ":HO#" false false) d).
Proof.
  cbv zeta. unfold setGotoHome, bind. rewrite isMoving_run. cbv zeta.
  destruct (moving_flag (tty (exchanges d))); cbn [when].
  - unfold AbortFocuser, bind. rewrite sendCommand__run.
    cbn [ret]. rewrite sendCommand__run, !advance_advance.
    rewrite <- !app_assoc. reflexivity.
  - cbn [ret]. rewrite sendCommand__run, !advance_advance.
    reflexivity.
Qed.

Lemma ISNewSwitch_home_run states d :
  ISNewSwitch tty true "FOCUS_HOME" states d =
  let (rc, d1) := setGotoHome tty d in
  if rc
  then (Some true,
        add_event (IDSet GotoHomeSP IPS_OK) (set_status GotoHomeSP IPS_OK d1))
  else (Some false,
        add_event (IDSet GotoHomeSP (status d1 GotoHomeSP))
          (set_status CoilPowerSP IPS_ALERT
             (set_switch (GotoHomeS 0) ISS_OFF d1))).
Proof.
  unfold ISNewSwitch. cbn [negb String.eqb Ascii.eqb Bool.eqb].
  unfold bind at 1. destruct (setGotoHome tty d) as [[|] d1]; reflexivity.
Qed.

End Homing.

#[local] Hint Rewrite written_isMoving_events notified_isMoving_events
  : events.

(** C9.  A GotoHome request asks the device whether it is moving, writes
    Abort when it says so, and then writes the home command.  When the
    home command cannot be written the request fails and the home switch
    is reset, but the Alert goes to the coil power vector: the status of
    the home vector stays what it was, and that is what the clients are
    sent. *)
Theorem ISNewSwitch_home_failure_alerts_coil_power
    (tty : Transport) (d : Driver) (states : ISState * ISState) :
  written (emitted (setGotoHome tty) d)
    = [":GI#"] ++ (if moving_flag (tty (exchanges d)) then [":FQ#"] else [])
               ++ [":HO#"]
  /\ (eval (setGotoHome tty) d = false ->
      let d' := exec (ISNewSwitch tty true "FOCUS_HOME" states) d in
      eval (ISNewSwitch tty true "FOCUS_HOME" states) d = Some false
      /\ switch d' (GotoHomeS 0) = ISS_OFF
      /\ status d' GotoHomeSP = status d GotoHomeSP
      /\ status d' CoilPowerSP = IPS_ALERT
      /\ notified (emitted (ISNewSwitch tty true "FOCUS_HOME" states) d)
         = [(GotoHomeSP, status d GotoHomeSP)]).
Proof.
  split.
  - unfold emitted, exec. rewrite setGotoHome_run. cbv zeta.
    destruct (moving_flag (tty (exchanges d))); cbn;
      rewrite <- ?app_assoc, skipn_exact; now autorewrite with events.
  - unfold eval, emitted, exec. rewrite ISNewSwitch_home_run.
    rewrite setGotoHome_run. cbv zeta.
    destruct (moving_flag (tty (exchanges d))); cbn [fst]; intros ->; cbn;
      rewrite <- ?app_assoc, skipn_exact; autorewrite with events;
      repeat split.
Qed.

(** On a line that takes no writes, from the state after start-up: the
    home vector stays Idle and the coil power vector turns to Alert. *)
Lemma ISNewSwitch_home_failure_witness :
  eval (setGotoHome (script [] broken)) fresh = false
  /\ status (exec (ISNewSwitch (script [] broken) true "FOCUS_HOME"
                     (ISS_ON, ISS_OFF)) fresh) GotoHomeSP = IPS_IDLE
  /\ status (exec (ISNewSwitch (script [] broken) true "FOCUS_HOME"
                     (ISS_ON, ISS_OFF)) fresh) CoilPowerSP = IPS_ALERT.
Proof.
  pose proof (ISNewSwitch_home_failure_alerts_coil_power
                (script [] broken) fresh (ISS_ON, ISS_OFF)) as [_ H].
  specialize (H eq_refl). cbv zeta in H.
  destruct H as (_ & _ & Hhome & Hcoil & _).
  split; [reflexivity|]. split; [exact Hhome | exact Hcoil].
Defined.

(* ================================================================== *)
(** ** The handshake *)

Section Handshake.

Variable tty : Transport.

Lemma advance_0 d : advance 0 [] d = d.
Proof. destruct d. unfold advance. cbn. now rewrite app_nil_r. Qed.

Lemma add_event_advance e n es d :
  add_event e (advance n es d) = advance n (es ++ [e]) d.
Proof. unfold add_event, advance. cbn. now rewrite <- app_assoc. Qed.

(** What [readVersion] logs once the query is through. *)
Lemma readVersion_run d :
  let x := tty (exchanges d) in
  exists es,
    readVersion tty d = (version_ok x, advance 1 es d)
    /\ written es = [":GV#"].
Proof.
  cbv zeta. unfold readVersion, bind, version_ok.
  rewrite sendCommand_run. unfold sendCommand_result. cbn [negb].
  destruct (reply_of (tty (exchanges d))) as [res|]; cbn.
  - eexists. unfold LOG, emit, modify, ret, bind. cbn.
    rewrite add_event_advance. split; [reflexivity|].
    now autorewrite with events.
  - eexists. split; [reflexivity|]. now autorewrite with events.
Qed.

(** The loop of [Ack] asks until a reply comes or its attempts are used
    up, and says whether a reply came. *)
Lemma Ack_loop_run (n : nat) :
  forall d, exists es,
    Ack_loop tty n d =
      (any_ok tty (exchanges d) n, advance (attempts tty (exchanges d) n) es d)
    /\ written es = repeat ":GV#" (attempts tty (exchanges d) n).
Proof.
  induction n as [|n IH]; intros d.
  - exists []. cbn. rewrite advance_0. split; reflexivity.
  - cbn [Ack_loop any_ok attempts]. unfold bind at 1.
    destruct (readVersion_run d) as (es & Erun & Ees). rewrite Erun.
    destruct (version_ok (tty (exchanges d))); cbn [orb].
    + exists es. split; [reflexivity | exact Ees].
    + unfold bind, emit, modify. rewrite add_event_advance.
      destruct (IH (advance 1 (es ++ [Sleep 1]) d)) as (es' & Erun' & Ees').
      change (exchanges (advance 1 (es ++ [Sleep 1]) d))
        with (S (exchanges d)) in *.
      rewrite Erun', advance_advance.
      eexists. split.
      * f_equal. f_equal. apply Nat.add_comm.
      * autorewrite with events. rewrite Ees, Ees'. reflexivity.
Qed.

End Handshake.

(* ================================================================== *)
(** ** The set-position commands *)

Lemma cat3 (a b c : string) : cat [a; b; c] = (a ++ b ++ c)%string.
Proof. reflexivity. Qed.

(** A command of an opcode, a ["%09i"] number and [#] fits the buffer. *)
Lemma snprintf_opcode_09i (a b c : ascii) (p : Z) :
  let op := String a (String b (String c "")) in
  snprintf ML_RES (cat [op; fmt_09i p; "#"]) = (op ++ fmt_09i p ++ "#")%string.
Proof.
  cbv zeta. rewrite cat3. apply snprintf_fits.
  destruct (fmt_09i_roundtrip p "#" eq_refl) as [Hlen _].
  cbn [append String.length]. rewrite length_append. cbn. unfold ML_RES. lia.
Qed.

(** C3, as the code has it.  For every position below 10^9 there are
    exactly nine decimal digits, denoting the position, such that the
    set-target-position command a move writes first is [:SN], the
    digits and [#], and the command a sync writes is [:SP], the same
    digits and [#]. *)
Theorem set_position_commands_nine_digits
    (tty : Transport) (d : Driver) (p : Z) :
  0 <= p < 10 ^ 9 ->
  exists digits,
    String.length digits = 9%nat
    /\ all_digits digits = true
    /\ digits_value digits = p
    /\ hd_error (written (emitted (MoveFocuser tty p) d))
       = Some (":SN" ++ digits ++ "#")%string
    /\ written (emitted (SyncFocuser tty p) d)
       = [(":SP" ++ digits ++ "#")%string].
Proof.
  intros Hp. destruct (fmt_09i_nine_digits p Hp) as (Hl & Hd & Hv).
  exists (fmt_09i p). repeat split; try assumption.
  - unfold emitted, exec. rewrite MoveFocuser_run. cbv zeta.
    rewrite (snprintf_opcode_09i ":" "S" "N" p).
    destruct (write_ok (tty (exchanges d))); cbn;
      rewrite <- ?app_assoc, skipn_exact; now autorewrite with events.
  - unfold emitted, exec, SyncFocuser. rewrite sendCommand__run.
    rewrite (snprintf_opcode_09i ":" "S" "P" p). cbn.
    rewrite skipn_exact. now autorewrite with events.
Qed.

(** Position 42: [:SN000000042#] for the move, [:SP000000042#] for the
    sync. *)
Lemma set_position_commands_witness :
  0 <= 42 < 10 ^ 9
  /\ exists digits,
      digits_value digits = 42
      /\ hd_error (written (emitted (MoveFocuser (script [] no_answer) 42) fresh))
         = Some (":SN" ++ digits ++ "#")%string
      /\ written (emitted (SyncFocuser (script [] no_answer) 42) fresh)
         = [(":SP" ++ digits ++ "#")%string].
Proof.
  assert (H : 0 <= 42 < 10 ^ 9) by (split; [discriminate | reflexivity]).
  split; [exact H|].
  destruct (set_position_commands_nine_digits (script [] no_answer) fresh 42 H)
    as (digits & _ & _ & Hv & Hm & Hs).
  exists digits. auto.
Defined.

(** The claim as worded fails: the command a move to 42 writes to set
    its target is [:SN000000042#], not [:SP000000042#]. *)
Lemma set_target_position_is_not_SP :
  hd_error (written (emitted (MoveFocuser (script [] no_answer) 42) fresh))
    = Some ":SN000000042#"
  /\ hd_error (written (emitted (MoveFocuser (script [] no_answer) 42) fresh))
    <> Some ":SP000000042#".
Proof. split; [reflexivity | discriminate]. Qed.

(* ================================================================== *)
(** ** The motion flag *)

Lemma errors_sendCommand_events_reply x cmd res silent buf :
  reply_of x = Some buf -> errors (sendCommand_events x cmd res silent) = [].
Proof.
  unfold reply_of, sendCommand_events.
  destruct (on_write x); [|discriminate].
  destruct (on_read x); [|discriminate].
  destruct res; reflexivity.
Qed.

(** C4, as the code has it.  On a reply [res] to [:GI#], [isMoving]
    answers true when ["1#"] occurs anywhere in [res]; it answers false,
    and logs nothing, when ["1#"] does not occur and ["0#"] does; it
    answers false and logs the unknown-value error when neither
    occurs. *)
Theorem isMoving_searches_the_reply
    (tty : Transport) (d : Driver) (res : string) :
  reply_of (tty (exchanges d)) = Some res ->
  (occurs_in "1#" res ->
     eval (isMoving tty) d = true
     /\ errors (emitted (isMoving tty) d) = [])
  /\ (~ occurs_in "1#" res -> occurs_in "0#" res ->
     eval (isMoving tty) d = false
     /\ errors (emitted (isMoving tty) d) = [])
  /\ (~ occurs_in "1#" res -> ~ occurs_in "0#" res ->
     eval (isMoving tty) d = false
     /\ errors (emitted (isMoving tty) d)
        = [cat ["Unknown error: isMoving value ("; res; ")"]]).
Proof.
  intros Hres. unfold eval, emitted, exec. rewrite isMoving_run. cbv zeta.
  cbn [fst snd advance trace]. rewrite skipn_exact.
  autorewrite with events.
  rewrite (errors_sendCommand_events_reply _ _ _ _ _ Hres).
  unfold moving_flag, isMoving_events. rewrite Hres.
  pose proof (strstr_spec res "1#") as H1.
  pose proof (strstr_spec res "0#") as H0.
  destruct (succeeded (strstr res "1#")).
  - split; [auto|]. split; intros Hn; exfalso; apply Hn, H1; reflexivity.
  - assert (Hn1 : ~ occurs_in "1#" res) by (intros H; apply H1 in H; discriminate).
    split; [intros H; contradiction|].
    destruct (succeeded (strstr res "0#")).
    + split; [auto|]. intros _ Hn. exfalso. apply Hn, H0. reflexivity.
    + assert (Hn0 : ~ occurs_in "0#" res)
        by (intros H; apply H0 in H; discriminate).
      split; [intros _ H; contradiction | auto].
Qed.

(** The payloads the claim names: ["1#"] and ["01#"] read as moving,
    ["0#"] as not moving. *)
Lemma isMoving_searches_the_reply_witness :
  reply_of (script [answer "01#"] no_answer (exchanges fresh)) = Some "01#"
  /\ occurs_in "1#" "01#"
  /\ eval (isMoving (script [answer "01#"] no_answer)) fresh = true
  /\ errors (emitted (isMoving (script [answer "01#"] no_answer)) fresh) = [].
Proof.
  assert (Hr : reply_of (script [answer "01#"] no_answer (exchanges fresh))
               = Some "01#") by reflexivity.
  assert (Ho : occurs_in "1#" "01#") by (exists "0", ""; reflexivity).
  destruct (isMoving_searches_the_reply
              (script [answer "01#"] no_answer) fresh "01#" Hr) as [H _].
  destruct (H Ho) as [He Hl].
  repeat split; assumption.
Defined.

(** The claim as worded fails: the payload ["11#"] is neither ["1#"] nor
    ["01#"], and [isMoving] answers true on it; the payload ["10#"] is
    none of the three, and [isMoving] logs no error on it. *)
Lemma isMoving_true_beyond_the_two_payloads :
  "11#" <> "1#" /\ "11#" <> "01#"
  /\ eval (isMoving (script [answer "11#"] no_answer)) fresh = true
  /\ "10#" <> "1#" /\ "10#" <> "01#" /\ "10#" <> "0#"
  /\ eval (isMoving (script [answer "10#"] no_answer)) fresh = false
  /\ errors (emitted (isMoving (script [answer "10#"] no_answer)) fresh) = [].
Proof. repeat split; try discriminate; reflexivity. Qed.

(* ================================================================== *)
(** ** Fixed-point replies *)

Section FixedPoint.

Local Open Scope string_scope.

Lemma digits_value_from_nonneg s :
  forall acc, all_digits s = true -> 0 <= acc -> 0 <= digits_value_from acc s.
Proof.
  induction s as [|c s IH]; intros acc Hs Hacc; simpl; [exact Hacc|].
  simpl in Hs. apply andb_true_iff in Hs. destruct Hs as [Hc Hs].
  apply IH; [exact Hs|]. unfold is_decimal in Hc.
  apply andb_true_iff in Hc. destruct Hc as [Hc _]. apply Z.leb_le in Hc. lia.
Qed.

Lemma digits_value_nonneg s : all_digits s = true -> 0 <= digits_value s.
Proof. intros H. apply digits_value_from_nonneg; [exact H | lia]. Qed.

(** ["%d.%d#"] on a sign, digits, a point, digits and [#] reads both
    numbers. *)
Lemma sscanf_d_dot_d_digits (neg : bool) (w f : string) :
  all_digits w = true -> w <> "" -> all_digits f = true -> f <> "" ->
  sscanf_d_dot_d 0 0 ((if neg then "-" else "") ++ w ++ "." ++ f ++ "#") =
  (2, to_int32 (strtol (if neg then - digits_value w else digits_value w)),
   to_int32 (strtol (digits_value f))).
Proof.
  intros Hw Hwn Hf Hfn. unfold sscanf_d_dot_d.
  assert (Hwhole :
    scan_d ((if neg then "-" else "") ++ w ++ "." ++ f ++ "#") =
    ConvOk (to_int32 (strtol (if neg then - digits_value w
                                else digits_value w)))
      ("." ++ f ++ "#")).
  { destruct neg.
    - change ("-" ++ w ++ "." ++ f ++ "#")
        with (String "-" (w ++ "." ++ f ++ "#")).
      now apply scan_d_minus_digits.
    - change ("" ++ w ++ "." ++ f ++ "#") with (w ++ "." ++ f ++ "#").
      now apply scan_d_digits. }
  rewrite Hwhole. cbn [append].
  rewrite (scan_d_digits f "#" Hf Hfn eq_refl). reflexivity.
Qed.

End FixedPoint.

Section FixedPointRun.

Variable tty : Transport.

Lemma read_fixed_point_run cmd store d :
  let x := tty (exchanges d) in
  let d1 := advance 1 (sendCommand_events x cmd true false) d in
  read_fixed_point tty cmd store d =
  match reply_of x with
  | None => (false, d1)
  | Some res =>
      let '(rc, w, f) := sscanf_d_dot_d 0 0 res in
      if 0 <? rc then (true, store (fixed_point w f) d1)
      else (false,
            add_event
              (Log LOG_ERROR
                 (cat ["Unknown error: focuser temperature value ("; res; ")"]))
              d1)
  end.
Proof.
  cbv zeta. unfold read_fixed_point, bind. rewrite sendCommand_run.
  unfold sendCommand_result. cbn [negb].
  destruct (reply_of (tty (exchanges d))) as [res|]; [|reflexivity].
  destruct (sscanf_d_dot_d 0 0 res) as [[rc w] f].
  destruct (0 <? rc); reflexivity.
Qed.

End FixedPointRun.

(** C5.  A reply of the form sign, digits [w], point, digits [f], [#]
    is decoded as the whole part, [w] with its sign, plus the
    fractional part, [f] read as a number of its own, divided by ten
    as integers: plus the [q] with [10 q <= f < 10 q + 10], the
    remainder being dropped.  The sum is what [readTemperature] and
    [readTemperatureCoefficient] store.  Below 2^24 the conversion to
    [float] changes nothing. *)
Theorem fixed_point_reply_decodes
    (tty : Transport) (d : Driver) (neg : bool) (w f : string) (q : Z) :
  all_digits w = true -> w <> ""%string ->
  all_digits f = true -> f <> ""%string ->
  digits_value w <= INT32_MAX -> digits_value f <= INT32_MAX ->
  10 * q <= digits_value f < 10 * q + 10 ->
  let whole := if neg then - digits_value w else digits_value w in
  let v := whole + q in
  reply_of (tty (exchanges d))
    = Some ((if neg then "-" else "") ++ w ++ "." ++ f ++ "#")%string ->
  eval (readTemperature tty) d = true
  /\ value (exec (readTemperature tty) d) TemperatureN
     = float_of_int (to_int32 v)
  /\ eval (readTemperatureCoefficient tty) d = true
  /\ snd (TemperatureSettingN (exec (readTemperatureCoefficient tty) d))
     = inject_Z (float_of_int (to_int32 v))
  /\ (Z.abs v < 2 ^ 24 -> float_of_int (to_int32 v) = v).
Proof.
  intros Hw Hwn Hf Hfn Hwr Hfr Hq whole v Hres.
  pose proof (digits_value_nonneg w Hw) as Hw0.
  pose proof (digits_value_nonneg f Hf) as Hf0.
  assert (Hscan : sscanf_d_dot_d 0 0
                    ((if neg then "-" else "") ++ w ++ "." ++ f ++ "#")
                  = (2, whole, digits_value f)).
  { rewrite sscanf_d_dot_d_digits by assumption. f_equal; [f_equal|].
    - apply to_int32_strtol. unfold INT32_MIN, INT32_MAX in *.
      destruct neg; lia.
    - apply to_int32_strtol. unfold INT32_MIN, INT32_MAX in *. lia. }
  assert (Hdiv : idiv (digits_value f) 10 = q).
  { unfold idiv. rewrite Z.quot_div_nonneg by lia.
    symmetry. apply (Z.div_unique _ _ _ (digits_value f - 10 * q)); lia. }
  unfold eval, exec, readTemperature, readTemperatureCoefficient.
  rewrite !read_fixed_point_run. cbv zeta. rewrite Hres, Hscan.
  cbn [Z.ltb Z.compare fst snd]. unfold fixed_point. rewrite Hdiv.
  repeat split.
  intros Hv. rewrite to_int32_id.
  - now apply float_of_int_exact.
  - unfold INT32_MIN, INT32_MAX. lia.
Qed.

(** The reply ["21.5#"] is stored as 21: the single digit after the
    point adds 5 / 10 = 0.  The reply ["21.55#"] is stored as 26: the
    two digits add 55 / 10 = 5, not 0.55. *)
Lemma fixed_point_reply_witness :
  value (exec (readTemperature (script [answer "21.5#"] no_answer)) fresh)
    TemperatureN = 21
  /\ value (exec (readTemperature (script [answer "21.55#"] no_answer)) fresh)
       TemperatureN = 26.
Proof.
  destruct (fixed_point_reply_decodes
              (script [answer "21.5#"] no_answer) fresh false "21" "5" 0
              eq_refl ltac:(discriminate) eq_refl ltac:(discriminate)
              ltac:(discriminate) ltac:(discriminate)
              ltac:(vm_compute; split; [discriminate | reflexivity]) eq_refl)
    as (_ & Hv & _).
  destruct (fixed_point_reply_decodes
              (script [answer "21.55#"] no_answer) fresh false "21" "55" 5
              eq_refl ltac:(discriminate) eq_refl ltac:(discriminate)
              ltac:(discriminate) ltac:(discriminate)
              ltac:(vm_compute; split; [discriminate | reflexivity]) eq_refl)
    as (_ & Hv' & _).
  split; [exact Hv | exact Hv'].
Defined.

(** Two digits after the point count as a number of their own:
    ["21.55#"] is read as 21 + 55 / 10 = 26, and ["-3.55#"] as 2. *)
Example fixed_point_two_digit_fraction :
  value (exec (readTemperature (script [answer "21.55#"] no_answer)) fresh)
    TemperatureN = 26
  /\ value (exec (readTemperature (script [answer "-3.55#"] no_answer)) fresh)
       TemperatureN = 2.
Proof. split; reflexivity. Qed.

(* ================================================================== *)
(** ** Relative moves *)

Lemma fmt_09i_to_uint32 z : fmt_09i (to_uint32 z) = fmt_09i z.
Proof. unfold fmt_09i. now rewrite to_int32_of_uint32. Qed.

Lemma clamp_in_int32 x lo hi :
  INT32_MIN <= lo <= INT32_MAX -> INT32_MIN <= hi <= INT32_MAX ->
  INT32_MIN <= clamp x lo hi <= INT32_MAX.
Proof. unfold clamp. lia. Qed.

(** C2, as the code has it.  For a tick count [t] that fits a signed
    32-bit integer, with the sum of the current position and the signed
    offset and the two limits in that range too, the first command a
    relative move writes is the set-position command for the clamped
    sum, [clamp (current + sign dir * t) min max]; the answer is Busy
    exactly when both commands of the move were written, and then the
    relative-position value is the requested [t] and its status Busy. *)
Theorem MoveRelFocuser_clamps
    (tty : Transport) (d : Driver) (dir : FocusDirection) (t : Z) :
  0 <= t <= INT32_MAX ->
  INT32_MIN <= value d FocusAbsPosN + sign dir * t <= INT32_MAX ->
  INT32_MIN <= FocusAbsPosN_min d <= INT32_MAX ->
  INT32_MIN <= FocusAbsPosN_max d <= INT32_MAX ->
  let newPosition :=
    clamp (value d FocusAbsPosN + sign dir * t)
      (FocusAbsPosN_min d) (FocusAbsPosN_max d) in
  let d' := exec (MoveRelFocuser tty dir t) d in
  hd_error (written (emitted (MoveRelFocuser tty dir t) d))
    = Some (":SN" ++ fmt_09i newPosition ++ "#")%string
  /\ scan_d (fmt_09i newPosition ++ "#") = ConvOk newPosition "#"
  /\ eval (MoveRelFocuser tty dir t) d
     = (if write_ok (tty (exchanges d)) && write_ok (tty (S (exchanges d)))
        then IPS_BUSY else IPS_ALERT)
  /\ (eval (MoveRelFocuser tty dir t) d = IPS_BUSY ->
      value d' FocusRelPosN = t /\ status d' FocusRelPosNP = IPS_BUSY).
Proof.
  intros Ht Hsum Hlo Hhi newPosition.
  assert (Hoff : to_int32
                   (match dir with FOCUS_INWARD => -1 | FOCUS_OUTWARD => 1 end
                    * to_int32 t) = sign dir * t).
  { rewrite (to_int32_id t) by (unfold INT32_MIN, INT32_MAX in *; lia).
    apply to_int32_id. unfold INT32_MIN, INT32_MAX, sign in *.
    destruct dir; lia. }
  assert (Hnew :
    Z.max (double_to_int32 (FocusAbsPosN_min d))
      (Z.min (double_to_int32 (FocusAbsPosN_max d))
         (double_to_int32 (value d FocusAbsPosN + sign dir * t)))
    = newPosition).
  { now rewrite !double_to_int32_id by assumption. }
  pose proof (clamp_in_int32 (value d FocusAbsPosN + sign dir * t)
                _ _ Hlo Hhi) as Hrange.
  fold newPosition in Hrange.
  assert (Hrun : MoveRelFocuser tty dir t d =
                 let (ok, d1) := MoveFocuser tty (to_uint32 newPosition) d in
                 if ok
                 then (IPS_BUSY,
                       set_status FocusRelPosNP IPS_BUSY
                         (set_value FocusRelPosN t d1))
                 else (IPS_ALERT, d1)).
  { unfold MoveRelFocuser, bind, gets. rewrite Hoff, Hnew.
    destruct (MoveFocuser tty (to_uint32 newPosition) d) as [[|] d1];
      reflexivity. }
  unfold eval, emitted, exec. rewrite Hrun, MoveFocuser_run. cbv zeta.
  rewrite fmt_09i_to_uint32, (snprintf_opcode_09i ":" "S" "N" newPosition).
  split; [|split; [|split]].
  - destruct (write_ok (tty (exchanges d)));
      [destruct (write_ok (tty (S (exchanges d))))|];
      cbn; rewrite <- ?app_assoc, skipn_exact; now autorewrite with events.
  - destruct (fmt_09i_roundtrip newPosition "#" eq_refl) as [_ Hscan].
    rewrite Hscan. f_equal. now apply to_int32_id.
  - destruct (write_ok (tty (exchanges d)));
      [destruct (write_ok (tty (S (exchanges d))))|]; reflexivity.
  - destruct (write_ok (tty (exchanges d)));
      [destruct (write_ok (tty (S (exchanges d))))|];
      cbn; intros H; try discriminate H; split; reflexivity.
Qed.

(** An inward move by 50 ticks from position 10, between 0 and 1000000:
    the command carries position 0, and the relative value is 50. *)
Lemma MoveRelFocuser_clamps_witness :
  hd_error (written (emitted (MoveRelFocuser (script [] no_answer)
                                FOCUS_INWARD 50)
                       (set_value FocusAbsPosN 10 fresh)))
    = Some ":SN000000000#"
  /\ value (exec (MoveRelFocuser (script [] no_answer) FOCUS_INWARD 50)
              (set_value FocusAbsPosN 10 fresh)) FocusRelPosN = 50.
Proof.
  destruct (MoveRelFocuser_clamps (script [] no_answer)
              (set_value FocusAbsPosN 10 fresh) FOCUS_INWARD 50)
    as (Hcmd & _ & Hans & Hrel); cbn; unfold INT32_MIN, INT32_MAX; try lia.
  split; [exact Hcmd|]. apply Hrel. exact Hans.
Defined.

(** The claim as worded fails for tick counts from 2^31 on, which the
    code takes as negative: an outward move by 4294967295 ticks from
    position 500000 commands 499999, while the clamped sum is the
    maximum, 1000000. *)
Lemma MoveRelFocuser_wraps_large_ticks :
  ~ (forall (tty : Transport) (d : Driver) (dir : FocusDirection) (t : Z),
        0 <= t < 2 ^ 32 ->
        hd_error (written (emitted (MoveRelFocuser tty dir t) d))
        = Some (":SN"
                ++ fmt_09i (clamp (value d FocusAbsPosN + sign dir * t)
                              (FocusAbsPosN_min d) (FocusAbsPosN_max d))
                ++ "#")%string).
Proof.
  intros H.
  specialize (H (script [] no_answer) (set_value FocusAbsPosN 500000 fresh)
                FOCUS_OUTWARD 4294967295 ltac:(lia)).
  vm_compute in H. discriminate H.
Qed.

(* ================================================================== *)
(** ** The poll *)

Section Poll.

Variable tty : Transport.



End Poll.







(** What the unsigned field cannot hold is not covered above: a
    temperature of -7 that goes out is kept as 4294967289, and the next
    poll that reads -7 again notifies it again. *)
Example TimerHit_negative_temperature_reported_again :
  let tty := script [answer "100#"; answer "-7.0#";
                     answer "100#"; answer "-7.0#"] no_answer in
  let d1 := exec (TimerHit tty) (set_lastPos 100 fresh) in
  lastTemperature d1 = 4294967289
  /\ value d1 TemperatureN = -7
  /\ notified (emitted (TimerHit tty) d1) = [(TemperatureNP, IPS_IDLE)].
Proof. repeat split; vm_compute; reflexivity. Qed.

(* ================================================================== *)
(** ** No operation but the handshake writes a command twice *)

Section Subseq.

Context {A : Type}.

Lemma subseq_nil_l (l : list A) : subseq [] l.
Proof. induction l; constructor; assumption. Qed.

Lemma subseq_refl (l : list A) : subseq l l.
Proof. induction l; constructor; assumption. Qed.

Lemma subseq_app (a b c e : list A) :
  subseq a b -> subseq c e -> subseq (a ++ c) (b ++ e).
Proof. induction 1; intros Hce; simpl; try constructor; auto. Qed.

Lemma subseq_trans (a b c : list A) : subseq a b -> subseq b c -> subseq a c.
Proof.
  intros Hab Hbc. revert a Hab.
  induction Hbc as [| x l l' Hbc IH | x l l' Hbc IH]; intros a Hab.
  - exact Hab.
  - inversion Hab; subst; constructor; auto.
  - constructor. auto.
Qed.

Lemma subseq_In (a b : list A) x : subseq a b -> In x a -> In x b.
Proof.
  induction 1 as [| y l l' H IH | y l l' H IH]; simpl; intros Hin; auto.
  destruct Hin; auto.
Qed.

Lemma subseq_NoDup (a b : list A) : subseq a b -> NoDup b -> NoDup a.
Proof.
  induction 1 as [| y l l' H IH | y l l' H IH]; intros Hb.
  - constructor.
  - inversion Hb; subst. constructor; auto.
    intros Hin. eapply subseq_In in Hin; eauto.
  - inversion Hb; subst. auto.
Qed.

End Subseq.

Lemma NoDup_of_map {A B} (f : A -> B) (l : list A) :
  NoDup (map f l) -> NoDup l.
Proof.
  induction l as [|a l IH]; simpl; intros H; [constructor|].
  inversion H; subst. constructor; auto.
  intros Hin. apply H2. now apply in_map.
Qed.

Section Writes.

Variable tty : Transport.

Lemma writes_weaken {A} (m : M A) ops ops' :
  writes m ops -> subseq ops ops' -> writes m ops'.
Proof.
  intros H Hs d. destruct (H d) as (es & E & S).
  exists es. split; [exact E|]. eapply subseq_trans; eauto.
Qed.

Lemma writes_silent {A} (m : M A) ops :
  (forall d, trace (exec m d) = trace d) -> writes m ops.
Proof.
  intros H d. exists []. rewrite H, app_nil_r.
  split; [reflexivity | apply subseq_nil_l].
Qed.

Lemma writes_ret {A} (a : A) ops : writes (ret a) ops.
Proof. now apply writes_silent. Qed.

Lemma writes_gets {A} (f : Driver -> A) ops : writes (gets f) ops.
Proof. now apply writes_silent. Qed.

Lemma writes_modify f ops :
  (forall d, trace (f d) = trace d) -> writes (modify f) ops.
Proof. intros H. apply writes_silent. exact H. Qed.

Lemma writes_emit e ops : written [e] = [] -> writes (emit e) ops.
Proof.
  intros H d. exists [e]. split; [reflexivity|].
  rewrite H. apply subseq_nil_l.
Qed.

Lemma writes_IDSet v ops : writes (IDSet_ v) ops.
Proof.
  intros d. exists [IDSet v (status d v)]. split; [reflexivity|].
  apply subseq_nil_l.
Qed.

Lemma writes_bind {A B} (m : M A) (k : A -> M B) ops1 ops2 :
  writes m ops1 -> (forall a, writes (k a) ops2) ->
  writes (bind m k) (ops1 ++ ops2).
Proof.
  intros Hm Hk d. destruct (Hm d) as (es1 & E1 & S1).
  unfold exec, bind in *. destruct (m d) as [a d1]. cbn [snd] in *.
  destruct (Hk a d1) as (es2 & E2 & S2). unfold exec in E2.
  exists (es1 ++ es2). split.
  - rewrite E2, E1. now rewrite app_assoc.
  - rewrite written_app, map_app. now apply subseq_app.
Qed.

(** The rule for [bind] with the list split at position [n]. *)
Lemma writes_bind_at (n : nat) {A B} (m : M A) (k : A -> M B) ops :
  writes m (firstn n ops) -> (forall a, writes (k a) (skipn n ops)) ->
  writes (bind m k) ops.
Proof.
  intros Hm Hk. rewrite <- (firstn_skipn n ops). now apply writes_bind.
Qed.

Lemma writes_sendCommand cmd res silent nret o :
  opcode cmd = o -> writes (sendCommand tty cmd res silent nret) [o].
Proof.
  intros <- d. unfold exec. rewrite sendCommand_run.
  eexists. split; [reflexivity|].
  rewrite written_sendCommand_events. apply subseq_refl.
Qed.

Lemma writes_sendCommand_in cmd ops :
  subseq [opcode cmd] ops -> writes (sendCommand_ tty cmd) ops.
Proof.
  intros H. eapply writes_weaken; [|exact H]. unfold sendCommand_.
  apply (writes_bind_at 1); cbn [firstn skipn].
  - now apply writes_sendCommand.
  - intros a. apply writes_ret.
Qed.

End Writes.

(** The opcode of a command printed from a colon and two letters, an
    argument and a terminator. *)
Lemma opcode_snprintf (a b : ascii) (x y : string) :
  opcode (snprintf ML_RES (cat [String ":" (String a (String b "")); x; y]))
  = String a (String b "").
Proof.
  unfold opcode, snprintf, ML_RES. rewrite cat3.
  cbn [append substring Nat.sub].
  now destruct (substring 0 28 (x ++ y)).
Qed.

Ltac subseq_now :=
  repeat first [apply subseq_nil | apply subseq_cons | apply subseq_skip].

(** Checking a method against its list of opcodes: split the list at
    each [bind], take every branch of a test, and use what is known of
    the methods it calls. *)
Create HintDb writes discriminated.
#[local] Hint Constants Opaque : writes.

Ltac writes_now :=
  lazymatch goal with
  | |- writes (ret _) _ => apply writes_ret
  | |- writes (gets _) _ => apply writes_gets
  | |- writes (modify _) _ => apply writes_modify; intros; reflexivity
  | |- writes (emit _) _ => apply writes_emit; reflexivity
  | |- writes (LOG _ _) _ => apply writes_emit; reflexivity
  | |- writes (IDSet_ _) _ => apply writes_IDSet
  | |- writes (when ?b _) _ => destruct b; cbn [when]; writes_now
  | |- writes (bind _ _) _ =>
      first [ writes_split 0%nat | writes_split 1%nat | writes_split 2%nat
            | writes_split 3%nat | writes_split 4%nat | writes_split 5%nat
            | writes_split 6%nat | writes_split 7%nat ]
  | |- writes (if ?b then _ else _) _ => destruct b; writes_now
  | |- writes (match ?x with _ => _ end) _ => destruct x; writes_now
  | |- writes (sendCommand _ _ _ _ _) _ =>
      eapply writes_weaken;
      [apply writes_sendCommand; reflexivity | subseq_now]
  | |- writes (sendCommand_ _ _) _ =>
      apply writes_sendCommand_in; rewrite ?opcode_snprintf; subseq_now
  | |- writes _ _ =>
      eapply writes_weaken; [solve [eauto with writes nocore] | subseq_now]
  end
with writes_split n :=
  apply (writes_bind_at n); cbn [firstn skipn];
  [solve [writes_now] | intros; solve [writes_now]].

Section WritesOfMethods.

Variable tty : Transport.

Lemma writes_readCoilPowerState : writes (readCoilPowerState tty) ["GE"].
Proof. unfold readCoilPowerState. writes_now. Qed.

Lemma writes_readReverseDirection : writes (readReverseDirection tty) ["GR"].
Proof. unfold readReverseDirection. writes_now. Qed.

Lemma writes_readVersion : writes (readVersion tty) ["GV"].
Proof. unfold readVersion. writes_now. Qed.

Lemma writes_read_fixed_point cmd store o :
  opcode cmd = o -> (forall v d, trace (store v d) = trace d) ->
  writes (read_fixed_point tty cmd store) [o].
Proof.
  intros Ho Hs. unfold read_fixed_point.
  apply (writes_bind_at 1); cbn [firstn skipn].
  - now apply writes_sendCommand.
  - intros [res|]; [|apply writes_ret].
    destruct (sscanf_d_dot_d 0 0 res) as [[rc w] f].
    destruct (0 <? rc).
    + apply (writes_bind_at 0); cbn [firstn skipn].
      * apply writes_modify. apply Hs.
      * intros. apply writes_ret.
    + writes_now.
Qed.

Lemma writes_readTemperature : writes (readTemperature tty) ["GT"].
Proof. now apply writes_read_fixed_point. Qed.

Lemma writes_readTemperatureCoefficient :
  writes (readTemperatureCoefficient tty) ["GC"].
Proof. now apply writes_read_fixed_point. Qed.

Lemma writes_readTemperatureCalibration :
  writes (readTemperatureCalibration tty) ["GO"].
Proof. now apply writes_read_fixed_point. Qed.

Lemma writes_readPosition : writes (readPosition tty) ["GP"].
Proof. unfold readPosition. writes_now. Qed.

Lemma writes_readSpeed : writes (readSpeed tty) ["GD"].
Proof. unfold readSpeed. writes_now. Qed.

Lemma writes_isMoving : writes (isMoving tty) ["GI"].
Proof. unfold isMoving. writes_now. Qed.

Lemma writes_setTemperatureCalibration c :
  writes (setTemperatureCalibration tty c) ["SO"].
Proof. unfold setTemperatureCalibration. writes_now. Qed.

Lemma writes_setTemperatureCoefficient c :
  writes (setTemperatureCoefficient tty c) ["SC"].
Proof. unfold setTemperatureCoefficient. writes_now. Qed.

Lemma writes_SyncFocuser t : writes (SyncFocuser tty t) ["SP"].
Proof. unfold SyncFocuser. writes_now. Qed.

Lemma writes_MoveFocuser p : writes (MoveFocuser tty p) ["SN"; "FG"].
Proof. unfold MoveFocuser. writes_now. Qed.

Lemma writes_setCoilPowerState e : writes (setCoilPowerState tty e) ["SE"].
Proof. unfold setCoilPowerState. writes_now. Qed.

Lemma writes_ReverseFocuser e : writes (ReverseFocuser tty e) ["SR"].
Proof. unfold ReverseFocuser. writes_now. Qed.

Lemma writes_AbortFocuser : writes (AbortFocuser tty) ["FQ"].
Proof. unfold AbortFocuser. writes_now. Qed.

Lemma writes_setSpeed s : writes (setSpeed tty s) ["SD"].
Proof. unfold setSpeed. writes_now. Qed.

Lemma writes_setTemperatureCompensation e :
  writes (setTemperatureCompensation tty e) ["+#"; "-#"].
Proof. unfold setTemperatureCompensation. destruct e; writes_now. Qed.

End WritesOfMethods.

#[local] Hint Resolve writes_readCoilPowerState writes_readReverseDirection
  writes_readVersion writes_readTemperature writes_readTemperatureCoefficient
  writes_readTemperatureCalibration writes_readPosition writes_readSpeed
  writes_isMoving writes_setTemperatureCalibration
  writes_setTemperatureCoefficient writes_SyncFocuser writes_MoveFocuser
  writes_setCoilPowerState writes_ReverseFocuser writes_AbortFocuser
  writes_setSpeed writes_setTemperatureCompensation : writes.

Section WritesOfRequests.

Variable tty : Transport.

Lemma writes_setGotoHome : writes (setGotoHome tty) ["GI"; "FQ"; "HO"].
Proof. unfold setGotoHome. writes_now. Qed.

Lemma writes_IUFindOnSwitchIndex sw ops : writes (IUFindOnSwitchIndex sw) ops.
Proof. now apply writes_silent. Qed.

Lemma writes_IUResetSwitch sw n ops : writes (IUResetSwitch sw n) ops.
Proof.
  apply writes_silent. intros d. unfold IUResetSwitch, exec, bind, modify, when.
  destruct (1 <? n); reflexivity.
Qed.

Lemma writes_IUUpdateSwitch sw states ops :
  writes (IUUpdateSwitch sw states) ops.
Proof.
  apply writes_silent. intros d. unfold IUUpdateSwitch, exec, when.
  destruct (negb _); reflexivity.
Qed.

Lemma writes_switch_on sw i ops : writes (switch_on sw i) ops.
Proof.
  apply writes_silent. intros d. unfold switch_on, exec, when.
  destruct (_ && _); reflexivity.
Qed.

Lemma writes_IUUpdateNumber values ops : writes (IUUpdateNumber values) ops.
Proof.
  apply writes_silent. intros d. unfold IUUpdateNumber, exec, when.
  destruct (_ && _); reflexivity.
Qed.

End WritesOfRequests.

#[local] Hint Resolve writes_setGotoHome writes_IUFindOnSwitchIndex
  writes_IUResetSwitch writes_IUUpdateSwitch writes_switch_on
  writes_IUUpdateNumber : writes.

Section WritesOfOperations.

Variable tty : Transport.

Lemma writes_ISNewSwitch dev name states :
  writes (ISNewSwitch tty dev name states)
    ["+#"; "-#"; "GI"; "FQ"; "HO"; "SE"].
Proof. unfold ISNewSwitch. writes_now. Qed.

Lemma writes_ISNewNumber dev name values :
  writes (ISNewNumber tty dev name values) ["SO"; "SC"].
Proof. unfold ISNewNumber. writes_now. Qed.

Lemma writes_GetFocusParams :
  writes (GetFocusParams tty) ["GP"; "GT"; "GD"; "GE"; "GO"; "GC"; "GR"].
Proof. unfold GetFocusParams. writes_now. Qed.

Lemma writes_SetFocuserSpeed s : writes (SetFocuserSpeed tty s) ["SD"].
Proof. unfold SetFocuserSpeed. writes_now. Qed.

Lemma writes_MoveFocuser_timed dir s t :
  writes (MoveFocuser_timed tty dir s t) ["SD"; "SN"; "FG"].
Proof. unfold MoveFocuser_timed. writes_now. Qed.

Lemma writes_timedMoveCallback : writes (timedMoveCallback tty) ["FQ"].
Proof. unfold timedMoveCallback. writes_now. Qed.

Lemma writes_MoveAbsFocuser t : writes (MoveAbsFocuser tty t) ["SN"; "FG"].
Proof. unfold MoveAbsFocuser. writes_now. Qed.

Lemma writes_MoveRelFocuser dir t :
  writes (MoveRelFocuser tty dir t) ["SN"; "FG"].
Proof. unfold MoveRelFocuser. cbv zeta. writes_now. Qed.

Lemma writes_TimerHit : writes (TimerHit tty) ["GP"; "GT"; "GI"].
Proof. unfold TimerHit. writes_now. Qed.

End WritesOfOperations.

#[local] Hint Resolve writes_GetFocusParams : writes.

Lemma writes_updateProperties tty :
  writes (updateProperties tty) ["GP"; "GT"; "GD"; "GE"; "GO"; "GC"; "GR"].
Proof. unfold updateProperties. writes_now. Qed.

#[local] Hint Resolve writes_ISNewSwitch writes_ISNewNumber
  writes_updateProperties writes_SetFocuserSpeed writes_MoveFocuser_timed
  writes_timedMoveCallback writes_MoveAbsFocuser writes_MoveRelFocuser
  writes_TimerHit : writes.

Lemma writes_run {A} (m : M A) ops : writes m ops -> writes (run m) ops.
Proof.
  intros H. unfold run. apply (writes_bind_at (List.length ops)).
  - now rewrite firstn_all.
  - intros a. apply writes_ret.
Qed.

Lemma writes_call tty op : writes (call tty op) (opcodes_of op).
Proof.
  destruct op; cbn [call opcodes_of]; apply writes_run;
    auto with writes nocore.
Qed.

Lemma opcodes_of_NoDup op : NoDup (opcodes_of op).
Proof.
  destruct op; cbn [opcodes_of];
    repeat (constructor; [cbn [In]; intuition discriminate|]);
    constructor.
Qed.

(** Within one call, an operation writes no command twice. *)
Lemma call_writes_once tty op d : NoDup (written (emitted (call tty op) d)).
Proof.
  destruct (writes_call tty op d) as (es & E & S).
  rewrite (emitted_of _ _ _ E).
  apply NoDup_of_map with (f := opcode).
  eapply subseq_NoDup; [exact S | apply opcodes_of_NoDup].
Qed.

(** C6.  The handshake [Ack] writes the version query once if the first
    attempt gets a reply, twice if the first fails and the second gets
    one, and three times otherwise: never more than three, and none
    after a reply.  It reports success exactly when one of these
    attempts gets a reply, failure exactly when all three fail.  Every
    other operation of the driver writes each of its commands at most
    once in a call, whatever fails: nothing else is tried again. *)
Theorem Ack_is_the_only_retry (tty : Transport) (d : Driver) :
  let ok := fun i : nat => version_ok (tty (i + exchanges d)%nat) in
  written (emitted (Ack tty) d)
    = repeat ":GV#" (if ok 0%nat then 1 else if ok 1%nat then 2 else 3)%nat
  /\ eval (Ack tty) d = ok 0%nat || ok 1%nat || ok 2%nat
  /\ (eval (Ack tty) d = false <->
      ok 0%nat = false /\ ok 1%nat = false /\ ok 2%nat = false)
  /\ forall op : Operation, NoDup (written (emitted (call tty op) d)).
Proof.
  cbv zeta. cbn [Nat.add].
  destruct (Ack_loop_run tty 3 d) as (es & Erun & Ees).
  assert (Eev : eval (Ack tty) d
                = version_ok (tty (exchanges d))
                  || version_ok (tty (S (exchanges d)))
                  || version_ok (tty (S (S (exchanges d))))).
  { unfold eval, Ack. rewrite Erun. cbn [fst any_ok].
    now rewrite orb_false_r, orb_assoc. }
  split; [|split; [exact Eev | split]].
  - unfold emitted, exec, Ack. rewrite Erun. cbn [snd advance trace].
    rewrite skipn_exact, Ees. cbn [attempts].
    destruct (version_ok (tty (exchanges d))); [reflexivity|].
    destruct (version_ok (tty (S (exchanges d)))); [reflexivity|].
    destruct (version_ok (tty (S (S (exchanges d))))); reflexivity.
  - rewrite Eev.
    destruct (version_ok (tty (exchanges d))),
             (version_ok (tty (S (exchanges d)))),
             (version_ok (tty (S (S (exchanges d))))); cbn; intuition congruence.
  - intros op. apply call_writes_once.
Qed.

(** A line that answers the third version query only: three attempts,
    and success. *)
Example Ack_third_attempt :
  written (emitted (Ack (script [no_answer; broken] (answer "1.0"))) fresh)
    = [":GV#"; ":GV#"; ":GV#"]
  /\ eval (Ack (script [no_answer; broken] (answer "1.0"))) fresh = true
  /\ written (emitted (Ack (script [answer "1.0"] broken)) fresh) = [":GV#"]
  /\ eval (Ack (script [] broken)) fresh = false.
Proof. repeat split; reflexivity. Qed.

(* ================================================================== *)
(** * The rest of the driver *)


(** ** The protocol engine *)

Section Frame.

Lemma same_properties_refl d : same_properties d d.
Proof. unfold same_properties. repeat split. Qed.

Lemma same_properties_advance n es d : same_properties d (advance n es d).
Proof. unfold same_properties. repeat split. Qed.

Lemma same_properties_add_event e d d' :
  same_properties d d' -> same_properties d (add_event e d').
Proof. unfold same_properties. intros H. exact H. Qed.

Lemma same_properties_trans d1 d2 d3 :
  same_properties d1 d2 -> same_properties d2 d3 -> same_properties d1 d3.
Proof.
  unfold same_properties.
  intros (A1 & A2 & A3 & A4 & A5 & A6 & A7 & A8 & A9 & A10)
         (B1 & B2 & B3 & B4 & B5 & B6 & B7 & B8 & B9 & B10).
  repeat split; congruence.
Qed.

Lemma sleeps_app es fs : sleeps (es ++ fs) = sleeps es ++ sleeps fs.
Proof.
  induction es as [|e es IH]; [reflexivity|].
  destruct e; simpl; rewrite ?IH; reflexivity.
Qed.

Lemma polls_app es fs : polls (es ++ fs) = (polls es + polls fs)%nat.
Proof.
  induction es as [|e es IH]; [reflexivity|].
  destruct e; simpl; rewrite ?IH; reflexivity.
Qed.

Lemma sleeps_sendCommand_events x cmd res silent :
  sleeps (sendCommand_events x cmd res silent) = [].
Proof.
  unfold sendCommand_events.
  destruct (on_write x), res, (on_read x), silent; reflexivity.
Qed.

Lemma polls_sendCommand_events x cmd res silent :
  polls (sendCommand_events x cmd res silent) = O.
Proof.
  unfold sendCommand_events.
  destruct (on_write x), res, (on_read x), silent; reflexivity.
Qed.

Lemma errors_sendCommand_events_silent x cmd res :
  errors (sendCommand_events x cmd res true) = [].
Proof.
  unfold sendCommand_events.
  destruct (on_write x), res, (on_read x); reflexivity.
Qed.

Lemma errors_sendCommand_events_length x cmd res silent :
  List.length (errors (sendCommand_events x cmd res silent))
  = (if silent || succeeded (sendCommand_result x res) then 0 else 1)%nat.
Proof.
  unfold sendCommand_events, sendCommand_result, write_ok, reply_of.
  destruct (on_write x), res, (on_read x), silent; reflexivity.
Qed.

Lemma line_only_nil : line_only [].
Proof. repeat split. Qed.

Lemma line_only_app es fs :
  line_only es -> line_only fs -> line_only (es ++ fs).
Proof.
  unfold line_only. intros (A1 & A2 & A3 & A4) (B1 & B2 & B3 & B4).
  rewrite notified_app, timers_app, sleeps_app, polls_app.
  now rewrite A1, A2, A3, A4, B1, B2, B3, B4.
Qed.

Lemma line_only_Log lvl msg : line_only [Log lvl msg].
Proof. repeat split. Qed.

Lemma line_only_sendCommand_events x cmd res silent :
  line_only (sendCommand_events x cmd res silent).
Proof.
  unfold line_only.
  rewrite notified_sendCommand_events, timers_sendCommand_events,
    sleeps_sendCommand_events, polls_sendCommand_events.
  repeat split.
Qed.

Lemma line_only_isMoving_events x : line_only (isMoving_events x).
Proof.
  unfold isMoving_events. destruct (reply_of x) as [res|]; [|repeat split].
  destruct (succeeded (strstr res "1#")); [repeat split|].
  destruct (succeeded (strstr res "0#")); repeat split.
Qed.

End Frame.

#[local] Hint Rewrite sleeps_app polls_app sleeps_sendCommand_events
  polls_sendCommand_events errors_sendCommand_events_silent : events.

(** X1.  One call of [sendCommand] hands the command to the line exactly
    once and uses up exactly one exchange, whatever happens; it touches
    no property of the driver, sends no notification and arms no timer.
    Without a buffer the result is that of the write alone; with a
    buffer it is the reply, if both the write and the read went through.
    A failing call logs exactly one error, and none when [silent]. *)
Theorem sendCommand_contract
    (tty : Transport) (cmd : string) (res silent : bool) (nret : Z)
    (d : Driver) :
  let x := tty (exchanges d) in
  let r := eval (sendCommand tty cmd res silent nret) d in
  let d' := exec (sendCommand tty cmd res silent nret) d in
  let es := emitted (sendCommand tty cmd res silent nret) d in
  written es = [cmd]
  /\ exchanges d' = S (exchanges d)
  /\ same_properties d d'
  /\ r = (if res then reply_of x else if write_ok x then Some "" else None)
  /\ List.length (errors es) = (if silent || succeeded r then 0 else 1)%nat
  /\ notified es = []
  /\ timers es = [].
Proof.
  cbv zeta. unfold eval, emitted, exec. rewrite sendCommand_run.
  cbn [fst snd advance trace exchanges]. rewrite skipn_exact.
  autorewrite with events.
  repeat split.
  - unfold sendCommand_result. destruct res; reflexivity.
  - apply errors_sendCommand_events_length.
Qed.

(** ** The handshake, seen from [Handshake] *)

Section HandshakeQuiet.

Variable tty : Transport.

Lemma readVersion_quiet d :
  exists es,
    readVersion tty d = (version_ok (tty (exchanges d)), advance 1 es d)
    /\ errors es = [] /\ sleeps es = [] /\ notified es = [].
Proof.
  unfold readVersion, bind, version_ok.
  rewrite sendCommand_run. unfold sendCommand_result. cbn [negb].
  destruct (reply_of (tty (exchanges d))) as [res|]; cbn.
  - eexists. unfold LOG, emit, modify, ret, bind. cbn.
    rewrite add_event_advance. split; [reflexivity|].
    now autorewrite with events.
  - eexists. split; [reflexivity|]. now autorewrite with events.
Qed.

Lemma Ack_loop_quiet (n : nat) :
  forall d, exists es,
    Ack_loop tty n d =
      (any_ok tty (exchanges d) n, advance (attempts tty (exchanges d) n) es d)
    /\ errors es = []
    /\ sleeps es = repeat 1 (failed_attempts tty (exchanges d) n)
    /\ notified es = [].
Proof.
  induction n as [|n IH]; intros d.
  - exists []. cbn. rewrite advance_0. repeat split.
  - cbn [Ack_loop any_ok attempts failed_attempts]. unfold bind at 1.
    destruct (readVersion_quiet d) as (es & Erun & Ee & Es & En).
    rewrite Erun.
    destruct (version_ok (tty (exchanges d))); cbn [orb].
    + exists es. repeat split; assumption.
    + unfold bind, emit, modify. rewrite add_event_advance.
      destruct (IH (advance 1 (es ++ [Sleep 1]) d))
        as (es' & Erun' & Ee' & Es' & En').
      change (exchanges (advance 1 (es ++ [Sleep 1]) d))
        with (S (exchanges d)) in *.
      rewrite Erun', advance_advance.
      eexists. split; [|split; [|split]].
      * f_equal. f_equal. apply Nat.add_comm.
      * autorewrite with events. now rewrite Ee, Ee'.
      * autorewrite with events. rewrite Es, Es'. reflexivity.
      * autorewrite with events. now rewrite En, En'.
Qed.

End HandshakeQuiet.

(** X2.  [Handshake] succeeds exactly when one of the three version
    queries gets a reply.  It pauses one second after every failed
    query, the last one included, so a handshake that fails has paused
    three times.  Failed queries log no error, and neither does the
    handshake itself: it touches no property and notifies nothing. *)
Theorem Handshake_quiet (tty : Transport) (d : Driver) :
  let ok := fun i : nat => version_ok (tty (i + exchanges d)%nat) in
  let failures :=
    (if ok 0%nat then 0 else if ok 1%nat then 1
     else if ok 2%nat then 2 else 3)%nat in
  eval (Handshake tty) d = ok 0%nat || ok 1%nat || ok 2%nat
  /\ sleeps (emitted (Handshake tty) d) = repeat 1 failures
  /\ errors (emitted (Handshake tty) d) = []
  /\ notified (emitted (Handshake tty) d) = []
  /\ same_properties d (exec (Handshake tty) d).
Proof.
  cbv zeta. cbn [Nat.add].
  destruct (Ack_loop_quiet tty 3 d) as (es & Erun & Ee & Es & En).
  unfold eval, emitted, exec, Handshake, Ack, bind. rewrite Erun.
  cbn [any_ok failed_attempts] in *.
  destruct (version_ok (tty (exchanges d)));
    [|destruct (version_ok (tty (S (exchanges d))));
      [|destruct (version_ok (tty (S (S (exchanges d)))))]];
    cbn -[attempts]; unfold LOG, emit, modify; cbn -[attempts];
    rewrite <- ?app_assoc, skipn_exact; autorewrite with events;
    rewrite Ee, Es, En; repeat split.
Qed.

(** ** Reading the switch states *)

Section SwitchReads.

Variable tty : Transport.

Lemma Switch_eqb_eq j k : Switch_eqb j k = true <-> j = k.
Proof.
  destruct j, k; simpl; split; intros H; try discriminate;
    try (apply Z.eqb_eq in H; now subst);
    try (injection H as ->; apply Z.eqb_refl).
Qed.

Lemma switch_set_switch k x d j :
  switch (set_switch k x d) j = if Switch_eqb j k then x else switch d j.
Proof. reflexivity. Qed.

Lemma readCoilPowerState_run d :
  exists es,
    readCoilPowerState tty d =
    match coil_reply_of (tty (exchanges d)) with
    | Some v =>
        if (v =? 0) || (v =? 1)
        then (true, set_switch (CoilPowerS v) ISS_ON (advance 1 es d))
        else (false, advance 1 es d)
    | None => (false, advance 1 es d)
    end.
Proof.
  unfold coil_reply_of, readCoilPowerState, bind. rewrite sendCommand_run.
  unfold sendCommand_result. cbn [negb].
  destruct (reply_of (tty (exchanges d))) as [res|];
    [|eexists; reflexivity].
  destruct (sscanf1 scan_u 0 res) as [rc temp].
  destruct (0 <? rc).
  - destruct (Z.eqb_spec temp 0) as [-> | H0].
    + eexists. reflexivity.
    + destruct (Z.eqb_spec temp 1) as [-> | H1].
      * eexists. reflexivity.
      * unfold LOG, emit, modify, ret, bind. rewrite add_event_advance.
        eexists. reflexivity.
  - unfold LOG, emit, modify, ret, bind. rewrite add_event_advance.
    eexists. reflexivity.
Qed.

Lemma readReverseDirection_run d :
  exists es,
    readReverseDirection tty d =
    match reverse_reply_of (tty (exchanges d)) with
    | Some v =>
        if (v =? 0) || (v =? 1)
        then (true, set_switch (FocusReverseS (1 - v)) ISS_ON (advance 1 es d))
        else (false, advance 1 es d)
    | None => (false, advance 1 es d)
    end.
Proof.
  unfold reverse_reply_of, readReverseDirection, bind. rewrite sendCommand_run.
  unfold sendCommand_result. cbn [negb].
  destruct (reply_of (tty (exchanges d))) as [res|];
    [|eexists; reflexivity].
  destruct (sscanf1 scan_d 0 res) as [rc temp].
  destruct (0 <? rc).
  - destruct (Z.eqb_spec temp 0) as [-> | H0].
    + eexists. reflexivity.
    + destruct (Z.eqb_spec temp 1) as [-> | H1].
      * eexists. reflexivity.
      * unfold LOG, emit, modify, ret, bind. rewrite add_event_advance.
        eexists. reflexivity.
  - unfold LOG, emit, modify, ret, bind. rewrite add_event_advance.
    eexists. reflexivity.
Qed.

End SwitchReads.

(** X3.  [readCoilPowerState] accepts the replies 0 and 1 only.  On an
    accepted reply [v] it turns the switch of index [v] on and leaves
    every other switch alone: it never turns a switch off, so a switch
    that was on stays on, the opposite coil-power switch included.  On
    any other outcome it answers false and changes no switch. *)
Theorem readCoilPowerState_only_turns_on (tty : Transport) (d : Driver) :
  let x := tty (exchanges d) in
  let d' := exec (readCoilPowerState tty) d in
  (forall k, switch d k = ISS_ON -> switch d' k = ISS_ON)
  /\ (forall v, coil_reply_of x = Some v -> v = 0 \/ v = 1 ->
        eval (readCoilPowerState tty) d = true
        /\ switch d' (CoilPowerS v) = ISS_ON
        /\ forall k, k <> CoilPowerS v -> switch d' k = switch d k)
  /\ ((forall v, coil_reply_of x = Some v -> v <> 0 /\ v <> 1) ->
        eval (readCoilPowerState tty) d = false
        /\ forall k, switch d' k = switch d k).
Proof.
  cbv zeta. unfold eval, exec.
  destruct (readCoilPowerState_run tty d) as (es & E). rewrite E. clear E.
  destruct (coil_reply_of (tty (exchanges d))) as [v|].
  - destruct ((v =? 0) || (v =? 1)) eqn:Hv.
    + cbn [fst snd]. split; [|split].
      * intros k Hk. rewrite switch_set_switch.
        destruct (Switch_eqb k (CoilPowerS v)); [reflexivity | exact Hk].
      * intros v' [= <-] _. split; [reflexivity|]. split.
        -- rewrite switch_set_switch.
           now rewrite (proj2 (Switch_eqb_eq _ _) eq_refl).
        -- intros k Hk. rewrite switch_set_switch.
           destruct (Switch_eqb k (CoilPowerS v)) eqn:Ek; [|reflexivity].
           apply Switch_eqb_eq in Ek. contradiction.
      * intros H. destruct (H v eq_refl) as [H0 H1].
        apply orb_true_iff in Hv.
        destruct Hv as [Hv | Hv]; apply Z.eqb_eq in Hv; contradiction.
    + cbn [fst snd]. split; [|split].
      * intros k Hk. exact Hk.
      * intros v' [= <-] Hor. apply orb_false_iff in Hv.
        destruct Hv as [H0 H1].
        apply Z.eqb_neq in H0. apply Z.eqb_neq in H1. lia.
      * intros _. split; reflexivity.
  - cbn [fst snd]. split; [|split].
    + intros k Hk. exact Hk.
    + intros v [=].
    + intros _. split; reflexivity.
Qed.

(** After start-up the switch "On" is on; the device answering 0 turns
    "Off" on as well, and "On" stays on. *)
Lemma readCoilPowerState_only_turns_on_witness :
  switch fresh (CoilPowerS COIL_POWER_ON) = ISS_ON
  /\ switch (exec (readCoilPowerState (script [answer "0#"] broken)) fresh)
       (CoilPowerS COIL_POWER_ON) = ISS_ON
  /\ switch (exec (readCoilPowerState (script [answer "0#"] broken)) fresh)
       (CoilPowerS COIL_POWER_OFF) = ISS_ON.
Proof.
  destruct (readCoilPowerState_only_turns_on
              (script [answer "0#"] broken) fresh) as (Hon & Hacc & _).
  cbv zeta in *.
  split; [reflexivity|]. split.
  - apply Hon. reflexivity.
  - destruct (Hacc 0 eq_refl (or_introl eq_refl)) as (_ & H & _). exact H.
Defined.

(** X4.  [readReverseDirection] accepts the replies 0 and 1 only: 0
    turns the switch [INDI_DISABLED] on, 1 the switch [INDI_ENABLED].
    Every other switch is left alone and none is turned off; on any
    other outcome it answers false and changes no switch. *)
Theorem readReverseDirection_only_turns_on (tty : Transport) (d : Driver) :
  let x := tty (exchanges d) in
  let d' := exec (readReverseDirection tty) d in
  (forall k, switch d k = ISS_ON -> switch d' k = ISS_ON)
  /\ (forall v, reverse_reply_of x = Some v -> v = 0 \/ v = 1 ->
        eval (readReverseDirection tty) d = true
        /\ switch d' (FocusReverseS (if v =? 0 then INDI_DISABLED
                                     else INDI_ENABLED)) = ISS_ON
        /\ forall k, k <> FocusReverseS (1 - v) -> switch d' k = switch d k)
  /\ ((forall v, reverse_reply_of x = Some v -> v <> 0 /\ v <> 1) ->
        eval (readReverseDirection tty) d = false
        /\ forall k, switch d' k = switch d k).
Proof.
  cbv zeta. unfold eval, exec.
  destruct (readReverseDirection_run tty d) as (es & E). rewrite E. clear E.
  destruct (reverse_reply_of (tty (exchanges d))) as [v|].
  - destruct ((v =? 0) || (v =? 1)) eqn:Hv.
    + cbn [fst snd]. split; [|split].
      * intros k Hk. rewrite switch_set_switch.
        destruct (Switch_eqb k (FocusReverseS (1 - v))); [reflexivity | exact Hk].
      * intros v' [= <-] Hor. split; [reflexivity|]. split.
        -- rewrite switch_set_switch.
           destruct Hor as [-> | ->]; reflexivity.
        -- intros k Hk. rewrite switch_set_switch.
           destruct (Switch_eqb k (FocusReverseS (1 - v))) eqn:Ek;
             [|reflexivity].
           apply Switch_eqb_eq in Ek. contradiction.
      * intros H. destruct (H v eq_refl) as [H0 H1].
        apply orb_true_iff in Hv.
        destruct Hv as [Hv | Hv]; apply Z.eqb_eq in Hv; contradiction.
    + cbn [fst snd]. split; [|split].
      * intros k Hk. exact Hk.
      * intros v' [= <-] Hor. apply orb_false_iff in Hv.
        destruct Hv as [H0 H1].
        apply Z.eqb_neq in H0. apply Z.eqb_neq in H1. lia.
      * intros _. split; reflexivity.
  - cbn [fst snd]. split; [|split].
    + intros k Hk. exact Hk.
    + intros v [=].
    + intros _. split; reflexivity.
Qed.

(** The device answering 1 turns [INDI_ENABLED] on. *)
Lemma readReverseDirection_only_turns_on_witness :
  reverse_reply_of (script [answer "1#"] broken (exchanges fresh)) = Some 1
  /\ eval (readReverseDirection (script [answer "1#"] broken)) fresh = true
  /\ switch (exec (readReverseDirection (script [answer "1#"] broken)) fresh)
       (FocusReverseS INDI_ENABLED) = ISS_ON.
Proof.
  destruct (readReverseDirection_only_turns_on
              (script [answer "1#"] broken) fresh) as (_ & Hacc & _).
  cbv zeta in *.
  destruct (Hacc 1 eq_refl (or_intror eq_refl)) as (He & H & _).
  split; [reflexivity|]. split; [exact He | exact H].
Defined.

(** A number too long for [unsigned long] or [long] is not read as 0:
    ["%u"] stores 4294967295 and ["%d"] stores -1, so both readers log
    an invalid response and answer false. *)
Example switch_reads_reject_an_overlong_number :
  coil_reply_of (answer "18446744073709551616#") = Some 4294967295
  /\ eval (readCoilPowerState (script [answer "18446744073709551616#"] broken))
       fresh = false
  /\ reverse_reply_of (answer "18446744073709551616#") = Some (-1)
  /\ eval (readReverseDirection
             (script [answer "18446744073709551616#"] broken)) fresh = false.
Proof. repeat split; vm_compute; reflexivity. Qed.

(** ** Integer replies: ["%i"] *)

Section IntegerReplies.

Local Open Scope string_scope.

Lemma digit_char_zero d : 0 <= d < 10 -> digit_char d = "0"%char -> d = 0.
Proof.
  intros Hd H. apply (f_equal code) in H.
  rewrite code_digit_char in H by exact Hd.
  change (code "0") with 48 in H. lia.
Qed.

(** The first digit [decimal_aux] writes for a positive number is not a
    zero. *)
Lemma decimal_aux_leading (fuel : nat) :
  forall n acc, (1 <= fuel)%nat -> 0 < n < 10 ^ Z.of_nat fuel ->
  exists c t, decimal_aux fuel n acc = String c t
              /\ is_decimal c = true /\ c <> "0"%char.
Proof.
  induction fuel as [|fuel IH]; intros n acc Hf Hn; [lia|].
  simpl decimal_aux.
  assert (Hd : 0 <= n mod 10 < 10) by (apply Z.mod_pos_bound; lia).
  assert (Hq : n = 10 * (n / 10) + n mod 10) by (apply Z.div_mod; lia).
  destruct (Z.eqb_spec (n / 10) 0) as [E | E].
  - exists (digit_char (n mod 10)), acc. split; [reflexivity|]. split.
    + now apply is_decimal_digit_char.
    + intros H. apply digit_char_zero in H; [lia | exact Hd].
  - assert (Hq0 : 0 < n / 10).
    { assert (0 <= n / 10) by (apply Z.div_pos; lia). lia. }
    assert (Hfuel : (1 <= fuel)%nat).
    { destruct fuel; [|lia]. simpl in Hn. lia. }
    apply IH; [exact Hfuel|]. split; [lia|].
    apply Z.div_lt_upper_bound; [lia|].
    rewrite <- Z.pow_succ_r by lia. rewrite <- Nat2Z.inj_succ. lia.
Qed.

Lemma decimal_leading n :
  0 < n ->
  exists c t, decimal n = String c t /\ is_decimal c = true /\ c <> "0"%char.
Proof.
  intros Hn. unfold decimal.
  apply decimal_aux_leading; [lia|]. split; [exact Hn|].
  rewrite Nat2Z.inj_succ, Z2Nat.id by apply Z.log2_nonneg.
  apply Z.lt_le_trans with (2 ^ Z.succ (Z.log2 n)).
  - apply Z.log2_spec. exact Hn.
  - apply Z.pow_le_mono_l. pose proof (Z.log2_nonneg n). lia.
Qed.

(** A number that does not start with a zero is read in base 10. *)
Lemma scan_magnitude_i_decimal c t :
  c <> "0"%char -> scan_magnitude_i (String c t) = scan_magnitude 10 (String c t).
Proof.
  intros Hc. unfold scan_magnitude_i.
  destruct c as [[] [] [] [] [] [] [] []]; try reflexivity.
  exfalso. apply Hc. reflexivity.
Qed.

(** ["%i"] on the decimal digits of a number, with or without a minus
    sign. *)
Lemma scan_i_decimal (neg : bool) (p : Z) (rest : string) :
  0 <= p <= INT32_MAX -> starts_digit 10 rest = false ->
  starts_digit 8 rest = false ->
  Ascii.eqb (match rest with String r _ => r | EmptyString => "#"%char end) "x"
  || Ascii.eqb (match rest with String r _ => r | EmptyString => "#"%char end) "X"
  = false ->
  scan_i ((if neg then "-" else "") ++ decimal p ++ rest)
  = ConvOk (if neg then - p else p) rest.
Proof.
  intros Hp Hr Hr8 Hx.
  destruct (decimal_spec p ltac:(lia)) as (Hd & Hv & Hl & _).
  assert (Hne : decimal p <> "").
  { intros E. rewrite E in Hl. simpl in Hl. lia. }
  assert (Hmag : scan_magnitude_i (decimal p ++ rest) = Some (p, rest)).
  { destruct (Z.eq_dec p 0) as [-> | Hp0].
    - change (decimal 0) with "0". cbn [append].
      unfold scan_magnitude_i.
      destruct rest as [|r rest'].
      + reflexivity.
      + rewrite Hx. unfold scan_magnitude. cbn.
        cbn in Hr8. destruct (digit_in 8 r); [discriminate | reflexivity].
    - destruct (decimal_leading p ltac:(lia)) as (c & t & E & Hc & Hc0).
      rewrite E. cbn [append]. rewrite scan_magnitude_i_decimal by exact Hc0.
      change (String c (t ++ rest)) with (String c t ++ rest).
      rewrite <- E, scan_magnitude_digits by assumption. now rewrite Hv. }
  assert (Hfirst : exists c t, decimal p = String c t /\ is_decimal c = true).
  { destruct (decimal p) as [|c t]; [congruence|].
    simpl in Hd. apply andb_true_iff in Hd. destruct Hd as [Hc _].
    now exists c, t. }
  destruct Hfirst as (c & t & E & Hc).
  unfold scan_i, scan_conv. destruct neg.
  - cbn [append skip_space]. change (isspace "-") with false.
    cbn [scan_sign]. rewrite Hmag. f_equal.
    apply to_int32_strtol. unfold INT32_MIN, INT32_MAX in *. lia.
  - cbn [append]. rewrite E in *. cbn [append] in *.
    simpl skip_space. rewrite (isspace_decimal c Hc).
    rewrite (scan_sign_decimal c _ Hc), Hmag. f_equal.
    apply to_int32_strtol. unfold INT32_MIN, INT32_MAX in *. lia.
Qed.

Lemma digit_in_octal c :
  is_octal c = true -> digit_in 8 c = Some (code c - 48).
Proof.
  unfold is_octal, digit_in, digit_val. intros H.
  apply andb_true_iff in H. destruct H as [H1 H2].
  apply Z.leb_le in H1. apply Z.leb_le in H2.
  destruct (Z.leb_spec 48 (code c)); [|lia].
  destruct (Z.leb_spec (code c) 57); [|lia]. cbn [andb].
  destruct (Z.ltb_spec (code c - 48) 8); [reflexivity | lia].
Qed.

Lemma octal_not_x c :
  is_octal c = true -> Ascii.eqb c "x" || Ascii.eqb c "X" = false.
Proof.
  destruct c as [[] [] [] [] [] [] [] []]; try reflexivity;
    intros H; vm_compute in H; discriminate.
Qed.

Lemma scan_digits_octal s :
  forall acc rest,
    all_octal s = true -> starts_digit 8 rest = false ->
    scan_digits 8 acc (s ++ rest) = (octal_value_from acc s, rest).
Proof.
  induction s as [|c s IH]; intros acc rest Hs Hr; simpl.
  - destruct rest as [|r rest]; [reflexivity|]. simpl in *.
    destruct (digit_in 8 r); [discriminate | reflexivity].
  - simpl in Hs. apply andb_true_iff in Hs. destruct Hs as [Hc Hs].
    rewrite (digit_in_octal c Hc). now apply IH.
Qed.

(** ["%i"] on a zero followed by octal digits reads them in base 8. *)
Lemma scan_i_octal (s : string) :
  all_octal s = true -> octal_value s <= INT32_MAX ->
  scan_i ("0" ++ s ++ "#") = ConvOk (octal_value s) "#".
Proof.
  intros Hs Hmax.
  assert (Hnn : forall t acc, all_octal t = true -> 0 <= acc ->
                              0 <= octal_value_from acc t).
  { induction t as [|c t IH]; intros acc Ht Hacc; simpl; [exact Hacc|].
    simpl in Ht. apply andb_true_iff in Ht. destruct Ht as [Hc Ht].
    apply IH; [exact Ht|]. unfold is_octal in Hc.
    apply andb_true_iff in Hc. destruct Hc as [Hc _]. apply Z.leb_le in Hc.
    lia. }
  assert (Hmag : scan_magnitude_i ("0" ++ s ++ "#")
                 = Some (octal_value s, "#")).
  { cbn [append]. unfold scan_magnitude_i.
    assert (Hx : forall x t, s ++ "#" = String x t ->
                             Ascii.eqb x "x" || Ascii.eqb x "X" = false).
    { intros x t E. destruct s as [|c s'].
      - cbn in E. injection E as <- _. reflexivity.
      - cbn in E. injection E as <- _. simpl in Hs.
        apply andb_true_iff in Hs. destruct Hs as [Hc _].
        now apply octal_not_x. }
    destruct (s ++ "#") as [|x t] eqn:E.
    - destruct s; discriminate E.
    - rewrite (Hx x t eq_refl). rewrite <- E.
      unfold scan_magnitude. cbn [starts_digit].
      change (digit_in 8 "0") with (Some 0).
      cbn [scan_digits]. change (digit_in 8 "0") with (Some 0).
      cbv beta iota. change (0 * 8 + 0) with 0.
      now rewrite scan_digits_octal. }
  unfold scan_i, scan_conv. cbn [append] in *. cbn [skip_space].
  change (isspace "0") with false. cbn [scan_sign]. rewrite Hmag.
  f_equal. apply to_int32_strtol. unfold INT32_MIN, INT32_MAX in *.
  specialize (Hnn s 0 Hs ltac:(lia)). unfold octal_value in *. lia.
Qed.

End IntegerReplies.

Section IntegerReads.

Variable tty : Transport.

Lemma errors_sendCommand_events_failed x cmd :
  reply_of x = None ->
  List.length (errors (sendCommand_events x cmd true false)) = 1%nat.
Proof.
  unfold reply_of, sendCommand_events.
  destruct (on_write x); [|reflexivity].
  destruct (on_read x); [discriminate | reflexivity].
Qed.

(** A reader built on ["%i#"]: [readPosition] and [readSpeed] differ in
    the command, the number they set and the wording of the error. *)
Lemma readPosition_outcome d :
  let x := tty (exchanges d) in
  exists es,
    written es = [":GP#"] /\ line_only es
    /\ match position_of x with
       | Some p =>
           readPosition tty d
           = (true, set_value FocusAbsPosN p (advance 1 es d))
           /\ errors es = []
       | None =>
           readPosition tty d = (false, advance 1 es d)
           /\ List.length (errors es) = 1%nat
       end.
Proof.
  cbv zeta. unfold position_of, readPosition, bind. rewrite sendCommand_run.
  unfold sendCommand_result. cbn [negb].
  destruct (reply_of (tty (exchanges d))) as [res|] eqn:Hr.
  - destruct (sscanf1 scan_i 0 res) as [rc pos].
    destruct (0 <? rc).
    + eexists. split; [|split; [|split; [reflexivity|]]].
      * apply written_sendCommand_events.
      * apply line_only_sendCommand_events.
      * eapply errors_sendCommand_events_reply. exact Hr.
    + unfold LOG, emit, modify, ret, bind. rewrite add_event_advance.
      eexists. split; [|split; [|split; [reflexivity|]]].
      * now autorewrite with events.
      * apply line_only_app;
          [apply line_only_sendCommand_events | apply line_only_Log].
      * autorewrite with events.
        now rewrite (errors_sendCommand_events_reply _ _ _ _ _ Hr).
  - eexists. split; [|split; [|split; [reflexivity|]]].
    + apply written_sendCommand_events.
    + apply line_only_sendCommand_events.
    + now apply errors_sendCommand_events_failed.
Qed.

Lemma readSpeed_outcome d :
  let x := tty (exchanges d) in
  exists es,
    written es = [":GD#"] /\ line_only es
    /\ match speed_of x with
       | Some p =>
           readSpeed tty d
           = (true, set_value FocusSpeedN p (advance 1 es d))
           /\ errors es = []
       | None =>
           readSpeed tty d = (false, advance 1 es d)
           /\ List.length (errors es) = 1%nat
       end.
Proof.
  cbv zeta. unfold speed_of, readSpeed, bind. rewrite sendCommand_run.
  unfold sendCommand_result. cbn [negb].
  destruct (reply_of (tty (exchanges d))) as [res|] eqn:Hr.
  - destruct (sscanf1 scan_i 0 res) as [rc pos].
    destruct (0 <? rc).
    + eexists. split; [|split; [|split; [reflexivity|]]].
      * apply written_sendCommand_events.
      * apply line_only_sendCommand_events.
      * eapply errors_sendCommand_events_reply. exact Hr.
    + unfold LOG, emit, modify, ret, bind. rewrite add_event_advance.
      eexists. split; [|split; [|split; [reflexivity|]]].
      * now autorewrite with events.
      * apply line_only_app;
          [apply line_only_sendCommand_events | apply line_only_Log].
      * autorewrite with events.
        now rewrite (errors_sendCommand_events_reply _ _ _ _ _ Hr).
  - eexists. split; [|split; [|split; [reflexivity|]]].
    + apply written_sendCommand_events.
    + apply line_only_sendCommand_events.
    + now apply errors_sendCommand_events_failed.
Qed.

Lemma readTemperature_outcome d :
  let x := tty (exchanges d) in
  exists es,
    written es = [":GT#"] /\ line_only es
    /\ match temperature_of x with
       | Some t =>
           readTemperature tty d
           = (true, set_value TemperatureN t (advance 1 es d))
           /\ errors es = []
       | None =>
           readTemperature tty d = (false, advance 1 es d)
           /\ List.length (errors es) = 1%nat
       end.
Proof.
  cbv zeta. unfold temperature_of, readTemperature.
  rewrite read_fixed_point_run. cbv zeta.
  destruct (reply_of (tty (exchanges d))) as [res|] eqn:Hr.
  - destruct (sscanf_d_dot_d 0 0 res) as [[rc w] f].
    destruct (0 <? rc).
    + eexists. split; [|split; [|split; [reflexivity|]]].
      * apply written_sendCommand_events.
      * apply line_only_sendCommand_events.
      * eapply errors_sendCommand_events_reply. exact Hr.
    + rewrite add_event_advance.
      eexists. split; [|split; [|split; [reflexivity|]]].
      * now autorewrite with events.
      * apply line_only_app;
          [apply line_only_sendCommand_events | apply line_only_Log].
      * autorewrite with events.
        now rewrite (errors_sendCommand_events_reply _ _ _ _ _ Hr).
  - eexists. split; [|split; [|split; [reflexivity|]]].
    + apply written_sendCommand_events.
    + apply line_only_sendCommand_events.
    + now apply errors_sendCommand_events_failed.
Qed.

End IntegerReads.

(** X5.  A reply that is the decimal digits of a number up to 2^31 - 1,
    with or without a minus sign, followed by [#], is accepted by
    [readPosition] and by [readSpeed], which store the number, sign
    included, and log no error. *)
Theorem integer_reply_read_back
    (tty : Transport) (d : Driver) (neg : bool) (p : Z) :
  0 <= p <= INT32_MAX ->
  reply_of (tty (exchanges d))
    = Some ((if neg then "-" else "") ++ decimal p ++ "#")%string ->
  let v := if neg then - p else p in
  eval (readPosition tty) d = true
  /\ value (exec (readPosition tty) d) FocusAbsPosN = v
  /\ errors (emitted (readPosition tty) d) = []
  /\ eval (readSpeed tty) d = true
  /\ value (exec (readSpeed tty) d) FocusSpeedN = v
  /\ errors (emitted (readSpeed tty) d) = [].
Proof.
  intros Hp Hr v.
  pose proof (scan_i_decimal neg p "#" Hp eq_refl eq_refl eq_refl) as Hscan.
  assert (Hpos : position_of (tty (exchanges d)) = Some v).
  { unfold position_of, sscanf1. now rewrite Hr, Hscan. }
  assert (Hspd : speed_of (tty (exchanges d)) = Some v).
  { unfold speed_of, sscanf1. now rewrite Hr, Hscan. }
  destruct (readPosition_outcome tty d) as (es & _ & _ & Hrun).
  destruct (readSpeed_outcome tty d) as (es' & _ & _ & Hrun').
  cbv zeta in Hrun, Hrun'. rewrite Hpos in Hrun. rewrite Hspd in Hrun'.
  destruct Hrun as [E He]. destruct Hrun' as [E' He'].
  unfold eval, emitted, exec. rewrite E, E'.
  cbn [fst snd set_value advance trace value Number_eqb].
  rewrite !skipn_exact. repeat split; assumption.
Qed.

(** The device answering ["-250#"]: the position becomes -250. *)
Lemma integer_reply_read_back_witness :
  value (exec (readPosition (script [answer "-250#"] broken)) fresh)
    FocusAbsPosN = -250
  /\ value (exec (readSpeed (script [answer "-250#"] broken)) fresh)
       FocusSpeedN = -250.
Proof.
  destruct (integer_reply_read_back (script [answer "-250#"] broken)
              fresh true 250 ltac:(unfold INT32_MAX; lia) eq_refl)
    as (_ & Hp & _ & _ & Hs & _).
  split; [exact Hp | exact Hs].
Defined.

(** X6.  A reply that starts with a zero is read in base 8: for octal
    digits [s], [readPosition] and [readSpeed] take the reply [0 s #]
    as the number [s] denotes in base 8, so a zero-padded decimal
    position does not come back as itself. *)
Theorem zero_padded_reply_read_as_octal
    (tty : Transport) (d : Driver) (s : string) :
  all_octal s = true -> octal_value s <= INT32_MAX ->
  reply_of (tty (exchanges d)) = Some ("0" ++ s ++ "#")%string ->
  eval (readPosition tty) d = true
  /\ value (exec (readPosition tty) d) FocusAbsPosN = octal_value s
  /\ eval (readSpeed tty) d = true
  /\ value (exec (readSpeed tty) d) FocusSpeedN = octal_value s.
Proof.
  intros Hs Hmax Hr.
  pose proof (scan_i_octal s Hs Hmax) as Hscan.
  assert (Hpos : position_of (tty (exchanges d)) = Some (octal_value s)).
  { unfold position_of, sscanf1. now rewrite Hr, Hscan. }
  assert (Hspd : speed_of (tty (exchanges d)) = Some (octal_value s)).
  { unfold speed_of, sscanf1. now rewrite Hr, Hscan. }
  destruct (readPosition_outcome tty d) as (es & _ & _ & Hrun).
  destruct (readSpeed_outcome tty d) as (es' & _ & _ & Hrun').
  cbv zeta in Hrun, Hrun'. rewrite Hpos in Hrun. rewrite Hspd in Hrun'.
  destruct Hrun as [E _]. destruct Hrun' as [E' _].
  unfold eval, exec. rewrite E, E'. repeat split.
Qed.

(** The nine digits a sync to 123 writes, sent back by the device, are
    read as 83. *)
Lemma zero_padded_reply_read_as_octal_witness :
  fmt_09i 123 = "000000123"%string
  /\ value (exec (readPosition (script [answer "000000123#"] broken)) fresh)
       FocusAbsPosN = 83.
Proof.
  destruct (zero_padded_reply_read_as_octal
              (script [answer "000000123#"] broken) fresh "00000123"
              eq_refl ltac:(vm_compute; discriminate) eq_refl)
    as (_ & Hp & _).
  split; [reflexivity | exact Hp].
Defined.

(** X7.  When the position, speed or temperature query fails, be it on
    the line or because the reply holds no number, the reader answers
    false, logs exactly one error, notifies nothing and leaves every
    property of the driver as it was. *)
Theorem failed_read_changes_nothing (tty : Transport) (d : Driver) :
  let x := tty (exchanges d) in
  (position_of x = None ->
     eval (readPosition tty) d = false
     /\ same_properties d (exec (readPosition tty) d)
     /\ List.length (errors (emitted (readPosition tty) d)) = 1%nat
     /\ notified (emitted (readPosition tty) d) = [])
  /\ (speed_of x = None ->
     eval (readSpeed tty) d = false
     /\ same_properties d (exec (readSpeed tty) d)
     /\ List.length (errors (emitted (readSpeed tty) d)) = 1%nat
     /\ notified (emitted (readSpeed tty) d) = [])
  /\ (temperature_of x = None ->
     eval (readTemperature tty) d = false
     /\ same_properties d (exec (readTemperature tty) d)
     /\ List.length (errors (emitted (readTemperature tty) d)) = 1%nat
     /\ notified (emitted (readTemperature tty) d) = []).
Proof.
  cbv zeta. split; [|split]; intros Hnone.
  - destruct (readPosition_outcome tty d) as (es & _ & (Hn & _) & Hrun).
    cbv zeta in Hrun. rewrite Hnone in Hrun. destruct Hrun as [E He].
    unfold eval, emitted, exec. rewrite E. cbn [fst snd advance trace].
    rewrite skipn_exact. repeat split; assumption.
  - destruct (readSpeed_outcome tty d) as (es & _ & (Hn & _) & Hrun).
    cbv zeta in Hrun. rewrite Hnone in Hrun. destruct Hrun as [E He].
    unfold eval, emitted, exec. rewrite E. cbn [fst snd advance trace].
    rewrite skipn_exact. repeat split; assumption.
  - destruct (readTemperature_outcome tty d) as (es & _ & (Hn & _) & Hrun).
    cbv zeta in Hrun. rewrite Hnone in Hrun. destruct Hrun as [E He].
    unfold eval, emitted, exec. rewrite E. cbn [fst snd advance trace].
    rewrite skipn_exact. repeat split; assumption.
Qed.

(** A reply without a number: the position stays what it was. *)
Lemma failed_read_changes_nothing_witness :
  position_of (script [answer "busy#"] broken (exchanges fresh)) = None
  /\ eval (readPosition (script [answer "busy#"] broken)) fresh = false
  /\ value (exec (readPosition (script [answer "busy#"] broken)) fresh)
       FocusAbsPosN = value fresh FocusAbsPosN.
Proof.
  destruct (failed_read_changes_nothing
              (script [answer "busy#"] broken) fresh) as (Hp & _ & _).
  destruct (Hp eq_refl) as (He & Hs & _).
  destruct Hs as (_ & _ & _ & _ & Hv & _).
  split; [reflexivity|]. split; [exact He | apply Hv].
Defined.

(** A bare [0x] is a number for ["%i"]: the position read from ["0x#"]
    is 0, and no error is logged. *)
Example bare_0x_reads_as_zero :
  position_of (answer "0x#") = Some 0
  /\ eval (readPosition (script [answer "0x#"] broken))
       (set_value FocusAbsPosN 55 fresh) = true
  /\ value (exec (readPosition (script [answer "0x#"] broken))
              (set_value FocusAbsPosN 55 fresh)) FocusAbsPosN = 0
  /\ errors (emitted (readPosition (script [answer "0x#"] broken))
               (set_value FocusAbsPosN 55 fresh)) = [].
Proof. repeat split; vm_compute; reflexivity. Qed.

(** ** Fixed-point replies without a fraction *)

Lemma sscanf_d_dot_d_whole (neg : bool) (w : string) :
  all_digits w = true -> w <> ""%string ->
  sscanf_d_dot_d 0 0 ((if neg then "-" else "") ++ w ++ "#")%string =
  (1, to_int32 (strtol (if neg then - digits_value w else digits_value w)),
   0).
Proof.
  intros Hw Hwn. unfold sscanf_d_dot_d.
  assert (Hwhole :
    scan_d ((if neg then "-" else "") ++ w ++ "#")%string =
    ConvOk (to_int32 (strtol (if neg then - digits_value w
                                else digits_value w))) "#").
  { destruct neg.
    - change ("-" ++ w ++ "#")%string with (String "-" (w ++ "#")).
      now apply scan_d_minus_digits.
    - change ("" ++ w ++ "#")%string with (w ++ "#")%string.
      now apply scan_d_digits. }
  now rewrite Hwhole.
Qed.

(** X8.  A reply that holds a whole number only, a sign and digits [w]
    followed by [#], is accepted by the three fixed-point readers: the
    fractional part counts as zero.  [readTemperature] stores the
    number as the temperature; [readTemperatureCalibration] stores it
    as the calibration and keeps the coefficient;
    [readTemperatureCoefficient] stores it as the coefficient and keeps
    the calibration. *)
Theorem fixed_point_reply_without_fraction
    (tty : Transport) (d : Driver) (neg : bool) (w : string) :
  all_digits w = true -> w <> ""%string -> digits_value w <= INT32_MAX ->
  reply_of (tty (exchanges d))
    = Some ((if neg then "-" else "") ++ w ++ "#")%string ->
  let v := float_of_int (if neg then - digits_value w else digits_value w) in
  let dcal := exec (readTemperatureCalibration tty) d in
  let dcoef := exec (readTemperatureCoefficient tty) d in
  eval (readTemperature tty) d = true
  /\ value (exec (readTemperature tty) d) TemperatureN = v
  /\ eval (readTemperatureCalibration tty) d = true
  /\ TemperatureSettingN dcal = (inject_Z v, snd (TemperatureSettingN d))
  /\ eval (readTemperatureCoefficient tty) d = true
  /\ TemperatureSettingN dcoef = (fst (TemperatureSettingN d), inject_Z v).
Proof.
  intros Hw Hwn Hmax Hr v dcal dcoef.
  pose proof (digits_value_nonneg w Hw) as Hw0.
  assert (Hfix : fixed_point
                   (to_int32 (strtol (if neg then - digits_value w
                                      else digits_value w)))
                   0 = v).
  { unfold fixed_point, idiv. change (Z.quot 0 10) with 0.
    rewrite Z.add_0_r.
    rewrite (to_int32_id (to_int32 _)) by apply to_int32_range.
    rewrite to_int32_strtol; [reflexivity|].
    unfold INT32_MIN, INT32_MAX in *. destruct neg; lia. }
  unfold dcal, dcoef, eval, exec, readTemperature, readTemperatureCalibration,
    readTemperatureCoefficient.
  rewrite !read_fixed_point_run. cbv zeta.
  rewrite Hr, (sscanf_d_dot_d_whole neg w Hw Hwn).
  cbn [Z.ltb Z.compare fst snd]. rewrite Hfix. repeat split.
Qed.

(** The device answering ["-7#"]: the temperature becomes -7. *)
Lemma fixed_point_reply_without_fraction_witness :
  value (exec (readTemperature (script [answer "-7#"] broken)) fresh)
    TemperatureN = -7.
Proof.
  destruct (fixed_point_reply_without_fraction
              (script [answer "-7#"] broken) fresh true "7"
              eq_refl ltac:(discriminate) ltac:(discriminate) eq_refl)
    as (_ & Hv & _).
  exact Hv.
Defined.

(** ** The start-up queries *)

Section Queries.

Variable tty : Transport.

Lemma queries_quiet {A} (m : M A) :
  (forall d, trace (exec m d) = trace d) ->
  (forall d, exchanges (exec m d) = exchanges d) ->
  (forall d v, status (exec m d) v = status d v) ->
  queries m [].
Proof.
  intros Ht He Hs d. exists []. rewrite Ht, app_nil_r, He.
  repeat split; auto.
Qed.

Lemma queries_ret {A} (a : A) : queries (ret a) [].
Proof. now apply queries_quiet. Qed.

Lemma queries_modify f :
  (forall d, trace (f d) = trace d) ->
  (forall d, exchanges (f d) = exchanges d) ->
  (forall d v, status (f d) v = status d v) ->
  queries (modify f) [].
Proof. intros Ht He Hs. now apply queries_quiet. Qed.

Lemma queries_LOG lvl msg : queries (LOG lvl msg) [].
Proof.
  intros d. exists [Log lvl msg]. repeat split. constructor.
Qed.

Lemma queries_IDSet v : v <> FocusReverseSP -> queries (IDSet_ v) [].
Proof.
  intros Hv d. exists [IDSet v (status d v)]. repeat split.
  constructor; [exact Hv | constructor].
Qed.

Lemma queries_bind {A B} (m : M A) (k : A -> M B) c1 c2 :
  queries m c1 -> (forall a, queries (k a) c2) ->
  queries (bind m k) (c1 ++ c2).
Proof.
  intros Hm Hk d. destruct (Hm d) as (es1 & E1 & W1 & X1 & S1 & N1).
  unfold exec, bind in *. destruct (m d) as [a d1]. cbn [snd] in *.
  destruct (Hk a d1) as (es2 & E2 & W2 & X2 & S2 & N2). unfold exec in *.
  exists (es1 ++ es2). split; [|split; [|split; [|split]]].
  - rewrite E2, E1. now rewrite app_assoc.
  - rewrite written_app. now rewrite W1, W2.
  - rewrite X2, X1, length_app. lia.
  - intros v. now rewrite S2, S1.
  - rewrite notified_app. apply Forall_app. now split.
Qed.

Lemma queries_bind_at (n : nat) {A B} (m : M A) (k : A -> M B) cmds :
  queries m (firstn n cmds) -> (forall a, queries (k a) (skipn n cmds)) ->
  queries (bind m k) cmds.
Proof.
  intros Hm Hk. rewrite <- (firstn_skipn n cmds). now apply queries_bind.
Qed.

Lemma queries_sendCommand cmd res silent nret :
  queries (sendCommand tty cmd res silent nret) [cmd].
Proof.
  intros d. unfold exec. rewrite sendCommand_run. eexists.
  split; [reflexivity|]. autorewrite with events.
  repeat split. constructor.
Qed.

End Queries.

Create HintDb queries discriminated.
#[local] Hint Constants Opaque : queries.

(** Checking a method against the exact list of its commands. *)
Ltac queries_now :=
  lazymatch goal with
  | |- queries (ret _) _ => apply queries_ret
  | |- queries (modify _) _ =>
      apply queries_modify; intros; reflexivity
  | |- queries (LOG _ _) _ => apply queries_LOG
  | |- queries (IDSet_ _) _ => apply queries_IDSet; discriminate
  | |- queries (when ?b _) _ => destruct b; cbn [when]; queries_now
  | |- queries (bind _ _) _ =>
      first [ queries_split 0%nat | queries_split 1%nat ]
  | |- queries (if ?b then _ else _) _ => destruct b; queries_now
  | |- queries (match ?x with _ => _ end) _ => destruct x; queries_now
  | |- queries (sendCommand _ _ _ _ _) _ => apply queries_sendCommand
  | |- queries _ _ => solve [auto with queries nocore]
  end
with queries_split n :=
  apply (queries_bind_at n); cbn [firstn skipn];
  [solve [queries_now] | intros; solve [queries_now]].

Section QueriesOfReaders.

Variable tty : Transport.

Lemma queries_readPosition : queries (readPosition tty) [":GP#"].
Proof. unfold readPosition. queries_now. Qed.

Lemma queries_readSpeed : queries (readSpeed tty) [":GD#"].
Proof. unfold readSpeed. queries_now. Qed.

Lemma queries_readCoilPowerState : queries (readCoilPowerState tty) [":GE#"].
Proof. unfold readCoilPowerState. queries_now. Qed.

Lemma queries_readReverseDirection :
  queries (readReverseDirection tty) [":GR#"].
Proof. unfold readReverseDirection. queries_now. Qed.

Lemma queries_read_fixed_point cmd store :
  (forall v d, trace (store v d) = trace d) ->
  (forall v d, exchanges (store v d) = exchanges d) ->
  (forall v d w, status (store v d) w = status d w) ->
  queries (read_fixed_point tty cmd store) [cmd].
Proof.
  intros Ht He Hs. unfold read_fixed_point.
  apply (queries_bind_at 1); cbn [firstn skipn].
  - apply queries_sendCommand.
  - intros [res|]; [|apply queries_ret].
    destruct (sscanf_d_dot_d 0 0 res) as [[rc w] f].
    destruct (0 <? rc).
    + apply (queries_bind_at 0); cbn [firstn skipn].
      * apply queries_modify; intros; auto.
      * intros. apply queries_ret.
    + queries_now.
Qed.

Lemma queries_readTemperature : queries (readTemperature tty) [":GT#"].
Proof. apply queries_read_fixed_point; reflexivity. Qed.

Lemma queries_readTemperatureCalibration :
  queries (readTemperatureCalibration tty) [":GO#"].
Proof. apply queries_read_fixed_point; reflexivity. Qed.

Lemma queries_readTemperatureCoefficient :
  queries (readTemperatureCoefficient tty) [":GC#"].
Proof. apply queries_read_fixed_point; reflexivity. Qed.

End QueriesOfReaders.

#[local] Hint Resolve queries_readPosition queries_readSpeed
  queries_readCoilPowerState queries_readReverseDirection
  queries_readTemperature queries_readTemperatureCalibration
  queries_readTemperatureCoefficient : queries.

Lemma queries_GetFocusParams tty :
  queries (GetFocusParams tty)
    [":GP#"; ":GT#"; ":GD#"; ":GE#"; ":GO#"; ":GC#"; ":GR#"].
Proof. unfold GetFocusParams. queries_now. Qed.

(** X9.  [GetFocusParams] always asks its seven questions, in the same
    order, one exchange each: a question that fails stops none of the
    later ones.  It changes no status, and it never notifies the
    reverse-direction vector, whatever [readReverseDirection] finds.
    [updateProperties] asks the same seven questions when the driver is
    connected and nothing when it is not, and answers true either
    way. *)
Theorem GetFocusParams_asks_everything (tty : Transport) (d : Driver) :
  let d' := exec (GetFocusParams tty) d in
  written (emitted (GetFocusParams tty) d)
    = [":GP#"; ":GT#"; ":GD#"; ":GE#"; ":GO#"; ":GC#"; ":GR#"]
  /\ exchanges d' = (7 + exchanges d)%nat
  /\ (forall v, status d' v = status d v)
  /\ Forall (fun p => fst p <> FocusReverseSP)
       (notified (emitted (GetFocusParams tty) d))
  /\ written (emitted (updateProperties tty) d)
     = (if connected d
        then [":GP#"; ":GT#"; ":GD#"; ":GE#"; ":GO#"; ":GC#"; ":GR#"]
        else [])
  /\ eval (updateProperties tty) d = true.
Proof.
  cbv zeta.
  destruct (queries_GetFocusParams tty d) as (es & E & W & X & S & N).
  rewrite (emitted_of _ _ _ E).
  split; [exact W|]. split; [exact X|]. split; [exact S|]. split; [exact N|].
  unfold emitted, eval, exec in *. unfold updateProperties, bind, gets.
  destruct (connected d); cbn [when].
  - unfold bind. destruct (GetFocusParams tty d) as [[] d1]. cbn [snd] in E.
    unfold LOG, emit, modify, ret. cbn. rewrite E, <- app_assoc, skipn_exact.
    autorewrite with events. rewrite W. split; reflexivity.
  - cbn. rewrite <- (app_nil_r (trace d)) at 2. rewrite skipn_exact.
    split; reflexivity.
Qed.

(** ** The poll, beyond what it reports *)

Lemma skipn_length {A} (l : list A) : skipn (List.length l) l = [].
Proof. rewrite <- (app_nil_r l) at 2. apply skipn_exact. Qed.

Lemma TimerHit_connected (tty : Transport) (d : Driver) :
  connected d = true ->
  let busy := IPState_eqb (status d FocusAbsPosNP) IPS_BUSY
              || IPState_eqb (status d FocusRelPosNP) IPS_BUSY in
  let stopped := negb (moving_flag (tty (S (S (exchanges d))))) in
  let d' := exec (TimerHit tty) d in
  written (emitted (TimerHit tty) d)
    = [":GP#"; ":GT#"] ++ (if busy then [":GI#"] else [])
  /\ polls (emitted (TimerHit tty) d) = 1%nat
  /\ timers (emitted (TimerHit tty) d) = []
  /\ (forall v, status d' v
                = if busy && stopped
                     && (Vector_eqb v FocusAbsPosNP || Vector_eqb v FocusRelPosNP)
                  then IPS_OK else status d v)
  /\ targetPos d' = targetPos d.
Proof.
  intros Hc. cbv zeta. unfold emitted, exec.
  remember (TimerHit tty d) as r eqn:E.
  unfold TimerHit, position_moved, temperature_moved in E.
  unfold bind, gets, modify, IDSet_, LOG, emit, when, ret in E.
  rewrite Hc in E. cbn [negb] in E.
  destruct (readPosition_outcome tty d) as (es0 & W0 & (N0 & T0 & S0 & P0) & R0).
  cbv zeta in R0.
  destruct (position_of (tty (exchanges d))) as [p|];
    destruct R0 as [E0 _]; rewrite E0 in E; clear E0;
    cbn -[Qle_bool Qabs inject_Z double_to_uint32 Z.abs Z.ltb Z.sub] in E;
    [destruct (5 <? Z.abs (lastPos d - p))|];
    (match type of E with
     | context [readTemperature tty ?s] =>
         destruct (readTemperature_outcome tty s) as (es1 & W1 & (N1 & T1 & S1 & P1) & R1);
         cbv zeta in R1;
         cbn -[Qle_bool Qabs inject_Z double_to_uint32 Z.abs Z.ltb Z.sub
               temperature_of readTemperature] in R1
     end);
    (destruct (temperature_of (tty (S (exchanges d)))) as [t|];
     destruct R1 as [E1 _];
     cbn -[Qle_bool Qabs inject_Z double_to_uint32 Z.abs Z.ltb Z.sub
           readTemperature] in E;
     rewrite E1 in E; clear E1;
     cbn -[Qle_bool Qabs inject_Z double_to_uint32] in E;
     [destruct (Qle_bool (1 # 2) (Qabs (inject_Z (lastTemperature d - t))))|]);
    cbn -[double_to_uint32] in E;
    destruct (IPState_eqb (status d FocusAbsPosNP) IPS_BUSY
              || IPState_eqb (status d FocusRelPosNP) IPS_BUSY);
    cbn -[double_to_uint32] in E;
    try (rewrite isMoving_run in E; cbv zeta in E;
         cbn -[sendCommand_events double_to_uint32 isMoving_events] in E;
         destruct (moving_flag (tty (S (S (exchanges d)))));
         cbn -[sendCommand_events double_to_uint32 isMoving_events] in E);
    subst r; cbn -[sendCommand_events double_to_uint32 isMoving_events];
    rewrite <- ?app_assoc, skipn_exact; autorewrite with events;
    rewrite ?W0, ?W1, ?P0, ?P1, ?T0, ?T1;
    try (destruct (line_only_isMoving_events (tty (S (S (exchanges d)))))
           as (_ & Tm & _ & Pm); rewrite ?Tm, ?Pm);
    (split; [reflexivity|]); (split; [reflexivity|]);
    (split; [reflexivity|]); (split; [|reflexivity]);
    intros v; destruct v; reflexivity.
Qed.

(** X10.  A poll of a disconnected driver does nothing at all: no
    command, no event, no request for the next poll.  A poll of a
    connected driver asks for the position and the temperature, asks
    whether the device moves exactly when the absolute or the relative
    position is Busy, requests the next poll exactly once and arms no
    one-shot timer.  It sets both statuses to Ok when one of them was
    Busy and the device does not say it moves, and changes no other
    status; a motion query that fails counts as the device having
    stopped. *)
Theorem TimerHit_polls (tty : Transport) (d : Driver) :
  let busy := IPState_eqb (status d FocusAbsPosNP) IPS_BUSY
              || IPState_eqb (status d FocusRelPosNP) IPS_BUSY in
  let stopped := negb (moving_flag (tty (S (S (exchanges d))))) in
  let d' := exec (TimerHit tty) d in
  (connected d = false -> d' = d /\ emitted (TimerHit tty) d = [])
  /\ (connected d = true ->
      written (emitted (TimerHit tty) d)
        = [":GP#"; ":GT#"] ++ (if busy then [":GI#"] else [])
      /\ polls (emitted (TimerHit tty) d) = 1%nat
      /\ timers (emitted (TimerHit tty) d) = []
      /\ (forall v, status d' v
                    = if busy && stopped
                         && (Vector_eqb v FocusAbsPosNP
                             || Vector_eqb v FocusRelPosNP)
                      then IPS_OK else status d v))
  /\ (connected d = true -> busy = true ->
      reply_of (tty (S (S (exchanges d)))) = None ->
      status d' FocusAbsPosNP = IPS_OK /\ status d' FocusRelPosNP = IPS_OK).
Proof.
  cbv zeta. split; [|split].
  - intros Hc. unfold emitted, exec, TimerHit, bind, gets. rewrite Hc.
    cbn. split; [reflexivity | apply skipn_length].
  - intros Hc.
    destruct (TimerHit_connected tty d Hc) as (Hw & Hp & Ht & Hs & _).
    cbv zeta in *. auto.
  - intros Hc Hb Hr.
    destruct (TimerHit_connected tty d Hc) as (_ & _ & _ & Hs & _).
    cbv zeta in Hs. rewrite Hb in Hs. unfold moving_flag in Hs.
    rewrite Hr in Hs. split; rewrite Hs; reflexivity.
Qed.

(** An absolute move is Busy and the line goes dead at the motion
    query: the move is declared finished. *)
Lemma TimerHit_polls_witness :
  status (exec (TimerHit (script [answer "10#"; answer "20.0#"] broken))
            (set_status FocusAbsPosNP IPS_BUSY fresh)) FocusAbsPosNP = IPS_OK
  /\ written (emitted (TimerHit (script [answer "10#"; answer "20.0#"] broken))
                (set_status FocusAbsPosNP IPS_BUSY fresh))
     = [":GP#"; ":GT#"; ":GI#"]
  /\ exec (TimerHit (script [] broken))
       (mkDriver false 0 0 0 (value fresh) 0 1000000 (TemperatureSettingN fresh)
          (status fresh) (switch fresh) 0 [])
     = mkDriver false 0 0 0 (value fresh) 0 1000000 (TemperatureSettingN fresh)
         (status fresh) (switch fresh) 0 [].
Proof.
  destruct (TimerHit_polls (script [answer "10#"; answer "20.0#"] broken)
              (set_status FocusAbsPosNP IPS_BUSY fresh))
    as (_ & Hcon & Hdead).
  destruct (Hcon eq_refl) as (Hw & _).
  destruct (Hdead eq_refl eq_refl eq_refl) as (Ha & _).
  destruct (TimerHit_polls (script [] broken)
              (mkDriver false 0 0 0 (value fresh) 0 1000000
                 (TemperatureSettingN fresh) (status fresh) (switch fresh) 0 []))
    as (Hoff & _).
  destruct (Hoff eq_refl) as (Hsame & _).
  split; [exact Ha|]. split; [exact Hw | exact Hsame].
Defined.

(** ** Switch requests *)

(** X11.  A temperature-compensation request that turns exactly one of
    Enable and Disable on, on a vector that had exactly one of them on,
    writes [:+#] for Enable and [:-#] for Disable.  When the write goes
    through the request succeeds, the vector is Ok and holds the
    requested states.  When it fails the request fails, the vector is
    in Alert and the two switches are back to what they were.  Either
    way the vector is notified once, with that status. *)
Theorem ISNewSwitch_compensation_rolls_back
    (tty : Transport) (d : Driver) (states : ISState * ISState) :
  switch d (TemperatureCompensateS 0) <> switch d (TemperatureCompensateS 1) ->
  fst states <> snd states ->
  let sent := write_ok (tty (exchanges d)) in
  let d' := exec (ISNewSwitch tty true "T. Compensate" states) d in
  written (emitted (ISNewSwitch tty true "T. Compensate" states) d)
    = [if ISState_eqb (fst states) ISS_ON then ":+#" else ":-#"]
  /\ eval (ISNewSwitch tty true "T. Compensate" states) d = Some sent
  /\ status d' TemperatureCompensateSP = (if sent then IPS_OK else IPS_ALERT)
  /\ (switch d' (TemperatureCompensateS 0), switch d' (TemperatureCompensateS 1))
     = (if sent then states
        else (switch d (TemperatureCompensateS 0),
              switch d (TemperatureCompensateS 1)))
  /\ notified (emitted (ISNewSwitch tty true "T. Compensate" states) d)
     = [(TemperatureCompensateSP, if sent then IPS_OK else IPS_ALERT)].
Proof.
  intros Hpre Hreq. cbv zeta. unfold emitted, eval, exec.
  remember (ISNewSwitch tty true "T. Compensate" states d) as r eqn:E.
  unfold ISNewSwitch in E. cbn [negb String.eqb Ascii.eqb Bool.eqb] in E.
  unfold IUFindOnSwitchIndex, IUUpdateSwitch, IUResetSwitch, switch_on,
    setTemperatureCompensation, IDSet_, emit, when in E.
  unfold bind, gets, modify, ret in E.
  destruct states as [r0 r1]. cbn [fst snd] in *.
  destruct (switch d (TemperatureCompensateS 0)) eqn:Ea;
    destruct (switch d (TemperatureCompensateS 1)) eqn:Eb;
    try congruence;
    destruct r0, r1; try congruence;
    cbn -[sendCommand_ snprintf cat] in E;
    rewrite ?Ea, ?Eb in E; cbn -[sendCommand_ snprintf cat] in E;
    rewrite sendCommand__run in E;
    cbn -[sendCommand_events snprintf cat] in E;
    destruct (write_ok (tty (exchanges d)));
    cbn -[sendCommand_events snprintf cat] in E;
    subst r; cbn -[sendCommand_events snprintf cat];
    rewrite <- ?app_assoc, skipn_exact; autorewrite with events;
    rewrite ?Ea, ?Eb; repeat split.
Qed.

(** From the start-up state, where Disable is on: a request for Enable
    on a dead line leaves Disable on and the vector in Alert. *)
Lemma ISNewSwitch_compensation_rolls_back_witness :
  switch fresh (TemperatureCompensateS 1) = ISS_ON
  /\ written (emitted (ISNewSwitch (script [] broken) true "T. Compensate"
                         (ISS_ON, ISS_OFF)) fresh) = [":+#"]
  /\ switch (exec (ISNewSwitch (script [] broken) true "T. Compensate"
                     (ISS_ON, ISS_OFF)) fresh) (TemperatureCompensateS 1)
     = ISS_ON
  /\ status (exec (ISNewSwitch (script [] broken) true "T. Compensate"
                     (ISS_ON, ISS_OFF)) fresh) TemperatureCompensateSP
     = IPS_ALERT.
Proof.
  destruct (ISNewSwitch_compensation_rolls_back (script [] broken) fresh
              (ISS_ON, ISS_OFF) ltac:(discriminate) ltac:(discriminate))
    as (Hw & _ & Hs & Hsw & _).
  cbv zeta in *. apply (f_equal snd) in Hsw.
  split; [reflexivity|]. split; [exact Hw|]. split; [exact Hsw | exact Hs].
Defined.

(** X12.  A coil-power request that turns exactly one of the two
    switches on, on a vector that had exactly one on, writes [:SE0#]
    when the switch of index 0 is the one requested and [:SE1#]
    otherwise, even when the requested mode is the current one.  When
    the write goes through the request succeeds, the vector is Ok and
    holds the requested states.  When it fails the request fails, the
    vector is in Alert and the two switches are back to what they
    were.  A request for the current mode is notified twice, first as
    Ok and then with the outcome. *)
Theorem ISNewSwitch_coil_power_rolls_back
    (tty : Transport) (d : Driver) (states : ISState * ISState) :
  switch d (CoilPowerS 0) <> switch d (CoilPowerS 1) ->
  fst states <> snd states ->
  let sent := write_ok (tty (exchanges d)) in
  let same_mode := ISState_eqb (switch d (CoilPowerS 0)) (fst states) in
  let outcome := if sent then IPS_OK else IPS_ALERT in
  let d' := exec (ISNewSwitch tty true "FOCUS_COIL_POWER" states) d in
  written (emitted (ISNewSwitch tty true "FOCUS_COIL_POWER" states) d)
    = [if ISState_eqb (fst states) ISS_ON then ":SE0#" else ":SE1#"]
  /\ eval (ISNewSwitch tty true "FOCUS_COIL_POWER" states) d = Some sent
  /\ status d' CoilPowerSP = outcome
  /\ (switch d' (CoilPowerS 0), switch d' (CoilPowerS 1))
     = (if sent then states
        else (switch d (CoilPowerS 0), switch d (CoilPowerS 1)))
  /\ notified (emitted (ISNewSwitch tty true "FOCUS_COIL_POWER" states) d)
     = (if same_mode then [(CoilPowerSP, IPS_OK)] else [])
       ++ [(CoilPowerSP, outcome)].
Proof.
  intros Hpre Hreq. cbv zeta. unfold emitted, eval, exec.
  remember (ISNewSwitch tty true "FOCUS_COIL_POWER" states d) as r eqn:E.
  unfold ISNewSwitch in E. cbn [negb String.eqb Ascii.eqb Bool.eqb] in E.
  unfold IUFindOnSwitchIndex, IUUpdateSwitch, IUResetSwitch, switch_on,
    setCoilPowerState, IDSet_, emit, when in E.
  unfold bind, gets, modify, ret in E.
  destruct states as [r0 r1]. cbn [fst snd] in *.
  destruct (switch d (CoilPowerS 0)) eqn:Ea;
    destruct (switch d (CoilPowerS 1)) eqn:Eb;
    try congruence;
    destruct r0, r1; try congruence;
    cbn -[sendCommand_ snprintf cat] in E;
    rewrite ?Ea, ?Eb in E; cbn -[sendCommand_ snprintf cat] in E;
    rewrite sendCommand__run in E;
    cbn -[sendCommand_events snprintf cat] in E;
    destruct (write_ok (tty (exchanges d)));
    cbn -[sendCommand_events snprintf cat] in E;
    subst r; cbn -[sendCommand_events snprintf cat];
    rewrite <- ?app_assoc, skipn_exact; autorewrite with events;
    rewrite ?Ea, ?Eb; repeat split.
Qed.

(** From the start-up state, where "On" (index 1) is on: a request for
    "On" again is written as [:SE1#] and notified twice. *)
Lemma ISNewSwitch_coil_power_rolls_back_witness :
  written (emitted (ISNewSwitch (script [] no_answer) true "FOCUS_COIL_POWER"
                      (ISS_OFF, ISS_ON)) fresh) = [":SE1#"]
  /\ notified (emitted (ISNewSwitch (script [] no_answer) true
                          "FOCUS_COIL_POWER" (ISS_OFF, ISS_ON)) fresh)
     = [(CoilPowerSP, IPS_OK); (CoilPowerSP, IPS_OK)].
Proof.
  destruct (ISNewSwitch_coil_power_rolls_back (script [] no_answer) fresh
              (ISS_OFF, ISS_ON) ltac:(discriminate) ltac:(discriminate))
    as (Hw & _ & _ & _ & Hn).
  split; [exact Hw | exact Hn].
Defined.

(** ** Number requests *)

Section Lengths.

Local Open Scope string_scope.

Lemma decimal_length_32 v :
  0 <= v <= 2 ^ 32 -> (1 <= String.length (decimal v) <= 10)%nat.
Proof.
  intros Hv. destruct (decimal_spec v ltac:(lia)) as (_ & _ & Hl & Hk).
  split; [exact Hl|]. apply Hk; [lia|].
  assert (2 ^ 32 < 10 ^ Z.of_nat 10) by reflexivity. lia.
Qed.

Lemma fmt_u_length v : (String.length (fmt_u v) <= 10)%nat.
Proof.
  unfold fmt_u, to_uint32.
  pose proof (Z.mod_pos_bound v UINT32_MOD ltac:(unfold UINT32_MOD; lia)) as H.
  unfold UINT32_MOD in *. apply decimal_length_32. lia.
Qed.

Lemma fmt_d_length v : (String.length (fmt_d v) <= 11)%nat.
Proof.
  unfold fmt_d. pose proof (to_int32_range v) as H.
  unfold INT32_MIN, INT32_MAX in H.
  destruct (Z.ltb_spec (to_int32 v) 0).
  - cbn [String.length].
    pose proof (decimal_length_32 (- to_int32 v) ltac:(lia)). lia.
  - pose proof (decimal_length_32 (to_int32 v) ltac:(lia)). lia.
Qed.

(** A command made of a colon and two letters, a number of at most
    eleven characters and [#] is not cut by [snprintf]. *)
Lemma snprintf_numeric (a b : ascii) (num : string) :
  (String.length num <= 11)%nat ->
  snprintf ML_RES (cat [String ":" (String a (String b "")); num; "#"])
  = String ":" (String a (String b (num ++ "#"))).
Proof.
  intros H. rewrite cat3. apply snprintf_fits.
  cbn [append String.length]. rewrite length_append. cbn. unfold ML_RES. lia.
Qed.

Lemma fmt_u_small v : 0 <= v < UINT32_MOD -> fmt_u v = decimal v.
Proof. intros H. unfold fmt_u. now rewrite to_uint32_id. Qed.

Lemma fmt_d_nonneg v : 0 <= v <= INT32_MAX -> fmt_d v = decimal v.
Proof.
  intros H. unfold fmt_d.
  rewrite to_int32_id by (unfold INT32_MIN, INT32_MAX in *; lia).
  destruct (Z.ltb_spec v 0); [lia | reflexivity].
Qed.

End Lengths.

Lemma Q_to_uint32_floor (q : Q) :
  (0 <= q)%Q -> (q <= 100 # 1)%Q ->
  Q_to_uint32 q = Qfloor q /\ 0 <= Qfloor q <= 100.
Proof.
  destruct q as [n den]. unfold Qle, Q_to_uint32, Qfloor. cbn [Qnum Qden].
  intros H0 H1. rewrite Z.mul_1_r in *. 
  assert (Hn : 0 <= n) by lia.
  rewrite Z.quot_div_nonneg by lia.
  assert (Hq : 0 <= n / Z.pos den <= 100).
  { split; [apply Z.div_pos; lia|].
    apply Z.div_le_upper_bound; lia. }
  split; [|exact Hq]. apply to_uint32_id. unfold UINT32_MOD. lia.
Qed.

(** X13.  A request for new temperature settings, both between 0 and
    100, stores the two values and writes the calibration and then the
    coefficient, each cut down to its whole part, as [:SO<n>#] and
    [:SC<n>#].  The coefficient is only written when the calibration
    went through.  The vector is Ok when both writes went through and
    in Alert otherwise, and the stored values stay the requested ones
    either way. *)
Theorem ISNewNumber_settings
    (tty : Transport) (d : Driver) (values : Q * Q) :
  (0 <= fst values)%Q -> (fst values <= 100 # 1)%Q ->
  (0 <= snd values)%Q -> (snd values <= 100 # 1)%Q ->
  let x0 := tty (exchanges d) in
  let x1 := tty (S (exchanges d)) in
  let done := write_ok x0 && write_ok x1 in
  let d' := exec (ISNewNumber tty true "T. Settings" values) d in
  written (emitted (ISNewNumber tty true "T. Settings" values) d)
    = (":SO" ++ decimal (Qfloor (fst values)) ++ "#")%string
      :: (if write_ok x0
          then [(":SC" ++ decimal (Qfloor (snd values)) ++ "#")%string]
          else [])
  /\ eval (ISNewNumber tty true "T. Settings" values) d = Some done
  /\ status d' TemperatureSettingNP = (if done then IPS_OK else IPS_ALERT)
  /\ TemperatureSettingN d' = values
  /\ notified (emitted (ISNewNumber tty true "T. Settings" values) d)
     = [(TemperatureSettingNP, if done then IPS_OK else IPS_ALERT)].
Proof.
  intros Ha0 Ha1 Hb0 Hb1. cbv zeta.
  destruct (Q_to_uint32_floor _ Ha0 Ha1) as [Ea Ra].
  destruct (Q_to_uint32_floor _ Hb0 Hb1) as [Eb Rb].
  assert (Hin : in_range (-100 # 1) (100 # 1) (fst values)
                && in_range (-100 # 1) (100 # 1) (snd values) = true).
  { unfold in_range. rewrite !andb_true_iff, !Qle_bool_iff.
    repeat split; try assumption.
    - eapply Qle_trans; [|exact Ha0]. discriminate.
    - eapply Qle_trans; [|exact Hb0]. discriminate. }
  assert (Hso : snprintf ML_RES
                  (cat [":SO"; fmt_u (Q_to_uint32 (fst values)); "#"])
                = (":SO" ++ decimal (Qfloor (fst values)) ++ "#")%string).
  { rewrite snprintf_numeric
      by (pose proof (fmt_u_length (Q_to_uint32 (fst values))); lia).
    rewrite Ea, fmt_u_small by (unfold UINT32_MOD; lia). reflexivity. }
  assert (Hsc : snprintf ML_RES
                  (cat [":SC"; fmt_d (Q_to_uint32 (snd values)); "#"])
                = (":SC" ++ decimal (Qfloor (snd values)) ++ "#")%string).
  { rewrite snprintf_numeric by apply fmt_d_length.
    rewrite Eb, fmt_d_nonneg by (unfold INT32_MAX; lia). reflexivity. }
  unfold emitted, eval, exec.
  remember (ISNewNumber tty true "T. Settings" values d) as r eqn:E.
  unfold ISNewNumber in E. cbn [negb String.eqb Ascii.eqb Bool.eqb] in E.
  unfold IUUpdateNumber, setTemperatureCalibration, setTemperatureCoefficient,
    IDSet_, emit in E.
  rewrite Hin in E. cbn [when] in E.
  unfold bind, gets, modify, ret in E.
  cbn [TemperatureSettingN set_TemperatureSettingN fst snd] in E.
  rewrite Hso in E. rewrite sendCommand__run in E.
  cbn [exchanges set_TemperatureSettingN] in E.
  destruct (write_ok (tty (exchanges d)));
    cbn -[sendCommand_events sendCommand_ snprintf cat] in E;
    [rewrite Hsc, sendCommand__run in E;
     cbn -[sendCommand_events] in E;
     destruct (write_ok (tty (S (exchanges d))));
     cbn -[sendCommand_events] in E|];
    subst r; cbn -[sendCommand_events];
    rewrite <- ?app_assoc, skipn_exact; autorewrite with events;
    repeat split.
Qed.

(** Calibration 0.5 and coefficient 3.5 on a good line: [:SO0#] and
    [:SC3#] are written, and 0.5 and 3.5 are what the driver keeps. *)
Lemma ISNewNumber_settings_witness :
  written (emitted (ISNewNumber (script [] no_answer) true "T. Settings"
                      (1 # 2, 7 # 2)%Q) fresh) = [":SO0#"; ":SC3#"]
  /\ TemperatureSettingN
       (exec (ISNewNumber (script [] no_answer) true "T. Settings"
                (1 # 2, 7 # 2)%Q) fresh) = (1 # 2, 7 # 2)%Q.
Proof.
  destruct (ISNewNumber_settings (script [] no_answer) fresh (1 # 2, 7 # 2)%Q)
    as (Hw & _ & _ & Hv & _); try (cbn; discriminate).
  split; [exact Hw | exact Hv].
Defined.

(** ** Moves, beyond their answers *)

Lemma fmt_d_to_uint32 z : fmt_d (to_uint32 z) = fmt_d z.
Proof. unfold fmt_d. now rewrite to_int32_of_uint32. Qed.

(** X14.  A timed move writes the set-speed command first when the
    requested speed differs from the last known one, and nothing more
    when that write fails.  Otherwise it writes the set-position
    command for position 0 when moving inward and for the maximum
    position when moving outward, and the start-motion command when the
    set-position write went through.  It changes no property of the
    driver, the recorded speed included. *)
Theorem MoveFocuser_timed_sequence
    (tty : Transport) (d : Driver) (dir : FocusDirection)
    (speed duration : Z) :
  let differs := negb (speed =? double_to_int32 (value d FocusSpeedN)) in
  let speed_cmd := (":SD" ++ fmt_d speed ++ "#")%string in
  let target_cmd :=
    match dir with
    | FOCUS_INWARD => ":SN000000000#"
    | FOCUS_OUTWARD =>
        (":SN" ++ fmt_09i (double_to_uint32 (value d FocusMaxPosN)) ++ "#")%string
    end in
  let at_target := if differs then S (exchanges d) else exchanges d in
  written (emitted (MoveFocuser_timed tty dir speed duration) d)
    = (if differs then [speed_cmd] else [])
      ++ (if differs && negb (write_ok (tty (exchanges d))) then []
          else target_cmd
               :: (if write_ok (tty at_target) then [":FG#"] else []))
  /\ same_properties d (exec (MoveFocuser_timed tty dir speed duration) d).
Proof.
  cbv zeta.
  assert (Hsd : snprintf ML_RES (cat [":SD"; fmt_d (to_uint32 speed); "#"])
                = (":SD" ++ fmt_d speed ++ "#")%string).
  { rewrite snprintf_numeric by apply fmt_d_length.
    now rewrite fmt_d_to_uint32. }
  assert (Hin : snprintf ML_RES (cat [":SN"; fmt_09i 0; "#"]) = ":SN000000000#")
    by reflexivity.
  pose proof (snprintf_opcode_09i ":" "S" "N"
                (double_to_uint32 (value d FocusMaxPosN))) as Hout.
  cbv zeta in Hout.
  unfold emitted, exec.
  remember (MoveFocuser_timed tty dir speed duration d) as r eqn:E.
  unfold MoveFocuser_timed, setSpeed in E. unfold bind, gets, emit, modify, ret in E.
  destruct (negb (speed =? double_to_int32 (value d FocusSpeedN))).
  - rewrite Hsd, sendCommand__run in E.
    destruct (write_ok (tty (exchanges d))) eqn:W0;
      cbn -[sendCommand_events MoveFocuser] in E.
    + destruct dir; rewrite MoveFocuser_run in E; cbv zeta in E;
        cbn [exchanges advance value Nat.add] in E;
        rewrite ?Hin, ?Hout in E; subst r;
        destruct (write_ok (tty (S (exchanges d))));
        cbn -[sendCommand_events];
        rewrite <- ?app_assoc, skipn_exact; autorewrite with events;
        (split; [reflexivity | repeat split]).
    + subst r. cbn -[sendCommand_events]. rewrite skipn_exact.
      autorewrite with events. split; [reflexivity | repeat split].
  - cbn -[sendCommand_events MoveFocuser] in E.
    destruct dir; rewrite MoveFocuser_run in E; cbv zeta in E;
      rewrite ?Hin, ?Hout in E; subst r;
      destruct (write_ok (tty (exchanges d)));
      cbn -[sendCommand_events];
      rewrite <- ?app_assoc, skipn_exact; autorewrite with events;
      (split; [reflexivity | repeat split]).
Qed.

(** X15.  [MoveAbsFocuser] records its target in [targetPos] and
    changes nothing else: no status, no value, no switch.
    [MoveRelFocuser] never touches [targetPos]; when it answers Alert it
    has changed nothing at all, and when it answers Busy it has changed
    the relative-position value and status only. *)
Theorem moves_change_little
    (tty : Transport) (d : Driver) (dir : FocusDirection) (t : Z) :
  let da := exec (MoveAbsFocuser tty t) d in
  let dr := exec (MoveRelFocuser tty dir t) d in
  targetPos da = t
  /\ same_properties (set_targetPos t d) da
  /\ targetPos dr = targetPos d
  /\ (eval (MoveRelFocuser tty dir t) d = IPS_ALERT -> same_properties d dr)
  /\ (eval (MoveRelFocuser tty dir t) d = IPS_BUSY ->
      same_properties
        (set_status FocusRelPosNP IPS_BUSY (set_value FocusRelPosN t d)) dr)
  /\ (eval (MoveRelFocuser tty dir t) d = IPS_ALERT
      \/ eval (MoveRelFocuser tty dir t) d = IPS_BUSY).
Proof.
  cbv zeta. unfold eval, exec.
  assert (Ea : MoveAbsFocuser tty t d =
               let (ok, d1) := MoveFocuser tty t (set_targetPos t d) in
               (if ok then IPS_BUSY else IPS_ALERT, d1)).
  { unfold MoveAbsFocuser, bind, gets, modify. cbn [targetPos set_targetPos].
    destruct (MoveFocuser tty t (set_targetPos t d)) as [[|] d1]; reflexivity. }
  remember (MoveRelFocuser tty dir t d) as rr eqn:Er.
  unfold MoveRelFocuser, bind, gets, modify, ret in Er.
  rewrite MoveFocuser_run in Er. cbv zeta in Er.
  rewrite Ea, MoveFocuser_run. cbv zeta. subst rr.
  cbn [exchanges set_targetPos].
  destruct (write_ok (tty (exchanges d)));
    [destruct (write_ok (tty (S (exchanges d))))|];
    cbn -[sendCommand_events];
    (split; [reflexivity|]); (split; [repeat split|]);
    (split; [reflexivity|]);
    (split; [intros H; try discriminate H; repeat split|]);
    (split; [intros H; try discriminate H; repeat split|]); auto.
Qed.

(** A relative move on a dead line: Alert, and the relative value is
    not the requested 50. *)
Lemma moves_change_little_witness :
  eval (MoveRelFocuser (script [] broken) FOCUS_INWARD 50) fresh = IPS_ALERT
  /\ value (exec (MoveRelFocuser (script [] broken) FOCUS_INWARD 50) fresh)
       FocusRelPosN = 0
  /\ targetPos (exec (MoveAbsFocuser (script [] broken) 700) fresh) = 700.
Proof.
  destruct (moves_change_little (script [] broken) fresh FOCUS_INWARD 50)
    as (_ & _ & _ & Hal & _).
  destruct (Hal eq_refl) as (_ & _ & _ & _ & Hv & _).
  destruct (moves_change_little (script [] broken) fresh FOCUS_INWARD 700)
    as (Ht & _).
  split; [reflexivity|]. split; [apply Hv | exact Ht].
Defined.

(** X16.  The four one-command overrides, [AbortFocuser],
    [SyncFocuser], [SetFocuserSpeed] and [ReverseFocuser], answer
    whether their write went through, use one exchange, notify nothing
    and change no property of the driver: the position, the speed and
    the reverse switch stay what they were. *)
Theorem one_command_overrides_change_nothing
    (tty : Transport) (d : Driver) (ticks speed : Z) (enable : bool) :
  let sent := write_ok (tty (exchanges d)) in
  (eval (AbortFocuser tty) d = sent
   /\ same_properties d (exec (AbortFocuser tty) d)
   /\ notified (emitted (AbortFocuser tty) d) = [])
  /\ (eval (SyncFocuser tty ticks) d = sent
   /\ same_properties d (exec (SyncFocuser tty ticks) d)
   /\ notified (emitted (SyncFocuser tty ticks) d) = [])
  /\ (eval (SetFocuserSpeed tty speed) d = sent
   /\ same_properties d (exec (SetFocuserSpeed tty speed) d)
   /\ notified (emitted (SetFocuserSpeed tty speed) d) = [])
  /\ (eval (ReverseFocuser tty enable) d = sent
   /\ same_properties d (exec (ReverseFocuser tty enable) d)
   /\ notified (emitted (ReverseFocuser tty enable) d) = []).
Proof.
  cbv zeta.
  unfold eval, emitted, exec, AbortFocuser, SyncFocuser, SetFocuserSpeed,
    setSpeed, ReverseFocuser.
  rewrite !sendCommand__run. cbn [fst snd advance trace].
  rewrite !skipn_exact. autorewrite with events.
  repeat split.
Qed.

(** ** The shape of every command *)

Section Framed.

Local Open Scope string_scope.

Lemma framed_letters (a b : ascii) : framed (String ":" (String a (String b "#"))).
Proof.
  split; [unfold ML_RES; cbn; lia|]. now exists (String a (String b "")).
Qed.

Lemma framed_letter (a : ascii) : framed (String ":" (String a "#")).
Proof. split; [unfold ML_RES; cbn; lia|]. now exists (String a ""). Qed.

Lemma framed_numeric (a b : ascii) (num : string) :
  (String.length num <= 11)%nat ->
  framed (snprintf ML_RES (cat [String ":" (String a (String b "")); num; "#"])).
Proof.
  intros H. rewrite snprintf_numeric by exact H. split.
  - cbn [String.length]. rewrite length_append. cbn. unfold ML_RES. lia.
  - now exists (String a (String b num)).
Qed.

Lemma fmt_09i_length t : (String.length (fmt_09i t) <= 11)%nat.
Proof. now destruct (fmt_09i_roundtrip t "#" eq_refl). Qed.

End Framed.

Ltac framed_now :=
  lazymatch goal with
  | |- framed (snprintf _ (cat [":"; if ?b then _ else _; _])) =>
      destruct b; apply framed_letter
  | |- framed (snprintf _ (cat _)) =>
      apply framed_numeric;
      first [apply fmt_09i_length | apply fmt_d_length
            | (eapply Nat.le_trans; [apply fmt_u_length | repeat constructor])]
  | |- framed (snprintf _ ":HO#") => apply framed_letters
  | |- framed _ => first [apply framed_letters | apply framed_letter]
  end.

Section Sends.

Variable tty : Transport.
Variable P : string -> Prop.

Lemma sends_quiet {A} (m : M A) :
  (forall d, trace (exec m d) = trace d) -> sends m P.
Proof.
  intros H d. exists []. rewrite H, app_nil_r. split; [reflexivity|constructor].
Qed.

Lemma sends_emit e : written [e] = [] -> sends (emit e) P.
Proof.
  intros H d. exists [e]. split; [reflexivity|]. rewrite H. constructor.
Qed.

Lemma sends_IDSet v : sends (IDSet_ v) P.
Proof.
  intros d. exists [IDSet v (status d v)]. split; [reflexivity|constructor].
Qed.

Lemma sends_bind {A B} (m : M A) (k : A -> M B) :
  sends m P -> (forall a, sends (k a) P) -> sends (bind m k) P.
Proof.
  intros Hm Hk d. destruct (Hm d) as (es1 & E1 & S1).
  unfold exec, bind in *. destruct (m d) as [a d1]. cbn [snd] in *.
  destruct (Hk a d1) as (es2 & E2 & S2). unfold exec in E2.
  exists (es1 ++ es2). split.
  - rewrite E2, E1. now rewrite app_assoc.
  - rewrite written_app. apply Forall_app. now split.
Qed.

Lemma sends_sendCommand cmd res silent nret :
  P cmd -> sends (sendCommand tty cmd res silent nret) P.
Proof.
  intros H d. unfold exec. rewrite sendCommand_run.
  eexists. split; [reflexivity|].
  rewrite written_sendCommand_events. now constructor.
Qed.

Lemma sends_sendCommand_ cmd : P cmd -> sends (sendCommand_ tty cmd) P.
Proof.
  intros H. unfold sendCommand_. apply sends_bind.
  - now apply sends_sendCommand.
  - intros a. now apply sends_quiet.
Qed.

Lemma sends_run {A} (m : M A) : sends m P -> sends (run m) P.
Proof. intros H. apply sends_bind; [exact H | intros; now apply sends_quiet]. Qed.

End Sends.

Create HintDb sends discriminated.
#[local] Hint Constants Opaque : sends.

(** Checking that a method only writes framed commands: follow its
    structure down to the writes, and check each command there. *)
Ltac sends_now :=
  lazymatch goal with
  | |- sends (ret _) _ => apply sends_quiet; reflexivity
  | |- sends (gets _) _ => apply sends_quiet; reflexivity
  | |- sends (modify _) _ => apply sends_quiet; reflexivity
  | |- sends (emit _) _ => apply sends_emit; reflexivity
  | |- sends (LOG _ _) _ => apply sends_emit; reflexivity
  | |- sends (IDSet_ _) _ => apply sends_IDSet
  | |- sends (when ?b _) _ => destruct b; cbn [when]; sends_now
  | |- sends (bind _ _) _ =>
      apply sends_bind; [sends_now | intros; sends_now]
  | |- sends (if ?b then _ else _) _ => destruct b; sends_now
  | |- sends (match ?x with _ => _ end) _ => destruct x; sends_now
  | |- sends (sendCommand _ _ _ _ _) _ => apply sends_sendCommand; framed_now
  | |- sends (sendCommand_ _ _) _ => apply sends_sendCommand_; framed_now
  | |- sends _ _ => solve [eauto with sends nocore]
  end.

Section FramedMethods.

Variable tty : Transport.

Lemma sends_readCoilPowerState : sends (readCoilPowerState tty) framed.
Proof. unfold readCoilPowerState. sends_now. Qed.

Lemma sends_readReverseDirection : sends (readReverseDirection tty) framed.
Proof. unfold readReverseDirection. sends_now. Qed.

Lemma sends_readVersion : sends (readVersion tty) framed.
Proof. unfold readVersion. sends_now. Qed.

Lemma sends_read_fixed_point a b store :
  (forall v d, trace (store v d) = trace d) ->
  sends (read_fixed_point tty (String ":" (String a (String b "#"))) store)
    framed.
Proof.
  intros Hs. unfold read_fixed_point. apply sends_bind.
  - apply sends_sendCommand, framed_letters.
  - intros [res|]; [|sends_now].
    destruct (sscanf_d_dot_d 0 0 res) as [[rc w] f].
    destruct (0 <? rc); [|sends_now].
    apply sends_bind; [|intros; sends_now].
    apply sends_quiet. intros d. apply Hs.
Qed.

Lemma sends_readTemperature : sends (readTemperature tty) framed.
Proof. now apply sends_read_fixed_point. Qed.

Lemma sends_readTemperatureCoefficient :
  sends (readTemperatureCoefficient tty) framed.
Proof. now apply sends_read_fixed_point. Qed.

Lemma sends_readTemperatureCalibration :
  sends (readTemperatureCalibration tty) framed.
Proof. now apply sends_read_fixed_point. Qed.

Lemma sends_readPosition : sends (readPosition tty) framed.
Proof. unfold readPosition. sends_now. Qed.

Lemma sends_readSpeed : sends (readSpeed tty) framed.
Proof. unfold readSpeed. sends_now. Qed.

Lemma sends_isMoving : sends (isMoving tty) framed.
Proof. unfold isMoving. sends_now. Qed.

Lemma sends_setTemperatureCalibration c :
  sends (setTemperatureCalibration tty c) framed.
Proof. unfold setTemperatureCalibration. sends_now. Qed.

Lemma sends_setTemperatureCoefficient c :
  sends (setTemperatureCoefficient tty c) framed.
Proof. unfold setTemperatureCoefficient. sends_now. Qed.

Lemma sends_SyncFocuser t : sends (SyncFocuser tty t) framed.
Proof. unfold SyncFocuser. sends_now. Qed.

Lemma sends_MoveFocuser p : sends (MoveFocuser tty p) framed.
Proof. unfold MoveFocuser. sends_now. Qed.

Lemma sends_setCoilPowerState e : sends (setCoilPowerState tty e) framed.
Proof. unfold setCoilPowerState. sends_now. Qed.

Lemma sends_ReverseFocuser e : sends (ReverseFocuser tty e) framed.
Proof. unfold ReverseFocuser. sends_now. Qed.

Lemma sends_AbortFocuser : sends (AbortFocuser tty) framed.
Proof. unfold AbortFocuser. sends_now. Qed.

Lemma sends_setSpeed s : sends (setSpeed tty s) framed.
Proof. unfold setSpeed. sends_now. Qed.

Lemma sends_setTemperatureCompensation e :
  sends (setTemperatureCompensation tty e) framed.
Proof. unfold setTemperatureCompensation. sends_now. Qed.

Lemma sends_Ack_loop n : sends (Ack_loop tty n) framed.
Proof.
  induction n as [|n IH]; cbn [Ack_loop]; [sends_now|].
  apply sends_bind; [apply sends_readVersion|].
  intros [|]; [sends_now|]. apply sends_bind; [sends_now | intros; exact IH].
Qed.

End FramedMethods.

#[local] Hint Resolve sends_readCoilPowerState sends_readReverseDirection
  sends_readVersion sends_readTemperature sends_readTemperatureCoefficient
  sends_readTemperatureCalibration sends_readPosition sends_readSpeed
  sends_isMoving sends_setTemperatureCalibration
  sends_setTemperatureCoefficient sends_SyncFocuser sends_MoveFocuser
  sends_setCoilPowerState sends_ReverseFocuser sends_AbortFocuser
  sends_setSpeed sends_setTemperatureCompensation sends_Ack_loop : sends.

Section FramedRequests.

Variable tty : Transport.

Lemma sends_setGotoHome : sends (setGotoHome tty) framed.
Proof. unfold setGotoHome. sends_now. Qed.

Lemma sends_IUFindOnSwitchIndex sw P : sends (IUFindOnSwitchIndex sw) P.
Proof. now apply sends_quiet. Qed.

Lemma sends_IUResetSwitch sw n P : sends (IUResetSwitch sw n) P.
Proof.
  apply sends_quiet. intros d. unfold IUResetSwitch, exec, bind, modify, when.
  destruct (1 <? n); reflexivity.
Qed.

Lemma sends_IUUpdateSwitch sw states P : sends (IUUpdateSwitch sw states) P.
Proof.
  apply sends_quiet. intros d. unfold IUUpdateSwitch, exec, when.
  destruct (negb _); reflexivity.
Qed.

Lemma sends_switch_on sw i P : sends (switch_on sw i) P.
Proof.
  apply sends_quiet. intros d. unfold switch_on, exec, when.
  destruct (_ && _); reflexivity.
Qed.

Lemma sends_IUUpdateNumber values P : sends (IUUpdateNumber values) P.
Proof.
  apply sends_quiet. intros d. unfold IUUpdateNumber, exec, when.
  destruct (_ && _); reflexivity.
Qed.

End FramedRequests.

#[local] Hint Resolve sends_setGotoHome sends_IUFindOnSwitchIndex
  sends_IUResetSwitch sends_IUUpdateSwitch sends_switch_on
  sends_IUUpdateNumber : sends.

Section FramedOperations.

Variable tty : Transport.

Lemma sends_ISNewSwitch dev name states :
  sends (ISNewSwitch tty dev name states) framed.
Proof. unfold ISNewSwitch. sends_now. Qed.

Lemma sends_ISNewNumber dev name values :
  sends (ISNewNumber tty dev name values) framed.
Proof. unfold ISNewNumber. sends_now. Qed.

Lemma sends_GetFocusParams : sends (GetFocusParams tty) framed.
Proof. unfold GetFocusParams. sends_now. Qed.

Lemma sends_updateProperties : sends (updateProperties tty) framed.
Proof.
  pose proof sends_GetFocusParams. unfold updateProperties. sends_now.
Qed.

Lemma sends_MoveFocuser_timed dir s t :
  sends (MoveFocuser_timed tty dir s t) framed.
Proof. unfold MoveFocuser_timed. sends_now. Qed.

Lemma sends_timedMoveCallback : sends (timedMoveCallback tty) framed.
Proof. unfold timedMoveCallback. sends_now. Qed.

Lemma sends_MoveAbsFocuser t : sends (MoveAbsFocuser tty t) framed.
Proof. unfold MoveAbsFocuser. sends_now. Qed.

Lemma sends_MoveRelFocuser dir t : sends (MoveRelFocuser tty dir t) framed.
Proof. unfold MoveRelFocuser. cbv zeta. sends_now. Qed.

Lemma sends_TimerHit : sends (TimerHit tty) framed.
Proof. unfold TimerHit. sends_now. Qed.

Lemma sends_Handshake : sends (Handshake tty) framed.
Proof. unfold Handshake, Ack. sends_now. Qed.

End FramedOperations.

(** X17.  Whatever the line answers and whatever the arguments, every
    command the driver writes, in any of its operations and in the
    handshake, is a colon, a body and [#], and is shorter than the
    32-byte buffer it is printed into: no command is ever cut by
    [snprintf]. *)
Theorem every_command_is_framed (tty : Transport) (d : Driver) :
  (forall op, Forall framed (written (emitted (call tty op) d)))
  /\ Forall framed (written (emitted (Handshake tty) d)).
Proof.
  assert (H : forall A (m : M A), sends m framed ->
                Forall framed (written (emitted m d))).
  { intros A m Hm. destruct (Hm d) as (es & E & F).
    now rewrite (emitted_of _ _ _ E). }
  split; [|apply H, sends_Handshake].
  intros op. apply H.
  destruct op; cbn [call]; apply sends_run;
    lazymatch goal with
    | |- sends (ISNewSwitch _ _ _ _) _ => apply sends_ISNewSwitch
    | |- sends (ISNewNumber _ _ _ _) _ => apply sends_ISNewNumber
    | |- sends (GetFocusParams _) _ => apply sends_GetFocusParams
    | |- sends (updateProperties _) _ => apply sends_updateProperties
    | |- sends (MoveFocuser_timed _ _ _ _) _ => apply sends_MoveFocuser_timed
    | |- sends (timedMoveCallback _) _ => apply sends_timedMoveCallback
    | |- sends (MoveAbsFocuser _ _) _ => apply sends_MoveAbsFocuser
    | |- sends (MoveRelFocuser _ _ _) _ => apply sends_MoveRelFocuser
    | |- sends (TimerHit _) _ => apply sends_TimerHit
    | |- sends (SetFocuserSpeed _ _) _ => apply sends_setSpeed
    | |- _ => solve [eauto with sends nocore]
    end.
Qed.

(** ** Speed there and back, and a homing that succeeds *)

(** X18.  For a speed between 0 and 2^31 - 1, [SetFocuserSpeed] writes
    [:SD], the plain decimal digits of the speed and [#]; unlike a
    position the speed is not zero-padded, so when the device later
    answers the speed query with the same digits, [readSpeed] stores the
    speed that was set. *)
Theorem speed_set_then_read (tty : Transport) (d : Driver) (s : Z) :
  0 <= s <= INT32_MAX ->
  let d1 := exec (SetFocuserSpeed tty s) d in
  written (emitted (SetFocuserSpeed tty s) d)
    = [(":SD" ++ decimal s ++ "#")%string]
  /\ (reply_of (tty (exchanges d1)) = Some (decimal s ++ "#")%string ->
      eval (readSpeed tty) d1 = true
      /\ value (exec (readSpeed tty) d1) FocusSpeedN = s).
Proof.
  intros Hs d1. split.
  - unfold emitted, exec, SetFocuserSpeed, setSpeed.
    rewrite sendCommand__run. cbn [snd advance trace].
    rewrite skipn_exact. autorewrite with events.
    rewrite snprintf_numeric by apply fmt_d_length.
    rewrite fmt_d_to_uint32, fmt_d_nonneg by exact Hs. reflexivity.
  - intros Hr.
    pose proof (scan_i_decimal false s "#" Hs eq_refl eq_refl eq_refl) as Hscan.
    cbn [append] in Hscan.
    assert (Hspd : speed_of (tty (exchanges d1)) = Some s).
    { unfold speed_of, sscanf1. now rewrite Hr, Hscan. }
    destruct (readSpeed_outcome tty d1) as (es & _ & _ & Hrun).
    cbv zeta in Hrun. rewrite Hspd in Hrun. destruct Hrun as [E _].
    unfold eval, exec. rewrite E. split; reflexivity.
Qed.

(** Speed 4 is written as [:SD4#], and read back as 4 from [4#]. *)
Lemma speed_set_then_read_witness :
  written (emitted (SetFocuserSpeed (script [answer ""; answer "4#"] broken) 4)
             fresh) = [":SD4#"]
  /\ value (exec (readSpeed (script [answer ""; answer "4#"] broken))
              (exec (SetFocuserSpeed (script [answer ""; answer "4#"] broken) 4)
                 fresh)) FocusSpeedN = 4.
Proof.
  destruct (speed_set_then_read (script [answer ""; answer "4#"] broken) fresh 4
              ltac:(unfold INT32_MAX; lia)) as (Hw & Hread).
  split; [exact Hw|]. now destruct (Hread eq_refl).
Defined.

(** X19.  Whether a homing request succeeds depends on the home command
    alone: the outcome of the abort written before it to a moving
    device is not looked at.  When the home command is written the
    request answers true, sets the home vector to Ok and notifies it
    once; no other status changes and no switch changes, the states the
    client sent included. *)
Theorem ISNewSwitch_home_success
    (tty : Transport) (d : Driver) (states : ISState * ISState) :
  let n := exchanges d in
  let home_at := if moving_flag (tty n) then S (S n) else S n in
  let d' := exec (ISNewSwitch tty true "FOCUS_HOME" states) d in
  eval (setGotoHome tty) d = write_ok (tty home_at)
  /\ (write_ok (tty home_at) = true ->
      eval (ISNewSwitch tty true "FOCUS_HOME" states) d = Some true
      /\ (forall v, status d' v
                    = if Vector_eqb v GotoHomeSP then IPS_OK else status d v)
      /\ (forall k, switch d' k = switch d k)
      /\ notified (emitted (ISNewSwitch tty true "FOCUS_HOME" states) d)
         = [(GotoHomeSP, IPS_OK)]).
Proof.
  cbv zeta. unfold eval, emitted, exec. rewrite ISNewSwitch_home_run.
  rewrite setGotoHome_run. cbv zeta.
  destruct (moving_flag (tty (exchanges d))); cbn [fst];
    (split; [reflexivity|]); intros ->; cbn;
    rewrite <- ?app_assoc, skipn_exact; autorewrite with events;
    repeat split.
Qed.

(** The device says it moves, the abort cannot be written, the home
    command can: the request succeeds. *)
Lemma ISNewSwitch_home_success_witness :
  write_ok (script [answer "1#"; broken] (answer "") 1%nat) = false
  /\ eval (ISNewSwitch (script [answer "1#"; broken] (answer "")) true
             "FOCUS_HOME" (ISS_ON, ISS_OFF)) fresh = Some true.
Proof.
  split; [reflexivity|].
  destruct (ISNewSwitch_home_success (script [answer "1#"; broken] (answer ""))
              fresh (ISS_ON, ISS_OFF)) as (_ & H).
  now destruct (H eq_refl).
Defined.
